(** * Student registration (src/app.js): the validation and roster core

    A shallow embedding of the script behind the registration page: the four
    field validators, the input filters, the persistence adapter, the text
    escaping of the renderer, the roster operations and the form's submit
    handler, followed by the properties the specification states about them
    and by further properties of the same code.

    Conventions of the embedding.
    - A JavaScript string is the list of its UTF-16 code units.
    - A roster element is a JavaScript value as [JSON.parse] can produce it;
      the script never checks the shape of what it loads.
    - A handler is a function from the page state to a completion (normal, or
      an exception thrown) and the state it leaves behind: assignments made
      before an exception are kept, as in the script.
    - The platform supplies [JSON.parse], [JSON.stringify], [Date.now] and
      [Math.random]; they enter as arguments, as does what the user answers
      to [confirm]. Reads and writes of [localStorage] complete. *)

From Stdlib Require Import ZArith NArith List String Ascii Bool Lia.
From Stdlib Require Import Floats.SpecFloat.
From stdpp Require Import base tactics option numbers list.
Import ListNotations.

Local Open Scope N_scope.

(** ** Strings *)

Definition code_unit := N.
Definition jsstring := list code_unit.

(** An ASCII literal of the script as code units. *)
Definition lit (s : String.string) : jsstring :=
  map N_of_ascii (list_ascii_of_string s).

Definition cu_eqb (a b : code_unit) : bool := N.eqb a b.

Fixpoint str_eqb (a b : jsstring) : bool :=
  match a, b with
  | [], [] => true
  | x :: a', y :: b' => cu_eqb x y && str_eqb a' b'
  | _, _ => false
  end.

(** A string is falsy exactly when it is empty: [!s]. *)
Definition str_falsy (s : jsstring) : bool :=
  match s with [] => true | _ :: _ => false end.

Definition in_range (lo hi c : code_unit) : bool := (lo <=? c) && (c <=? hi).

(** WhiteSpace and LineTerminator of ECMAScript: what [trim] strips and what
    the class [\s] matches. *)
Definition is_space (c : code_unit) : bool :=
  in_range 9 13 c                (* TAB LF VT FF CR *)
  || (c =? 32) || (c =? 160)     (* SP, NBSP *)
  || (c =? 5760)                 (* U+1680 *)
  || in_range 8192 8202 c        (* U+2000 .. U+200A *)
  || (c =? 8232) || (c =? 8233)  (* LS, PS *)
  || (c =? 8239) || (c =? 8287)  (* U+202F, U+205F *)
  || (c =? 12288)                (* U+3000 *)
  || (c =? 65279).               (* U+FEFF *)

Definition is_digit (c : code_unit) : bool := in_range 48 57 c.
Definition is_letter (c : code_unit) : bool := in_range 97 122 c || in_range 65 90 c.

Fixpoint trimStart (s : jsstring) : jsstring :=
  match s with
  | c :: t => if is_space c then trimStart t else s
  | [] => []
  end.

Definition trimEnd (s : jsstring) : jsstring := rev (trimStart (rev s)).

(** [s.trim()] *)
Definition trim (s : jsstring) : jsstring := trimEnd (trimStart s).

(** [s.slice(from, to)] for indices inside [0, infinity). *)
Definition slice (from to : nat) (s : jsstring) : jsstring :=
  firstn (to - from) (skipn from s).

(** ** Regular expressions

    The script's patterns use character classes, concatenation and [+] only,
    always between [^] and [$] and without flags, so [re.test(s)] asks whether
    the whole of [s] is in the pattern's language. Membership is decided by
    derivatives. *)

Inductive regex : Type :=
  | ReNone
  | ReEps
  | ReClass (p : code_unit -> bool)
  | ReCat (r s : regex)
  | ReAlt (r s : regex)
  | ReStar (r : regex).

Definition RePlus (r : regex) : regex := ReCat r (ReStar r).
Definition ReChar (c : code_unit) : regex := ReClass (cu_eqb c).

Fixpoint nullable (r : regex) : bool :=
  match r with
  | ReNone => false
  | ReEps => true
  | ReClass _ => false
  | ReCat r s => nullable r && nullable s
  | ReAlt r s => nullable r || nullable s
  | ReStar _ => true
  end.

Fixpoint deriv (c : code_unit) (r : regex) : regex :=
  match r with
  | ReNone => ReNone
  | ReEps => ReNone
  | ReClass p => if p c then ReEps else ReNone
  | ReCat r s =>
      if nullable r then ReAlt (ReCat (deriv c r) s) (deriv c s)
      else ReCat (deriv c r) s
  | ReAlt r s => ReAlt (deriv c r) (deriv c s)
  | ReStar r => ReCat (deriv c r) (ReStar r)
  end.

(** [/^r$/.test(s)] *)
Fixpoint test (r : regex) (s : jsstring) : bool :=
  match s with
  | [] => nullable r
  | c :: t => test (deriv c r) t
  end.

(** [/^[a-zA-Z\s]+$/] *)
Definition re_name : regex := RePlus (ReClass (fun c => is_letter c || is_space c)).

(** [/^\d+$/] *)
Definition re_digits : regex := RePlus (ReClass is_digit).

(** [[^\s@]] *)
Definition not_space_at (c : code_unit) : bool := negb (is_space c || (c =? 64)).

(** [/^[^\s@]+@[^\s@]+\.[^\s@]+$/] *)
Definition re_email : regex :=
  ReCat (RePlus (ReClass not_space_at))
    (ReCat (ReChar 64)
       (ReCat (RePlus (ReClass not_space_at))
          (ReCat (ReChar 46) (RePlus (ReClass not_space_at))))).

(** ** Validators (app.js 41-64 and 239-243) *)

Definition validateName (name : jsstring) : jsstring :=
  if str_falsy (trim name) then lit "Name is required"
  else if negb (test re_name (trim name)) then lit "Name must have letters and spaces only"
  else [].

Definition validateSID (sid : jsstring) : jsstring :=
  if str_falsy (trim sid) then lit "Student ID is required"
  else if negb (test re_digits (trim sid)) then lit "Student ID must be numeric"
  else [].

Definition validateEmail (email : jsstring) : jsstring :=
  if str_falsy (trim email) then lit "Email is required"
  else if negb (test re_email (trim email)) then lit "Enter a valid email"
  else [].

(** The declaration at lines 59-64. A later declaration of the same name in
    the same scope replaces it before any code runs, so nothing calls it. *)
Definition validateContact_shadowed (contact : jsstring) : jsstring :=
  if str_falsy (trim contact) then lit "Contact is required"
  else if negb (test re_digits (trim contact)) then lit "Contact must be numeric"
  else if (length (trim contact) <? 10)%nat then lit "Contact must be at least 10 digits"
  else [].

(** The declaration at lines 239-243: the one bound to [validateContact] when
    the submit handler runs. *)
Definition validateContact (contact : jsstring) : jsstring :=
  if str_falsy (trim contact) then lit "Contact number is required"
  else if negb (length (trim contact) =? 10)%nat then lit "Contact number must be exactly 10 digits"
  else [].

(** ** Input filters (app.js 249-258)

    The three [input] listeners. Each assigns to its input the value it reads
    there with every match of a global pattern replaced by the empty string.
    The patterns are negated classes without the [u] flag, so a match is one
    code unit outside the class. *)

(** [s.replace(/[^class]/g, '')] *)
Definition strip (keep : code_unit -> bool) (s : jsstring) : jsstring :=
  List.filter keep s.

(** [sidInput.value.replace(/[^\d]/g, '')] *)
Definition sidInput_input (text : jsstring) : jsstring := strip is_digit text.

(** [contactInput.value.replace(/[^\d]/g, '')] *)
Definition contactInput_input (text : jsstring) : jsstring := strip is_digit text.

(** [nameInput.value.replace(/[^a-zA-Z\s]/g, '')] *)
Definition nameInput_input (text : jsstring) : jsstring :=
  strip (fun c => is_letter c || is_space c) text.

(** ** Values

    What [JSON.parse] can return, together with [undefined], which a read of
    a missing property yields. A number is an IEEE 754 double. An object is
    the list of its own properties; a lookup takes the first binding of a
    name. *)

#[warnings="-register-all"]
Inductive value : Type :=
  | VUndef
  | VNull
  | VBool (b : bool)
  | VNum (x : spec_float)
  | VStr (s : jsstring)
  | VArr (elems : list value)
  | VObj (props : list (jsstring * value)).

Inductive exn : Type := TypeError | SyntaxError.

Inductive result (A : Type) : Type :=
  | Ok (a : A)
  | Throw (e : exn).
Arguments Ok {A} a.
Arguments Throw {A} e.

#[global] Instance result_ret : MRet result := fun A a => Ok a.
#[global] Instance result_bind : MBind result := fun A B f m =>
  match m with Ok a => f a | Throw e => Throw e end.

(** The property names the script reads. *)
Inductive key : Type := Kid | Kname | Ksid | Kemail | Kcontact.

Definition key_name (k : key) : jsstring :=
  match k with
  | Kid => lit "id"
  | Kname => lit "name"
  | Ksid => lit "sid"
  | Kemail => lit "email"
  | Kcontact => lit "contact"
  end.

Fixpoint own (props : list (jsstring * value)) (name : jsstring) : option value :=
  match props with
  | [] => None
  | (n, v) :: rest => if str_eqb n name then Some v else own rest name
  end.

(** [v.k] for one of the five names: a TypeError on [null] and [undefined];
    the own property of an object, or [undefined] when it has none (no
    prototype defines any of the five names); [undefined] on every other
    value. *)
Definition get (v : value) (k : key) : result value :=
  match v with
  | VUndef | VNull => Throw TypeError
  | VObj props => Ok (default VUndef (own props (key_name k)))
  | _ => Ok VUndef
  end.

(** [v === s] for a string [s]. *)
Definition strict_eq_str (v : value) (s : jsstring) : bool :=
  match v with VStr t => str_eqb t s | _ => false end.

(** [v === e] where [e] is [null] ([None]) or a string: the values
    [editingId] takes. *)
Definition strict_eq_edit (v : value) (e : option jsstring) : bool :=
  match e, v with
  | None, VNull => true
  | Some s, VStr t => str_eqb t s
  | _, _ => false
  end.

Definition is_zero_or_nan (x : spec_float) : bool :=
  match x with S754_zero _ | S754_nan => true | _ => false end.

(** ToBoolean *)
Definition truthy (v : value) : bool :=
  match v with
  | VUndef | VNull => false
  | VBool b => b
  | VNum x => negb (is_zero_or_nan x)
  | VStr s => negb (str_falsy s)
  | VArr _ | VObj _ => true
  end.

(** Whether ToString completes. It throws a TypeError on an object that has
    an own property [toString]: parsed JSON holds no function, so neither
    that property nor the inherited [valueOf] yields a primitive. An array
    joins the strings of its elements, [null] and [undefined] written as
    the empty string. *)
Fixpoint toString_ok (v : value) : bool :=
  match v with
  | VObj props => negb (bool_decide (is_Some (own props (lit "toString"))))
  | VArr elems =>
      forallb (fun e => match e with VUndef | VNull => true | _ => toString_ok e end) elems
  | _ => true
  end.

Definition ToString (v : value) : result unit :=
  if toString_ok v then Ok tt else Throw TypeError.

(** ** Array methods with a callback that may throw *)

Section ArrayMethods.
Context {A : Type}.
Variable p : A -> result bool.

(** [l.some(p)] *)
Fixpoint some (l : list A) : result bool :=
  match l with
  | [] => Ok false
  | x :: t => b ← p x; if b : bool then Ok true else some t
  end.

(** [l.find(p)]; [None] is [undefined]. *)
Fixpoint find (l : list A) : result (option A) :=
  match l with
  | [] => Ok None
  | x :: t => b ← p x; if b : bool then Ok (Some x) else find t
  end.

(** [l.findIndex(p)]; [None] is [-1]. *)
Fixpoint findIndex (l : list A) : result (option nat) :=
  match l with
  | [] => Ok None
  | x :: t => b ← p x; if b : bool then Ok (Some O) else (i ← findIndex t; Ok (option_map S i))
  end.

(** [l.filter(p)] *)
Fixpoint filter_ (l : list A) : result (list A) :=
  match l with
  | [] => Ok []
  | x :: t => b ← p x; r ← filter_ t; Ok (if b : bool then x :: r else r)
  end.

End ArrayMethods.

(** [l.forEach(f)] *)
Fixpoint forEach {A : Type} (f : A -> result unit) (l : list A) : result unit :=
  match l with
  | [] => Ok tt
  | x :: t => f x;; forEach f t
  end.

(** ** Page state *)

(** The object [{ name, sid, email, contact }] the submit handler builds, and
    the four input values it reads. *)
Record fields : Type := Fields {
  f_name : jsstring;
  f_sid : jsstring;
  f_email : jsstring;
  f_contact : jsstring
}.

(** [{ id, ...data }] *)
Definition student (id : jsstring) (data : fields) : value :=
  VObj [ (lit "id", VStr id);
         (lit "name", VStr (f_name data));
         (lit "sid", VStr (f_sid data));
         (lit "email", VStr (f_email data));
         (lit "contact", VStr (f_contact data)) ].

(** The argument of [showErrors]: an object that may lack any of the keys. *)
Record errors : Type := Errors {
  e_name : option jsstring;
  e_sid : option jsstring;
  e_email : option jsstring;
  e_contact : option jsstring
}.

(** The text of the elements [#err-name], [#err-sid], [#err-email] and
    [#err-contact]. *)
Record shown : Type := Shown {
  errName : jsstring;
  errSid : jsstring;
  errEmail : jsstring;
  errContact : jsstring
}.

(** What the storage slot [student_registration_v1] holds: text left by an
    earlier session, or [JSON.stringify(l)] for a roster [l] that
    [saveToStorage] wrote. *)
Inductive stored : Type :=
  | Text (raw : jsstring)
  | Serialized (l : list value).

(** Effects on the page and the platform, in the order they happen. *)
Inductive effect : Type :=
  | PreventDefault
  | SetItem (l : list value)                (* localStorage.setItem(KEY, JSON.stringify(l)) *)
  | Render (rows : list value) (scroll : bool) (* a complete pass of renderStudents *)
  | RenderAborted                           (* a pass that threw: body cleared, no listener attached *)
  | ConsoleError
  | FormReset
  | SetInput (k : key) (v : value)          (* input.value = v *)
  | ScrollTop.

Record state : Type := State {
  students : list value;
  editingId : option jsstring;
  slot : option stored;
  errs : shown;
  saveBtn : jsstring;
  log : list effect
}.

Definition set_students (l : list value) (st : state) : state :=
  State l (editingId st) (slot st) (errs st) (saveBtn st) (log st).
Definition set_editingId (e : option jsstring) (st : state) : state :=
  State (students st) e (slot st) (errs st) (saveBtn st) (log st).
Definition set_slot (c : option stored) (st : state) : state :=
  State (students st) (editingId st) c (errs st) (saveBtn st) (log st).
Definition set_errs (e : shown) (st : state) : state :=
  State (students st) (editingId st) (slot st) e (saveBtn st) (log st).
Definition set_saveBtn (t : jsstring) (st : state) : state :=
  State (students st) (editingId st) (slot st) (errs st) t (log st).
Definition add_log (e : effect) (st : state) : state :=
  State (students st) (editingId st) (slot st) (errs st) (saveBtn st) (log st ++ [e]).

(** ** Handlers: state and exceptions *)

Definition M (A : Type) : Type := state -> result A * state.

#[global] Instance M_ret : MRet M := fun A a st => (Ok a, st).
#[global] Instance M_bind : MBind M := fun A B f m st =>
  match m st with
  | (Ok a, st') => f a st'
  | (Throw e, st') => (Throw e, st')
  end.

Definition lift {A : Type} (r : result A) : M A := fun st => (r, st).
Definition gets {A : Type} (f : state -> A) : M A := fun st => (Ok (f st), st).
Definition modify (f : state -> state) : M unit := fun st => (Ok tt, f st).
Definition emit (e : effect) : M unit := modify (add_log e).

(** [try { body } catch (e) { handler }] *)
Definition try_catch {A : Type} (body : M A) (handler : exn -> M A) : M A := fun st =>
  match body st with
  | (Ok a, st') => (Ok a, st')
  | (Throw e, st') => handler e st'
  end.

(** ** showErrors and clearForm (app.js 67-80) *)

(** [x || ''] *)
Definition or_empty (x : option jsstring) : jsstring :=
  match x with
  | Some s => if str_falsy s then [] else s
  | None => []
  end.

Definition showErrors (e : errors) : M unit :=
  modify (set_errs (Shown (or_empty (e_name e)) (or_empty (e_sid e))
                          (or_empty (e_email e)) (or_empty (e_contact e)))).

Definition clearForm : M unit :=
  emit FormReset;;
  showErrors (Errors None None None None);;
  modify (set_editingId None);;
  modify (set_saveBtn (lit "Save")).

(** ** Persistence (app.js 83-97) *)

Section Persistence.
(** [JSON.parse] and [JSON.stringify] of the platform; a SyntaxError of the
    former is [Throw SyntaxError]. *)
Variable JSON_parse : jsstring -> result value.
Variable JSON_stringify : list value -> jsstring.

(** [localStorage.getItem(STORAGE_KEY)]; [None] is [null]. *)
Definition getItem (st : state) : option jsstring :=
  match slot st with
  | None => None
  | Some (Text raw) => Some raw
  | Some (Serialized l) => Some (JSON_stringify l)
  end.

Definition loadFromStorage : M (list value) :=
  try_catch
    (raw ← gets getItem;
     match raw with
     | None => mret []
     | Some raw =>
         if str_falsy raw then mret []
         else
           parsed ← lift (JSON_parse raw);
           match parsed with
           | VArr elems => mret elems
           | _ => mret []
           end
     end)
    (fun _ => emit ConsoleError;; mret []).

End Persistence.

Definition saveToStorage (l : list value) : M unit :=
  modify (set_slot (Some (Serialized l)));;
  emit (SetItem l).

(** ** renderStudents (app.js 100-157)

    The markup itself is outside the model. A pass reads the five properties
    of every element and turns them into text, which throws on an element
    that is [null] or holds a value ToString rejects; a pass that completes
    is recorded with the roster it projected and with whether the table
    scrolls (more than five rows). *)

(** [escapeHtml(str = '')]: whether the call completes. *)
Definition escapeHtml (v : value) : result unit :=
  match v with
  | VUndef => Ok tt
  | _ => ToString v
  end.

(** [s.replace(/c/g, r)] for a pattern that is the single character [c] and
    a replacement [r] without [$]. *)
Fixpoint replaceAll (c : code_unit) (r : jsstring) (s : jsstring) : jsstring :=
  match s with
  | [] => []
  | x :: t => (if cu_eqb x c then r else [x]) ++ replaceAll c r t
  end.

(** The five replacements of [escapeHtml], in the order the script chains
    them: ampersand, less-than, greater-than, double quote, single quote. *)
Definition escaped (s : jsstring) : jsstring :=
  replaceAll 39 (lit "&#039;")
    (replaceAll 34 (lit "&quot;")
       (replaceAll 62 (lit "&gt;")
          (replaceAll 60 (lit "&lt;")
             (replaceAll 38 (lit "&amp;") s)))).

Section Text.
(** [Number.prototype.toString] of the platform. *)
Variable Number_toString : spec_float -> jsstring.

(** [String(v)]: the text, where [ToString] above only says whether there is
    one. An array joins its elements with commas. *)
Fixpoint String_ (v : value) : result jsstring :=
  match v with
  | VUndef => Ok (lit "undefined")
  | VNull => Ok (lit "null")
  | VBool b => Ok (if b then lit "true" else lit "false")
  | VNum x => Ok (Number_toString x)
  | VStr s => Ok s
  | VArr elems =>
      (fix join (l : list value) : result jsstring :=
         match l with
         | [] => Ok []
         | e :: t =>
             a ← match e with VUndef | VNull => Ok [] | _ => String_ e end;
             match t with
             | [] => Ok a
             | _ :: _ => b ← join t; Ok (a ++ 44 :: b)
             end
         end) elems
  | VObj props =>
      if bool_decide (is_Some (own props (lit "toString"))) then Throw TypeError
      else Ok (lit "[object Object]")
  end.

(** [escapeHtml(str = '')]: the text it returns. The default applies to
    [undefined] only. *)
Definition escapeHtml_text (v : value) : result jsstring :=
  match v with
  | VUndef => Ok (escaped [])
  | _ => s ← String_ v; Ok (escaped s)
  end.

End Text.

Definition render_row (s : value) : result unit :=
  (n ← get s Kname; escapeHtml n);;
  (n ← get s Ksid; escapeHtml n);;
  (n ← get s Kemail; escapeHtml n);;
  (n ← get s Kcontact; escapeHtml n);;
  (i ← get s Kid; ToString i);;
  (i ← get s Kid; ToString i).

Definition renderStudents : M unit :=
  l ← gets students;
  match forEach render_row l with
  | Ok _ => emit (Render l (5 <? length l)%nat)
  | Throw e => emit RenderAborted;; lift (Throw e)
  end.

(** ** CRUD (app.js 160-193) *)

Definition digit36 (d : N) : code_unit := if d <? 10 then 48 + d else 87 + d.

Fixpoint digits36 (fuel : nat) (n : N) (acc : jsstring) : jsstring :=
  match fuel with
  | O => acc
  | S fuel' =>
      let acc' := digit36 (n mod 36) :: acc in
      if n / 36 =? 0 then acc' else digits36 fuel' (n / 36) acc'
  end.

(** [t.toString(36)] for an integer [t]. *)
Definition toString36 (t : Z) : jsstring :=
  match t with
  | Z0 => lit "0"
  | Zpos p => digits36 (N.size_nat (Npos p)) (Npos p) []
  | Zneg p => 45 :: digits36 (N.size_nat (Npos p)) (Npos p) []
  end.

(** [Date.now().toString(36) + Math.random().toString(36).slice(2,7)], where
    [now] is the clock's reading and [rnd] the text
    [Math.random().toString(36)]. *)
Definition new_id (now : Z) (rnd : jsstring) : jsstring :=
  toString36 now ++ slice 2 7 rnd.

Definition addStudent (data : fields) (now : Z) (rnd : jsstring) : M unit :=
  let id := new_id now rnd in
  modify (fun st => set_students (students st ++ [student id data]) st);;
  l ← gets students;
  saveToStorage l;;
  renderStudents.

(** [s => s.id === id] *)
Definition id_is (id : jsstring) (s : value) : result bool :=
  v ← get s Kid; mret (strict_eq_str v id).

(** [input.value = v]: the setter writes [null] as the empty string and any
    other value through ToString. *)
Definition setInput (k : key) (v : value) : M unit :=
  match v with
  | VNull => mret tt
  | _ => lift (ToString v)
  end;;
  emit (SetInput k v).

Definition startEdit (id : jsstring) : M unit :=
  l ← gets students;
  found ← lift (find (id_is id) l);
  match found with
  | None => mret tt
  | Some s =>
      if negb (truthy s) then mret tt
      else
        modify (set_editingId (Some id));;
        (v ← lift (get s Kname); setInput Kname v);;
        (v ← lift (get s Ksid); setInput Ksid v);;
        (v ← lift (get s Kemail); setInput Kemail v);;
        (v ← lift (get s Kcontact); setInput Kcontact v);;
        modify (set_saveBtn (lit "Update"));;
        emit ScrollTop
  end.

Definition updateStudent (id : jsstring) (newData : fields) : M unit :=
  l ← gets students;
  idx ← lift (findIndex (id_is id) l);
  match idx with
  | None => mret tt
  | Some i =>
      modify (set_students (<[i := student id newData]> l));;
      l' ← gets students;
      saveToStorage l';;
      renderStudents
  end.

(** [s => s.id !== id] *)
Definition id_is_not (id : jsstring) (s : value) : result bool :=
  b ← id_is id s; mret (negb b).

(** [confirmed] is what the user answers to [confirm(...)]. *)
Definition deleteStudent (id : jsstring) (confirmed : bool) : M unit :=
  if negb confirmed then mret tt
  else
    l ← gets students;
    kept ← lift (filter_ (id_is_not id) l);
    modify (set_students kept);;
    l' ← gets students;
    saveToStorage l';;
    renderStudents.

(** ** The submit handler (app.js 196-235) *)

Definition validate (name sid email contact : jsstring) : errors :=
  Errors (Some (validateName name)) (Some (validateSID sid))
         (Some (validateEmail email)) (Some (validateContact contact)).

(** [errors.name || errors.sid || errors.email || errors.contact] as a
    condition. *)
Definition any_error (e : errors) : bool :=
  negb (str_falsy (or_empty (e_name e)))
  || negb (str_falsy (or_empty (e_sid e)))
  || negb (str_falsy (or_empty (e_email e)))
  || negb (str_falsy (or_empty (e_contact e))).

(** [s => s.sid === sid && s.id !== editingId] *)
Definition is_duplicate (sid : jsstring) (e : option jsstring) (s : value) : result bool :=
  a ← get s Ksid;
  if strict_eq_str a sid then (b ← get s Kid; mret (negb (strict_eq_edit b e)))
  else mret false.

Definition duplicate_error : errors :=
  Errors None (Some (lit "This Student ID already exists")) None None.

(** [form] holds the values of the four inputs when the form is submitted;
    [now] and [rnd] are what the clock and the random generator would answer
    if [addStudent] runs. *)
Definition onSubmit (form : fields) (now : Z) (rnd : jsstring) : M unit :=
  emit PreventDefault;;
  let name := trim (f_name form) in
  let sid := trim (f_sid form) in
  let email := trim (f_email form) in
  let contact := trim (f_contact form) in
  let errors := validate name sid email contact in
  if any_error errors then showErrors errors
  else
    e ← gets editingId;
    l ← gets students;
    duplicate ← lift (some (is_duplicate sid e) l);
    if duplicate : bool then showErrors duplicate_error
    else
      match e with
      | Some id =>
          if str_falsy id then addStudent (Fields name sid email contact) now rnd;; clearForm
          else updateStudent id (Fields name sid email contact);; clearForm
      | None => addStudent (Fields name sid email contact) now rnd;; clearForm
      end.

(** ** Init (app.js 261-264) and the page as a transition system *)

Definition init (JSON_parse : jsstring -> result value)
    (JSON_stringify : list value -> jsstring) : M unit :=
  l ← loadFromStorage JSON_parse JSON_stringify;
  modify (set_students l);;
  renderStudents.

(** The page before [init] runs: the script's own bindings (lines 37-38) and
    an empty log. What the slot holds is the browser's, and the texts of the
    error elements and of the button are the markup's. *)
Definition fresh_page (c : option stored) (texts : shown) (label : jsstring) : state :=
  State [] None c texts label [].

Inductive event : Type :=
  | Submit (form : fields) (now : Z) (rnd : jsstring)
  | EditClick (id : jsstring)
  | DeleteClick (id : jsstring) (confirmed : bool)
  | ClearClick.

Definition handle (ev : event) : M unit :=
  match ev with
  | Submit form now rnd => onSubmit form now rnd
  | EditClick id => startEdit id
  | DeleteClick id confirmed => deleteStudent id confirmed
  | ClearClick => clearForm
  end.

(** The state a handler leaves, whether it returned or threw. *)
Definition step (st : state) (ev : event) : state := snd (handle ev st).

Definition run (evs : list event) (st : state) : state := fold_left step evs st.

(** * Vocabulary of the statements *)

(** ** Strings and patterns *)

(** A string that is empty or starts with a character [trim] keeps. *)
Definition starts_clean (s : jsstring) : Prop :=
  match s with
  | [] => True
  | c :: _ => is_space c = false
  end.

(** The language of a pattern: what [test] has to decide. *)
Inductive matches : regex -> jsstring -> Prop :=
  | m_eps : matches ReEps []
  | m_class p c : p c = true -> matches (ReClass p) [c]
  | m_cat r s u v : matches r u -> matches s v -> matches (ReCat r s) (u ++ v)
  | m_alt_l r s u : matches r u -> matches (ReAlt r s) u
  | m_alt_r r s u : matches s u -> matches (ReAlt r s) u
  | m_star_nil r : matches (ReStar r) []
  | m_star_more r u v : matches r u -> matches (ReStar r) v -> matches (ReStar r) (u ++ v).

(** Every character of the string is in the class, and there is one. *)
Definition all_in (p : code_unit -> bool) (s : jsstring) : Prop :=
  s <> [] /\ Forall (fun c => p c = true) s.

(** The number a base-36 text denotes, for checking [toString36]. *)
Definition undigit36 (c : code_unit) : N := if c <? 58 then c - 48 else c - 87.

Fixpoint number36 (s : jsstring) (acc : N) : N :=
  match s with
  | [] => acc
  | c :: t => number36 t (acc * 36 + undigit36 c)
  end.

(** ** Forms *)

(** The messages the handler computes for a form. *)
Definition messages (form : fields) : shown :=
  Shown (validateName (f_name form)) (validateSID (f_sid form))
        (validateEmail (f_email form)) (validateContact (f_contact form)).

Definition no_message (m : shown) : Prop :=
  errName m = [] /\ errSid m = [] /\ errEmail m = [] /\ errContact m = [].

Definition form_errors (form : fields) : errors :=
  validate (trim (f_name form)) (trim (f_sid form)) (trim (f_email form)) (trim (f_contact form)).

(** The object the handler passes to [addStudent] and [updateStudent]. *)
Definition data_of (form : fields) : fields :=
  Fields (trim (f_name form)) (trim (f_sid form)) (trim (f_email form)) (trim (f_contact form)).

(** ** Records and rosters *)

(** The string a property read yields, when it yields one. *)
Definition str_of (r : result value) : option jsstring :=
  match r with
  | Ok (VStr s) => Some s
  | _ => None
  end.

Definition id_of (s : value) : option jsstring := str_of (get s Kid).
Definition sid_of (s : value) : option jsstring := str_of (get s Ksid).

(** An element none of whose properties throws when read: anything but
    [null] and [undefined]. *)
Definition readable (s : value) : Prop :=
  match s with
  | VUndef | VNull => False
  | _ => True
  end.

(** A pass of [renderStudents] over the roster completes. *)
Definition renders (l : list value) : Prop := forEach render_row l = Ok tt.

(** No two elements carry the same string as [sid], respectively as [id]. *)
Definition sid_unique (l : list value) : Prop := NoDup (omap sid_of l).
Definition id_unique (l : list value) : Prop := NoDup (omap id_of l).

(** The element's [id] is neither [null] nor the empty string. *)
Definition id_usable (s : value) : Prop :=
  get s Kid <> Ok VNull /\ get s Kid <> Ok (VStr []).

(** The element is the one the edit id names: [s.id === editingId]. With no
    edit in progress the edit id is [null], which names no record whose id is
    a string. *)
Definition edited (e : option jsstring) (s : value) : Prop :=
  match e with
  | None => get s Kid = Ok VNull
  | Some i => id_of s = Some i
  end.

(** The condition under which the submit handler keeps sids apart. *)
Definition roster_ok (l : list value) : Prop :=
  sid_unique l /\ id_unique l /\ Forall id_usable l.

(** ** Callbacks over an array *)

(** The callback [p] is false on every element; [x] is the first element it
    accepts; it accepts [x] (an element on which it throws is of no account,
    since [filter_] throws with it). *)
Definition rejects {A : Type} (p : A -> result bool) (l : list A) : Prop :=
  Forall (fun x => p x = Ok false) l.

Definition first_hit {A : Type} (p : A -> result bool)
    (l pre : list A) (x : A) (post : list A) : Prop :=
  l = pre ++ x :: post /\ rejects p pre /\ p x = Ok true.

Definition accepted {A : Type} (p : A -> result bool) (x : A) : Prop := p x = Ok true.

#[global] Instance accepted_dec {A : Type} (p : A -> result bool) (x : A) :
  Decision (accepted p x).
Proof.
  unfold accepted. destruct (p x) as [[|]|e]; [left; reflexivity | right; discriminate..].
Defined.

(** ** States and their changes *)

(** The state once [l] has replaced the roster and has been written to the
    slot; after a complete render pass; after [clearForm]. *)
Definition committed (l : list value) (st : state) : state :=
  add_log (SetItem l) (set_slot (Some (Serialized l)) (set_students l st)).

Definition rendered (st : state) : state :=
  add_log (Render (students st) (5 <? length (students st))%nat) st.

Definition cleared (st : state) : state :=
  set_saveBtn (lit "Save")
    (set_editingId None (set_errs (Shown [] [] [] []) (add_log FormReset st))).

(** A computation that leaves the roster as it found it, however it ends. *)
Definition keeps_students {A : Type} (m : M A) : Prop :=
  forall st, students (snd (m st)) = students st.

(** How one event can change the roster. *)
Inductive roster_change (st : state) : event -> list value -> Prop :=
  | rc_same ev :
      roster_change st ev (students st)
  | rc_added form now rnd :
      rejects (is_duplicate (trim (f_sid form)) (editingId st)) (students st) ->
      editingId st = None \/ editingId st = Some [] ->
      roster_change st (Submit form now rnd)
        (students st ++ [student (new_id now rnd) (data_of form)])
  | rc_updated form now rnd id pre s post :
      editingId st = Some id -> id <> [] ->
      rejects (is_duplicate (trim (f_sid form)) (Some id)) (students st) ->
      first_hit (id_is id) (students st) pre s post ->
      roster_change st (Submit form now rnd) (pre ++ student id (data_of form) :: post)
  | rc_removed id kept :
      kept `sublist_of` students st ->
      roster_change st (DeleteClick id true) kept.

(** The id [addStudent] would draw on this event is not in the roster; and so
    for every event of a sequence, each in the state it meets. *)
Definition fresh_for (st : state) (ev : event) : Prop :=
  match ev with
  | Submit _ now rnd => new_id now rnd ∉ omap id_of (students st)
  | _ => True
  end.

Fixpoint fresh_ids (evs : list event) (st : state) : Prop :=
  match evs with
  | [] => True
  | ev :: rest => fresh_for st ev /\ fresh_ids rest (step st ev)
  end.

(** The events lead from a roster without a shared sid to one with a shared
    sid. *)
Definition breaks_sid_unique (evs : list event) (st : state) : Prop :=
  sid_unique (students st) /\ ~ sid_unique (students (run evs st)).

(** ** Which pages carry Edit and Delete buttons

    A render pass clears the table body first and attaches the buttons'
    listeners last, so the buttons of the page are those of its last pass,
    and there are none if that pass aborted. *)

Definition is_pass (e : effect) : bool :=
  match e with
  | Render _ _ | RenderAborted => true
  | _ => false
  end.

Definition last_pass (lg : list effect) : option effect :=
  last (List.filter is_pass lg).

(** The page's rows have live buttons. *)
Definition live (st : state) : Prop :=
  exists l b, last_pass (log st) = Some (Render l b).

(** If the last pass completed, it projected the roster of the moment. *)
Definition shows_roster (st : state) : Prop :=
  forall l b, last_pass (log st) = Some (Render l b) -> l = students st /\ renders l.

(** Effects that are not render passes. *)
Definition quiet (es : list effect) : Prop := Forall (fun e => is_pass e = false) es.

(** A computation that keeps the roster and starts no render pass. *)
Definition calm {A : Type} (m : M A) : Prop :=
  forall st, students (snd (m st)) = students st
             /\ exists es, log (snd (m st)) = log st ++ es /\ quiet es.

(** What a handler does to roster and log: nothing but quiet effects, or one
    render pass of the new roster, preceded and followed by quiet effects. *)
Definition handler_shape (st st' : state) : Prop :=
  (students st' = students st /\ exists es, log st' = log st ++ es /\ quiet es)
  \/ (exists es1 p es2,
        log st' = log st ++ es1 ++ p :: es2 /\ quiet es2
        /\ (p = RenderAborted
            \/ (exists b, p = Render (students st') b) /\ renders (students st'))).

(** The script's bindings before [init] runs (lines 37-38), nothing having
    happened yet. *)
Definition booted (st : state) : Prop :=
  students st = [] /\ editingId st = None /\ log st = [].

(** A page on which a delete request can arise: it was reached from a page
    load of the script, and its rows carry live buttons. *)
Definition delete_request (st : state) : Prop :=
  exists (JSON_parse : jsstring -> result value) (JSON_stringify : list value -> jsstring)
         (st0 : state) (evs : list event),
    booted st0 /\ st = run evs (snd (init JSON_parse JSON_stringify st0)) /\ live st.

(** ** Sample data *)

(** Pages whose markup shows no error text and labels the button Save: one
    with an empty slot, one whose slot holds the text [raw]. *)
Definition blank_page : state := fresh_page None (Shown [] [] [] []) (lit "Save").
Definition page_with (raw : jsstring) : state :=
  fresh_page (Some (Text raw)) (Shown [] [] [] []) (lit "Save").

Definition ann : fields :=
  Fields (lit "Ann Lee") (lit "1001") (lit "a@b.com") (lit "1234567890").
Definition bob : fields :=
  Fields (lit "Bob Ray") (lit "1002") (lit "bob@c.org") (lit "0987654321").

(** Ann's form with Bob's sid; Bob's form with Ann's sid, typed with blanks
    around it; Ann's form with a new name and a new sid. *)
Definition ann_as_bob : fields :=
  Fields (lit "Ann Lee") (lit "1002") (lit "a@b.com") (lit "1234567890").
Definition bob_as_ann : fields :=
  Fields (lit "Bob Ray") (lit " 1001 ") (lit "bob@c.org") (lit "0987654321").
Definition ann_new_sid : fields :=
  Fields (lit "Ann M Lee") (lit "1003") (lit "a@b.com") (lit "1234567890").

(** A reading of the clock and a text of [Math.random().toString(36)]. *)
Definition t0 : Z := 1700000000000.
Definition r0 : jsstring := lit "0.4fzyo82mvyr".

(** Two adds that draw the same id (same millisecond, same random digits),
    an edit of that id, and a submit that gives the edited record the other
    record's sid. *)
Definition colliding_adds : list event :=
  [ Submit ann t0 r0; Submit bob t0 r0; EditClick (new_id t0 r0); Submit ann_as_bob t0 r0 ].

(** Two adds with distinct ids, an edit that moves the first record to a new
    sid, and a delete of the second. *)
Definition distinct_adds : list event :=
  [ Submit ann t0 r0; Submit bob (t0 + 1) r0; EditClick (new_id t0 r0);
    Submit ann_new_sid (t0 + 2) r0; DeleteClick (new_id (t0 + 1) r0) true ].

Definition two_records : list value :=
  [ student (lit "a") ann; student (lit "b") bob ].

Definition two_records_page : state :=
  State two_records None None (Shown [] [] [] []) (lit "Save") [].

(** Rosters as the slot can hold them, each without a shared sid: one id
    twice; one record whose id is [null]; one record whose id is the empty
    string. *)
Definition shared_id_roster : list value :=
  [ student (lit "a") ann; student (lit "a") bob ].

Definition shared_id_page : state :=
  State shared_id_roster None None (Shown [] [] [] []) (lit "Save") [].

Definition null_id_page : state :=
  State [ VObj [ (lit "id", VNull); (lit "name", VStr (lit "Ann Lee"));
                 (lit "sid", VStr (lit "1001")); (lit "email", VStr (lit "a@b.com"));
                 (lit "contact", VStr (lit "1234567890")) ] ]
        None None (Shown [] [] [] []) (lit "Save") [].

Definition empty_id_page : state :=
  State [ student [] ann ] None None (Shown [] [] [] []) (lit "Save") [].

(** A stored text that is a JSON array of things that are not student
    records, [[null,{"sid":"1001"},{"id":true,"sid":"1001"}]], and the value
    [JSON.parse] returns for it. *)
Definition dq : jsstring := [34].

Definition odd_text : jsstring :=
  lit "[null,{" ++ dq ++ lit "sid" ++ dq ++ lit ":" ++ dq ++ lit "1001" ++ dq
  ++ lit "},{" ++ dq ++ lit "id" ++ dq ++ lit ":true," ++ dq ++ lit "sid" ++ dq ++ lit ":"
  ++ dq ++ lit "1001" ++ dq ++ lit "}]".

Definition odd_roster : list value :=
  [ VNull;
    VObj [(lit "sid", VStr (lit "1001"))];
    VObj [(lit "id", VBool true); (lit "sid", VStr (lit "1001"))] ].

(** A parser for the examples: it answers as [JSON.parse] does on [odd_text],
    on the text [{}] and on texts that are not JSON, and knows no other. No
    example serialises a roster. *)
Definition sample_parse (raw : jsstring) : result value :=
  if str_eqb raw odd_text then Ok (VArr odd_roster)
  else if str_eqb raw (lit "{}") then Ok (VObj [])
  else Throw SyntaxError.

Definition sample_stringify (l : list value) : jsstring := lit "[]".

(** The page after Ann and Bob have been added to an empty roster, with
    distinct ids and with the same id. *)
Definition ann_bob_page : state :=
  run [Submit ann t0 r0; Submit bob (t0 + 1) r0]
      (snd (init sample_parse sample_stringify blank_page)).

Definition twins_page : state :=
  run [Submit ann t0 r0; Submit bob t0 r0]
      (snd (init sample_parse sample_stringify blank_page)).

(** ** Escaped text and ids *)

(** The five characters [escapeHtml] replaces, and the four among them that
    open or close a tag or an attribute value. *)
Definition is_special (c : code_unit) : bool :=
  (c =? 38) || (c =? 60) || (c =? 62) || (c =? 34) || (c =? 39).

Definition is_markup (c : code_unit) : bool :=
  (c =? 60) || (c =? 62) || (c =? 34) || (c =? 39).

(** What one character becomes when each is replaced once. *)
Definition entity (c : code_unit) : jsstring :=
  if c =? 38 then lit "&amp;"
  else if c =? 60 then lit "&lt;"
  else if c =? 62 then lit "&gt;"
  else if c =? 34 then lit "&quot;"
  else if c =? 39 then lit "&#039;"
  else [c].

(** A digit of base 36 as [toString(36)] writes it. *)
Definition is_base36 (c : code_unit) : bool := is_digit c || in_range 97 122 c.

(** ** Frames *)

(** A computation that leaves a component of the state as it found it,
    however it ends. *)
Definition preserves {A B : Type} (proj : state -> B) (m : M A) : Prop :=
  forall st, proj (snd (m st)) = proj st.

(** A computation that only appends to the log, and only effects that
    satisfy [P]. *)
Definition appends {A : Type} (P : effect -> Prop) (m : M A) : Prop :=
  forall st, exists es, log (snd (m st)) = log st ++ es /\ Forall P es.

(** A render pass is logged with the scroll flag its roster calls for. *)
Definition flag_ok (e : effect) : Prop :=
  match e with
  | Render l b => b = (5 <? length l)%nat
  | _ => True
  end.

(** The slot holds the roster of the moment. *)
Definition in_sync (st : state) : Prop := slot st = Some (Serialized (students st)).

(** ** Edit sessions *)

(** The value a property read yields on a readable element. *)
Definition field (s : value) (k : key) : value :=
  match get s k with
  | Ok v => v
  | Throw _ => VUndef
  end.

(** The state [startEdit] leaves when it finds the record [s]. *)
Definition editing (id : jsstring) (s : value) (st : state) : state :=
  add_log ScrollTop
    (set_saveBtn (lit "Update")
       (add_log (SetInput Kcontact (field s Kcontact))
          (add_log (SetInput Kemail (field s Kemail))
             (add_log (SetInput Ksid (field s Ksid))
                (add_log (SetInput Kname (field s Kname))
                   (set_editingId (Some id) st)))))).

(** The state a submit leaves that stored the roster [l]. *)
Definition stored_as (l : list value) (st : state) : state :=
  cleared (rendered (committed l (add_log PreventDefault st))).

(** No element of the roster carries the sid, except elements carrying the
    id [e]. *)
Definition sid_free (sid : jsstring) (e : option jsstring) (l : list value) : Prop :=
  Forall (fun s => sid_of s = Some sid -> edited e s) l.

(** ** A codec for the examples *)

(** The JSON text of a value built from strings without quotes, backslashes
    or control characters, from booleans, [null], arrays and objects. *)
Fixpoint plain_json (v : value) : jsstring :=
  match v with
  | VStr s => dq ++ s ++ dq
  | VBool true => lit "true"
  | VBool false => lit "false"
  | VArr elems =>
      lit "[" ++
      (fix items (l : list value) : jsstring :=
         match l with
         | [] => []
         | [e] => plain_json e
         | e :: t => plain_json e ++ lit "," ++ items t
         end) elems ++ lit "]"
  | VObj props =>
      lit "{" ++
      (fix members (l : list (jsstring * value)) : jsstring :=
         match l with
         | [] => []
         | [(n, e)] => dq ++ n ++ dq ++ lit ":" ++ plain_json e
         | (n, e) :: t => dq ++ n ++ dq ++ lit ":" ++ plain_json e ++ lit "," ++ members t
         end) props ++ lit "}"
  | _ => lit "null"
  end.

Definition plain_stringify (l : list value) : jsstring := plain_json (VArr l).

(** The roster holding Ann alone, and a parser that knows its text. *)
Definition ann_alone : list value := [student (new_id t0 r0) ann].

Definition ann_parse (raw : jsstring) : result value :=
  if str_eqb raw (plain_stringify ann_alone) then Ok (VArr ann_alone)
  else Throw SyntaxError.


(** ** Addresses *)

(** What the email pattern accepts: a local part, an at sign, a domain part
    holding a dot that is neither its first nor its last character; no
    whitespace and no further at sign anywhere. *)
Definition email_shape (t : jsstring) : Prop :=
  exists a b c, t = a ++ [64] ++ b ++ [46] ++ c
                /\ all_in not_space_at a /\ all_in not_space_at b /\ all_in not_space_at c.


(** * Properties *)

#[global] Arguments lit : simpl never.
#[global] Arguments or_empty : simpl never.
#[global] Arguments trim : simpl never.
#[global] Arguments validateName : simpl never.
#[global] Arguments validateSID : simpl never.
#[global] Arguments validateEmail : simpl never.
#[global] Arguments validateContact : simpl never.


(** ** Strings and trimming *)

Lemma str_eqb_eq (a b : jsstring) : str_eqb a b = true <-> a = b.
Proof.
  revert b. induction a as [|x a IH]; intros [|y b]; simpl; try (split; congruence).
  unfold cu_eqb. rewrite andb_true_iff, N.eqb_eq, IH. split.
  - intros [-> ->]. reflexivity.
  - intros [= -> ->]. split; reflexivity.
Qed.

Lemma str_eqb_refl (a : jsstring) : str_eqb a a = true.
Proof. apply str_eqb_eq. reflexivity. Qed.

Lemma str_eqb_neq (a b : jsstring) : str_eqb a b = false <-> a <> b.
Proof.
  rewrite <- str_eqb_eq. destruct (str_eqb a b); split; congruence.
Qed.

Lemma str_falsy_nil (s : jsstring) : str_falsy s = true <-> s = [].
Proof. destruct s; simpl; split; congruence. Qed.

Lemma trimStart_clean (s : jsstring) : starts_clean (trimStart s).
Proof.
  induction s as [|c s IH]; simpl; [exact I|].
  destruct (is_space c) eqn:E; [exact IH | exact E].
Qed.

Lemma trimStart_id (s : jsstring) : starts_clean s -> trimStart s = s.
Proof. destruct s as [|c s]; simpl; [reflexivity|]. intros ->. reflexivity. Qed.

(** Trimming the front of [s ++ [c]] keeps the last character when it is not
    a space. *)
Lemma trimStart_snoc (s : jsstring) (c : code_unit) :
  is_space c = false -> exists u, trimStart (s ++ [c]) = u ++ [c] /\ starts_clean (u ++ [c]).
Proof.
  intros Hc. induction s as [|x s IH]; simpl.
  - rewrite Hc. exists []. simpl. split; [reflexivity | exact Hc].
  - destruct (is_space x) eqn:E; [exact IH|].
    exists (x :: s). simpl. split; [reflexivity | exact E].
Qed.

Lemma trimEnd_clean (s : jsstring) : starts_clean s -> starts_clean (trimEnd s).
Proof.
  unfold trimEnd. destruct s as [|c s]; simpl; [intros _; exact I|].
  intros Hc. destruct (trimStart_snoc (rev s) c Hc) as (u & -> & _).
  rewrite rev_app_distr. simpl. exact Hc.
Qed.

Lemma trimEnd_idem (s : jsstring) : trimEnd (trimEnd s) = trimEnd s.
Proof.
  unfold trimEnd. rewrite rev_involutive.
  rewrite (trimStart_id (trimStart (rev s))); [reflexivity | apply trimStart_clean].
Qed.

Theorem trim_idempotent (s : jsstring) : trim (trim s) = trim s.
Proof.
  unfold trim.
  rewrite (trimStart_id (trimEnd (trimStart s))).
  - apply trimEnd_idem.
  - apply trimEnd_clean, trimStart_clean.
Qed.

(** ** Patterns: [test] decides the language *)

Lemma nullable_matches (r : regex) : nullable r = true <-> matches r [].
Proof.
  induction r as [| |p|r IHr s IHs|r IHr s IHs|r IHr]; simpl.
  - split; [discriminate | inversion 1].
  - split; [constructor | reflexivity].
  - split; [discriminate | inversion 1].
  - rewrite andb_true_iff, IHr, IHs. split.
    + intros [Hr Hs]. exact (m_cat _ _ [] [] Hr Hs).
    + inversion 1 as [| |r' s' u v Hu Hv [E1 E2] E3| | | |]. subst.
      apply app_eq_nil in E3 as [-> ->]. tauto.
  - rewrite orb_true_iff, IHr, IHs. split.
    + intros [H|H]; [apply m_alt_l | apply m_alt_r]; exact H.
    + inversion 1; subst; tauto.
  - split; [constructor | reflexivity].
Qed.

Lemma deriv_sound (r : regex) (c : code_unit) (s : jsstring) :
  matches (deriv c r) s -> matches r (c :: s).
Proof.
  revert s. induction r as [| |p|r IHr q IHq|r IHr q IHq|r IHr]; intros s; simpl.
  - inversion 1.
  - inversion 1.
  - destruct (p c) eqn:E; inversion 1; subst. constructor. exact E.
  - assert (forall w, matches (ReCat (deriv c r) q) w -> matches (ReCat r q) (c :: w)) as Hcat.
    { inversion 1 as [| |r' s' u v Hu Hv| | | |]; subst.
      exact (m_cat r q (c :: u) v (IHr _ Hu) Hv). }
    destruct (nullable r) eqn:N; [|apply Hcat].
    inversion 1 as [| | |r' s' u Hu|r' s' u Hu| |]; subst; [apply Hcat, Hu|].
    apply nullable_matches in N. exact (m_cat r q [] (c :: s) N (IHq _ Hu)).
  - inversion 1; subst; [apply m_alt_l, IHr | apply m_alt_r, IHq]; assumption.
  - inversion 1 as [| |r' s' u v Hu Hv| | | |]; subst.
    exact (m_star_more r (c :: u) v (IHr _ Hu) Hv).
Qed.

Lemma deriv_star_complete (r : regex) (c : code_unit) :
  (forall s, matches r (c :: s) -> matches (deriv c r) s) ->
  forall w, matches (ReStar r) w ->
  forall s, w = c :: s -> matches (ReCat (deriv c r) (ReStar r)) s.
Proof.
  intros IH w H. remember (ReStar r) as R eqn:ER.
  induction H as [| | | | | |r' u v Hu _ Hv IHv]; try discriminate.
  injection ER as ->. intros s E. destruct u as [|x u]; simpl in E.
  - apply IHv; [reflexivity | exact E].
  - injection E as -> <-. apply m_cat; [apply IH, Hu | exact Hv].
Qed.

Lemma deriv_complete (r : regex) (c : code_unit) (s : jsstring) :
  matches r (c :: s) -> matches (deriv c r) s.
Proof.
  revert s. induction r as [| |p|r IHr q IHq|r IHr q IHq|r IHr]; intros s H; simpl.
  - inversion H.
  - inversion H.
  - inversion H as [|p' c' E| | | | |]; subst. rewrite E. constructor.
  - inversion H as [| |r' s' u v Hu Hv [E1 E2] E3| | | |]; subst.
    destruct u as [|x u]; simpl in E3.
    + subst v. apply nullable_matches in Hu. rewrite Hu. apply m_alt_r, IHq, Hv.
    + injection E3 as -> <-.
      assert (matches (ReCat (deriv c r) q) (u ++ v)) as Hc
        by (apply m_cat; [apply IHr, Hu | exact Hv]).
      destruct (nullable r); [apply m_alt_l|]; exact Hc.
  - inversion H; subst; [apply m_alt_l, IHr | apply m_alt_r, IHq]; assumption.
  - exact (deriv_star_complete r c IHr _ H s eq_refl).
Qed.

Theorem test_matches (r : regex) (s : jsstring) : test r s = true <-> matches r s.
Proof.
  revert r. induction s as [|c s IH]; intros r; simpl.
  - apply nullable_matches.
  - rewrite IH. split; [apply deriv_sound | apply deriv_complete].
Qed.

Lemma star_class (p : code_unit -> bool) (s : jsstring) :
  matches (ReStar (ReClass p)) s <-> Forall (fun c => p c = true) s.
Proof.
  split.
  - intros H. remember (ReStar (ReClass p)) as R eqn:ER.
    induction H as [| | | | | |r u v Hu _ Hv IHv]; try discriminate; [constructor|].
    injection ER as ->. inversion Hu; subst. constructor; [assumption | apply IHv; reflexivity].
  - induction 1 as [|c s Hc _ IH]; [constructor|].
    exact (m_star_more _ [c] s (m_class p c Hc) IH).
Qed.

(** [/^[class]+$/] accepts the non-empty strings over the class. *)
Lemma plus_class (p : code_unit -> bool) (s : jsstring) :
  test (RePlus (ReClass p)) s = true <-> all_in p s.
Proof.
  rewrite test_matches. unfold RePlus, all_in. split.
  - inversion 1 as [| |r q u v Hu Hv| | | |]; subst. inversion Hu; subst.
    apply star_class in Hv. split; [discriminate | constructor; assumption].
  - intros [Hne H]. destruct H as [|c s Hc Hs]; [congruence|].
    exact (m_cat _ _ [c] s (m_class p c Hc) (proj2 (star_class p s) Hs)).
Qed.

(** What the name, sid and email validators accept. *)
Lemma validateName_accepts (name : jsstring) :
  validateName name = [] <-> all_in (fun c => is_letter c || is_space c) (trim name).
Proof.
  unfold validateName. rewrite <- plus_class. fold re_name.
  destruct (trim name) as [|c t]; simpl str_falsy; cbv iota.
  - split; [discriminate|]. intros H. apply plus_class in H as [H _]. congruence.
  - destruct (test re_name (c :: t)); simpl; split; intros; (reflexivity || discriminate).
Qed.

Lemma validateSID_accepts (sid : jsstring) :
  validateSID sid = [] <-> all_in is_digit (trim sid).
Proof.
  unfold validateSID. rewrite <- plus_class. fold re_digits.
  destruct (trim sid) as [|c t]; simpl str_falsy; cbv iota.
  - split; [discriminate|]. intros H. apply plus_class in H as [H _]. congruence.
  - destruct (test re_digits (c :: t)); simpl; split; intros; (reflexivity || discriminate).
Qed.

Lemma validateEmail_accepts (email : jsstring) :
  validateEmail email = [] <->
  exists a b c, trim email = a ++ [64] ++ b ++ [46] ++ c
                /\ all_in not_space_at a /\ all_in not_space_at b /\ all_in not_space_at c.
Proof.
  assert (forall s, matches re_email s <->
            exists a b c, s = a ++ [64] ++ b ++ [46] ++ c
                          /\ all_in not_space_at a /\ all_in not_space_at b
                          /\ all_in not_space_at c) as Hre.
  { intros s. unfold re_email, ReChar. split.
    - inversion 1 as [| |? ? a v1 Ha H1| | | |]; subst.
      inversion H1 as [| |? ? at1 v2 Hat H2| | | |]; subst.
      inversion H2 as [| |? ? b v3 Hb H3| | | |]; subst.
      inversion H3 as [| |? ? dot c Hdot Hc| | | |]; subst.
      inversion Hat as [|? x Hx| | | | |]; subst. apply N.eqb_eq in Hx. subst x.
      inversion Hdot as [|? y Hy| | | | |]; subst. apply N.eqb_eq in Hy. subst y.
      exists a, b, c. split; [reflexivity|].
      rewrite <- !plus_class, !test_matches. auto.
    - intros (a & b & c & -> & Ha & Hb & Hc).
      rewrite <- plus_class, test_matches in Ha, Hb, Hc.
      repeat (apply m_cat; try assumption); apply m_class, N.eqb_refl. }
  unfold validateEmail. rewrite <- Hre, <- test_matches.
  destruct (trim email) as [|c t]; simpl str_falsy; cbv iota.
  - split; [discriminate|]. intros H. apply test_matches, Hre in H as (a & b & c' & E & [Ha _] & _).
    destruct a; [destruct (Ha eq_refl) | discriminate].
  - destruct (test re_email (c :: t)); simpl; split; intros; (reflexivity || discriminate).
Qed.

(** ** Validators *)

Lemma validateName_trim (s : jsstring) : validateName (trim s) = validateName s.
Proof. unfold validateName. rewrite trim_idempotent. reflexivity. Qed.

Lemma validateSID_trim (s : jsstring) : validateSID (trim s) = validateSID s.
Proof. unfold validateSID. rewrite trim_idempotent. reflexivity. Qed.

Lemma validateEmail_trim (s : jsstring) : validateEmail (trim s) = validateEmail s.
Proof. unfold validateEmail. rewrite trim_idempotent. reflexivity. Qed.

Lemma validateContact_trim (s : jsstring) : validateContact (trim s) = validateContact s.
Proof. unfold validateContact. rewrite trim_idempotent. reflexivity. Qed.

Lemma or_empty_id (s : jsstring) : or_empty (Some s) = s.
Proof. destruct s; reflexivity. Qed.

Lemma any_error_false (form : fields) :
  any_error (form_errors form) = false <-> no_message (messages form).
Proof.
  unfold any_error, form_errors, validate, no_message, messages. simpl.
  rewrite !or_empty_id, validateName_trim, validateSID_trim, validateEmail_trim,
    validateContact_trim.
  rewrite !orb_false_iff, !negb_false_iff, !str_falsy_nil. tauto.
Qed.

Lemma any_error_true (form : fields) :
  any_error (form_errors form) = true <-> ~ no_message (messages form).
Proof.
  rewrite <- any_error_false. destruct (any_error (form_errors form)); split; congruence.
Qed.

(** A form with a validation error: the handler shows the four messages and
    returns; nothing else changes. *)
Lemma onSubmit_invalid (form : fields) (now : Z) (rnd : jsstring) (st : state) :
  ~ no_message (messages form) ->
  onSubmit form now rnd st = (Ok tt, set_errs (messages form) (add_log PreventDefault st)).
Proof.
  intros H. apply any_error_true in H.
  unfold onSubmit. fold (form_errors form).
  unfold mbind, M_bind. simpl. rewrite H.
  unfold showErrors, modify, form_errors, validate. simpl.
  rewrite !or_empty_id, validateName_trim, validateSID_trim, validateEmail_trim,
    validateContact_trim.
  reflexivity.
Qed.

Lemma not_no_message (form : fields) :
  validateName (f_name form) <> [] \/ validateSID (f_sid form) <> [] \/
  validateEmail (f_email form) <> [] \/ validateContact (f_contact form) <> [] ->
  ~ no_message (messages form).
Proof. unfold no_message, messages. simpl. tauto. Qed.

(** C2. The contact validator bound at submit time is the second declaration:
    it answers "Contact number is required" when the trimmed input is empty,
    "Contact number must be exactly 10 digits" when the trimmed length is not
    10, and the empty string otherwise, whatever characters the ten are; and
    a submit whose contact it rejects displays its message. *)
Theorem validateContact_length_only (contact : jsstring) :
  (trim contact = [] ->
     validateContact contact = lit "Contact number is required") /\
  (trim contact <> [] -> length (trim contact) <> 10%nat ->
     validateContact contact = lit "Contact number must be exactly 10 digits") /\
  (length (trim contact) = 10%nat -> validateContact contact = []) /\
  (forall name sid email now rnd st,
     validateContact contact <> [] ->
     errContact (errs (step st (Submit (Fields name sid email contact) now rnd)))
     = validateContact contact).
Proof.
  unfold validateContact. repeat split.
  - intros ->. reflexivity.
  - intros Hne Hlen. destruct (trim contact) as [|c t] eqn:E; [congruence|]. simpl.
    apply Nat.eqb_neq in Hlen. simpl in Hlen. rewrite Hlen. reflexivity.
  - intros Hlen. destruct (trim contact) as [|c t] eqn:E; [discriminate|]. simpl.
    apply Nat.eqb_eq in Hlen. simpl in Hlen. rewrite Hlen. reflexivity.
  - intros name sid email now rnd st H.
    unfold step, handle. rewrite onSubmit_invalid; [reflexivity|].
    apply not_no_message. simpl. tauto.
Qed.

Lemma validateContact_length_only_witness :
  validateContact (lit "   ") = lit "Contact number is required"
  /\ validateContact (lit "12345") = lit "Contact number must be exactly 10 digits"
  /\ validateContact (lit " abcdefghij ") = []
  /\ validateContact_shadowed (lit " abcdefghij ") = lit "Contact must be numeric"
  /\ errContact (errs (step blank_page
       (Submit (Fields (lit "Ann Lee") (lit "1001") (lit "a@b.com") (lit "12345")) 0 [])))
     = validateContact (lit "12345").
Proof.
  split; [|split; [|split; [|split]]].
  - apply (proj1 (validateContact_length_only (lit "   "))). reflexivity.
  - apply (proj1 (proj2 (validateContact_length_only (lit "12345")))).
    + discriminate.
    + simpl. lia.
  - apply (proj1 (proj2 (proj2 (validateContact_length_only (lit " abcdefghij "))))).
    reflexivity.
  - reflexivity.
  - apply (proj2 (proj2 (proj2 (validateContact_length_only (lit "12345"))))).
    discriminate.
Defined.

(** ** Rejected submits *)

(** C4. When a validator returns a message for the submitted form, the handler
    shows the four messages together and returns: the roster, the storage
    slot, the edit target and the button label are untouched and nothing is
    written. Submitting the same form again shows the same messages and
    leaves the roster as it was. *)
Theorem invalid_submit_changes_nothing
    (form : fields) (now now' : Z) (rnd rnd' : jsstring) (st : state) :
  validateName (f_name form) <> [] \/ validateSID (f_sid form) <> [] \/
  validateEmail (f_email form) <> [] \/ validateContact (f_contact form) <> [] ->
  let st1 := step st (Submit form now rnd) in
  let st2 := step st1 (Submit form now' rnd') in
  onSubmit form now rnd st = (Ok tt, st1)
  /\ errs st1 = messages form
  /\ students st1 = students st
  /\ slot st1 = slot st
  /\ log st1 = log st ++ [PreventDefault]
  /\ editingId st1 = editingId st
  /\ saveBtn st1 = saveBtn st
  /\ errs st2 = errs st1
  /\ students st2 = students st
  /\ length (students st2) = length (students st).
Proof.
  intros H. apply not_no_message in H.
  unfold step, handle. rewrite !(onSubmit_invalid _ _ _ _ H). simpl.
  repeat split; reflexivity.
Qed.

Lemma invalid_submit_changes_nothing_witness :
  let form := Fields (lit "Ann123") (lit " ") (lit "a@b") (lit "12345") in
  let st1 := step blank_page (Submit form 0 []) in
  let st2 := step st1 (Submit form 1 []) in
  errs st1 = Shown (lit "Name must have letters and spaces only")
                   (lit "Student ID is required")
                   (lit "Enter a valid email")
                   (lit "Contact number must be exactly 10 digits")
  /\ students st1 = [] /\ slot st1 = None /\ log st1 = [PreventDefault]
  /\ errs st2 = errs st1 /\ students st2 = [].
Proof.
  pose proof (invalid_submit_changes_nothing
                (Fields (lit "Ann123") (lit " ") (lit "a@b") (lit "12345"))
                0 1 [] [] blank_page) as H.
  simpl in H.
  destruct H as (_ & H1 & H2 & H3 & H4 & _ & _ & H7 & H8 & _).
  - left. discriminate.
  - repeat split; assumption.
Defined.

(** ** Array methods *)

Ltac unfold_bind :=
  unfold mbind, mret, result_bind, result_ret, M_bind, M_ret in *.

Section ArrayFacts.
Context {A : Type}.
Variable p : A -> result bool.

Lemma some_false (l : list A) : some p l = Ok false <-> rejects p l.
Proof.
  unfold rejects. induction l as [|x l IH]; simpl.
  - split; [constructor | reflexivity].
  - unfold_bind. rewrite Forall_cons. destruct (p x) as [[|]|e].
    + split; [discriminate | intros [? _]; discriminate].
    + rewrite IH. tauto.
    + split; [discriminate | intros [? _]; discriminate].
Qed.

Lemma some_true (l : list A) :
  some p l = Ok true <-> exists pre x post, first_hit p l pre x post.
Proof.
  unfold first_hit, rejects. induction l as [|x l IH]; simpl.
  - split; [discriminate|]. intros (pre & y & post & H & _). destruct pre; discriminate.
  - unfold_bind. destruct (p x) as [[|]|e] eqn:E.
    + split; [|reflexivity]. intros _. exists [], x, l. auto.
    + rewrite IH. split.
      * intros (pre & y & post & -> & Hpre & Hy). exists (x :: pre), y, post. auto.
      * intros (pre & y & post & H & Hpre & Hy). destruct pre as [|z pre]; simpl in H.
        -- injection H as -> ->. congruence.
        -- injection H as -> ->. apply Forall_cons in Hpre as [_ Hpre]. exists pre, y, post. auto.
    + split; [discriminate|]. intros (pre & y & post & H & Hpre & Hy).
      destruct pre as [|z pre]; simpl in H; injection H as -> ->; [congruence|].
      apply Forall_cons in Hpre as [? _]. congruence.
Qed.

Lemma findIndex_None (l : list A) : findIndex p l = Ok None <-> rejects p l.
Proof.
  unfold rejects. induction l as [|x l IH]; simpl.
  - split; [constructor | reflexivity].
  - unfold_bind. rewrite Forall_cons. destruct (p x) as [[|]|e].
    + split; [discriminate | intros [? _]; discriminate].
    + rewrite <- IH. destruct (findIndex p l) as [[i|]|e]; simpl;
        split; try discriminate; try tauto; intros [_ ?]; discriminate.
    + split; [discriminate | intros [? _]; discriminate].
Qed.

Lemma findIndex_Some (l : list A) (i : nat) :
  findIndex p l = Ok (Some i) <->
  exists pre x post, first_hit p l pre x post /\ length pre = i.
Proof.
  unfold first_hit, rejects. revert i. induction l as [|x l IH]; intros i; simpl.
  - split; [discriminate|]. intros (pre & y & post & (H & _) & _). destruct pre; discriminate.
  - unfold_bind. destruct (p x) as [[|]|e] eqn:E.
    + split.
      * intros [= <-]. exists [], x, l. auto.
      * intros (pre & y & post & (H & Hpre & Hy) & <-). destruct pre as [|z pre]; [reflexivity|].
        simpl in H. injection H as -> ->. apply Forall_cons in Hpre as [? _]. congruence.
    + split.
      * destruct (findIndex p l) as [[j|]|e] eqn:F; simpl; try discriminate.
        intros [= <-]. destruct (proj1 (IH j) eq_refl) as (pre & y & post & (-> & Hpre & Hy) & <-).
        exists (x :: pre), y, post. auto.
      * intros (pre & y & post & (H & Hpre & Hy) & <-). destruct pre as [|z pre]; simpl in H.
        -- injection H as -> ->. congruence.
        -- injection H as -> ->. apply Forall_cons in Hpre as [_ Hpre].
           rewrite (proj2 (IH (length pre))); [reflexivity|]. eauto 8.
    + split; [discriminate|]. intros (pre & y & post & (H & Hpre & Hy) & _).
      destruct pre as [|z pre]; simpl in H; injection H as -> ->; [congruence|].
      apply Forall_cons in Hpre as [? _]. congruence.
Qed.

Lemma find_None (l : list A) : find p l = Ok None <-> rejects p l.
Proof.
  unfold rejects. induction l as [|x l IH]; simpl.
  - split; [constructor | reflexivity].
  - unfold_bind. rewrite Forall_cons. destruct (p x) as [[|]|e].
    + split; [discriminate | intros [? _]; discriminate].
    + rewrite IH. tauto.
    + split; [discriminate | intros [? _]; discriminate].
Qed.

Lemma find_Some (l : list A) (x : A) :
  find p l = Ok (Some x) -> p x = Ok true /\ x ∈ l.
Proof.
  induction l as [|y l IH]; simpl; [discriminate|].
  unfold_bind. destruct (p y) as [[|]|e] eqn:E; try discriminate.
  - intros [= ->]. split; [exact E | left].
  - intros H. destruct (IH H). split; [assumption | right; assumption].
Qed.

Lemma filter__Ok (l r : list A) :
  filter_ p l = Ok r <-> Forall (fun x => exists b, p x = Ok b) l /\ r = filter (accepted p) l.
Proof.
  revert r. induction l as [|x l IH]; intros r; simpl.
  - split; [intros [= <-]; split; [constructor | reflexivity] | intros [_ ->]; reflexivity].
  - unfold_bind. rewrite Forall_cons, filter_cons.
    destruct (p x) as [[|]|e] eqn:E.
    + destruct (filter_ p l) as [r'|e] eqn:F.
      * destruct (proj1 (IH r') eq_refl) as [Hl ->]. rewrite decide_True by exact E.
        split; [intros [= <-]; eauto | intros [_ ->]; reflexivity].
      * split; [discriminate|]. intros [[_ Hl] _].
        pose proof (proj2 (IH _) (conj Hl eq_refl)). discriminate.
    + destruct (filter_ p l) as [r'|e] eqn:F.
      * destruct (proj1 (IH r') eq_refl) as [Hl ->]. rewrite decide_False by (unfold accepted; congruence).
        split; [intros [= <-]; eauto | intros [_ ->]; reflexivity].
      * split; [discriminate|]. intros [[_ Hl] _].
        pose proof (proj2 (IH _) (conj Hl eq_refl)). discriminate.
    + split; [discriminate|]. intros [[[b Hb] _] _]. discriminate.
Qed.

End ArrayFacts.

Lemma forEach_Ok {A : Type} (f : A -> result unit) (l : list A) :
  forEach f l = Ok tt <-> Forall (fun x => f x = Ok tt) l.
Proof.
  induction l as [|x l IH]; simpl.
  - split; [constructor | reflexivity].
  - unfold_bind. rewrite Forall_cons. destruct (f x) as [[]|e].
    + rewrite IH. tauto.
    + split; [discriminate | intros [? _]; discriminate].
Qed.

(** ** Property reads and the callbacks *)

Lemma get_readable (s : value) (k : key) : readable s <-> exists v, get s k = Ok v.
Proof.
  destruct s; simpl; split; try tauto; eauto; intros [v H]; discriminate.
Qed.

Lemma get_readable_any (s : value) (k k' : key) (v : value) :
  get s k = Ok v -> exists v', get s k' = Ok v'.
Proof. intros H. apply get_readable. apply (get_readable s k). eauto. Qed.

Lemma strict_eq_str_true (v : value) (s : jsstring) : strict_eq_str v s = true <-> v = VStr s.
Proof.
  destruct v; simpl; try (split; congruence).
  rewrite str_eqb_eq. split; congruence.
Qed.

Lemma str_of_Some (r : result value) (s : jsstring) : str_of r = Some s <-> r = Ok (VStr s).
Proof.
  destruct r as [[]|]; simpl; split; congruence.
Qed.

Lemma id_of_readable (s : value) : is_Some (id_of s) -> readable s.
Proof.
  intros [i H]. apply str_of_Some in H. apply (get_readable s Kid). eauto.
Qed.

(** [s.id === id] holds exactly of the elements whose [id] is the string. *)
Lemma id_is_true (id : jsstring) (s : value) : id_is id s = Ok true <-> id_of s = Some id.
Proof.
  unfold id_is, id_of. unfold_bind. destruct (get s Kid) as [v|e]; simpl.
  - split.
    + intros [= H]. apply strict_eq_str_true in H. subst. reflexivity.
    + destruct v; try discriminate. intros [= ->]. simpl. rewrite str_eqb_refl. reflexivity.
  - split; discriminate.
Qed.

Lemma id_is_false (id : jsstring) (s : value) :
  id_is id s = Ok false <-> readable s /\ id_of s <> Some id.
Proof.
  rewrite <- id_is_true, (get_readable s Kid).
  unfold id_is. unfold_bind. destruct (get s Kid) as [v|e]; simpl.
  - destruct (strict_eq_str v id).
    + split; [discriminate | intros [_ H]; congruence].
    + split; [intros _; split; [eauto | discriminate] | reflexivity].
  - split; [discriminate | intros [[v H] _]; discriminate].
Qed.

Lemma id_is_total (id : jsstring) (s : value) : readable s -> exists b, id_is id s = Ok b.
Proof.
  intros H. apply (get_readable s Kid) in H as [v H].
  unfold id_is. unfold_bind. rewrite H. eauto.
Qed.

Lemma rejects_id_is (id : jsstring) (l : list value) :
  rejects (id_is id) l <-> Forall (fun s => readable s /\ id_of s <> Some id) l.
Proof.
  unfold rejects. apply Forall_iff. intros s. apply id_is_false.
Qed.

Lemma strict_eq_edit_true (v : value) (e : option jsstring) :
  strict_eq_edit v e = true <-> (e = None /\ v = VNull) \/ (exists s, e = Some s /\ v = VStr s).
Proof.
  split.
  - destruct e as [s|], v; simpl; try discriminate.
    + intros H. apply str_eqb_eq in H. subst. right. eauto.
    + intros _. left. auto.
  - intros [[-> ->]|(s & -> & ->)]; simpl; [reflexivity | apply str_eqb_refl].
Qed.

(** The duplicate test on an element whose [id] is a string. *)
Lemma is_duplicate_record (sid : jsstring) (e : option jsstring) (s : value) :
  is_Some (id_of s) ->
  exists b, is_duplicate sid e s = Ok b /\
            (b = true <-> sid_of s = Some sid /\ id_of s <> e).
Proof.
  intros [i Hi]. pose proof Hi as Hi'. apply str_of_Some in Hi'.
  destruct (get_readable_any s Kid Ksid _ Hi') as [a Ha].
  unfold is_duplicate, sid_of. unfold_bind. rewrite Ha, Hi'. rewrite Hi.
  destruct (strict_eq_str a sid) eqn:E.
  - apply strict_eq_str_true in E. subst a. eexists. split; [reflexivity|].
    rewrite negb_true_iff. simpl. destruct e as [x|]; simpl.
    + rewrite str_eqb_neq. split; [intros H; split; congruence | intros [_ H]; congruence].
    + split; [intros _; split; congruence | reflexivity].
  - exists false. split; [reflexivity|]. split; [discriminate|].
    intros [H _]. apply str_of_Some in H. injection H as ->.
    simpl in E. rewrite str_eqb_refl in E. discriminate.
Qed.

(** The duplicate test on any element that can be read. *)
Lemma is_duplicate_readable (sid : jsstring) (e : option jsstring) (s : value) :
  readable s ->
  exists b, is_duplicate sid e s = Ok b /\
            (b = true <-> sid_of s = Some sid /\ ~ edited e s).
Proof.
  intros Hs. destruct (proj1 (get_readable s Ksid) Hs) as [a Ha].
  destruct (proj1 (get_readable s Kid) Hs) as [b Hb].
  assert (edited e s <-> strict_eq_edit b e = true) as He.
  { rewrite strict_eq_edit_true. unfold edited, id_of. rewrite Hb. destruct e as [i|]; simpl.
    - split.
      + intros H. right. exists i. split; [reflexivity|]. destruct b; try discriminate.
        injection H as ->. reflexivity.
      + intros [[? _]|(x & [= <-] & ->)]; [discriminate | reflexivity].
    - split.
      + intros [= ->]. left. auto.
      + intros [[_ ->]|(x & ? & _)]; [reflexivity | discriminate]. }
  unfold is_duplicate, sid_of. unfold_bind. rewrite Ha, Hb. simpl.
  destruct (strict_eq_str a sid) eqn:E.
  - apply strict_eq_str_true in E. subst a. eexists. split; [reflexivity|].
    rewrite negb_true_iff, He. simpl.
    destruct (strict_eq_edit b e).
    + split; [discriminate | intros [_ H]; destruct H; reflexivity].
    + split; [intros _; split; [reflexivity | discriminate] | reflexivity].
  - exists false. split; [reflexivity|]. split; [discriminate|].
    intros [H _]. destruct a; try discriminate. simpl in H, E.
    injection H as ->. rewrite str_eqb_refl in E. discriminate.
Qed.

Lemma edited_string_id (e : option jsstring) (s : value) :
  is_Some (id_of s) -> (edited e s <-> id_of s = e).
Proof.
  intros [i Hi]. unfold edited. destruct e as [x|]; [reflexivity|].
  rewrite Hi. unfold id_of in Hi. apply str_of_Some in Hi. rewrite Hi.
  split; discriminate.
Qed.

(** The duplicate test when nothing that can be edited is being edited:
    [editingId] is [null] or the empty string. *)
Lemma is_duplicate_no_target (sid : jsstring) (e : option jsstring) (s : value) :
  e = None \/ e = Some [] -> id_usable s ->
  is_duplicate sid e s = Ok false -> sid_of s <> Some sid.
Proof.
  intros He [Hn He0] H Hs. apply str_of_Some in Hs.
  unfold is_duplicate in H. unfold_bind. rewrite Hs in H. simpl in H.
  rewrite str_eqb_refl in H. destruct (get s Kid) as [b|x]; [|discriminate].
  injection H as H. apply negb_false_iff, strict_eq_edit_true in H.
  destruct H as [[_ ->]|(x & Hx & ->)]; [congruence|].
  destruct He as [->| ->]; [discriminate|]. injection Hx as <-. congruence.
Qed.

(** The duplicate test while the record [id] is being edited. *)
Lemma is_duplicate_other (sid id : jsstring) (s : value) :
  is_duplicate sid (Some id) s = Ok false -> id_of s <> Some id -> sid_of s <> Some sid.
Proof.
  intros H Hi Hs. apply str_of_Some in Hs.
  unfold is_duplicate in H. unfold_bind. rewrite Hs in H. simpl in H.
  rewrite str_eqb_refl in H. destruct (get s Kid) as [b|x] eqn:E; [|discriminate].
  injection H as H. apply negb_false_iff in H.
  destruct b; try discriminate. apply str_eqb_eq in H. subst.
  apply Hi. unfold id_of. rewrite E. reflexivity.
Qed.

(** The record [addStudent] and [updateStudent] build. *)
Lemma student_id (id : jsstring) (d : fields) : id_of (student id d) = Some id.
Proof. reflexivity. Qed.

Lemma student_sid (id : jsstring) (d : fields) : sid_of (student id d) = Some (f_sid d).
Proof. reflexivity. Qed.

Lemma student_renders (id : jsstring) (d : fields) : render_row (student id d) = Ok tt.
Proof. reflexivity. Qed.

Lemma render_row_readable (s : value) : render_row s = Ok tt -> readable s.
Proof. destruct s; simpl; try exact (fun _ => I); discriminate. Qed.

Lemma renders_readable (l : list value) : renders l -> Forall readable l.
Proof.
  unfold renders. rewrite forEach_Ok. intros H.
  eapply Forall_impl; [exact H | exact render_row_readable].
Qed.

(** ** What each function does to the state *)

Lemma insert_at_hit {A : Type} (pre : list A) (x y : A) (post : list A) :
  <[length pre := y]> (pre ++ x :: post) = pre ++ y :: post.
Proof. induction pre as [|z pre IH]; simpl; [reflexivity | rewrite IH; reflexivity]. Qed.

Lemma clearForm_run (st : state) : clearForm st = (Ok tt, cleared st).
Proof. reflexivity. Qed.

Lemma renderStudents_run (st : state) :
  renderStudents st =
  match forEach render_row (students st) with
  | Ok _ => (Ok tt, rendered st)
  | Throw e => (Throw e, add_log RenderAborted st)
  end.
Proof.
  unfold renderStudents, gets. unfold_bind.
  destruct (forEach render_row (students st)); reflexivity.
Qed.

Lemma renderStudents_ok (st : state) :
  renders (students st) -> renderStudents st = (Ok tt, rendered st).
Proof. unfold renders. intros H. rewrite renderStudents_run, H. reflexivity. Qed.

Lemma renderStudents_students (st : state) :
  students (snd (renderStudents st)) = students st.
Proof.
  rewrite renderStudents_run. destruct (forEach render_row (students st)); reflexivity.
Qed.

Lemma addStudent_run (data : fields) (now : Z) (rnd : jsstring) (st : state) :
  addStudent data now rnd st =
  renderStudents (committed (students st ++ [student (new_id now rnd) data]) st).
Proof. reflexivity. Qed.

Lemma updateStudent_hit (id : jsstring) (d : fields) (st : state) pre s post :
  first_hit (id_is id) (students st) pre s post ->
  updateStudent id d st = renderStudents (committed (pre ++ student id d :: post) st).
Proof.
  intros H. assert (findIndex (id_is id) (students st) = Ok (Some (length pre))) as F.
  { apply findIndex_Some. eauto. }
  destruct H as (Hl & _ & _).
  unfold updateStudent, gets, lift. unfold_bind. rewrite F. simpl.
  rewrite Hl, insert_at_hit. reflexivity.
Qed.

Lemma updateStudent_miss (id : jsstring) (d : fields) (st : state) :
  rejects (id_is id) (students st) -> updateStudent id d st = (Ok tt, st).
Proof.
  intros H. apply findIndex_None in H.
  unfold updateStudent, gets, lift. unfold_bind. rewrite H. reflexivity.
Qed.

(** Whatever [updateStudent] meets, the roster afterwards is the old one or
    the old one with the first hit replaced. *)
Lemma updateStudent_students (id : jsstring) (d : fields) (st : state) :
  students (snd (updateStudent id d st)) = students st
  \/ exists pre s post, first_hit (id_is id) (students st) pre s post
       /\ students (snd (updateStudent id d st)) = pre ++ student id d :: post.
Proof.
  destruct (findIndex (id_is id) (students st)) as [[i|]|e] eqn:F.
  - right. apply findIndex_Some in F as (pre & s & post & H & _).
    exists pre, s, post. split; [exact H|].
    rewrite (updateStudent_hit _ _ _ _ _ _ H), renderStudents_students. reflexivity.
  - left. apply findIndex_None in F. rewrite updateStudent_miss by exact F. reflexivity.
  - left. unfold updateStudent, gets, lift. unfold_bind. rewrite F. reflexivity.
Qed.

Lemma deleteStudent_declined (id : jsstring) (st : state) :
  deleteStudent id false st = (Ok tt, st).
Proof. reflexivity. Qed.

Lemma keep_callback (id : jsstring) (l : list value) :
  Forall readable l ->
  filter_ (id_is_not id) l
  = Ok (filter (fun s => id_of s <> Some id) l).
Proof.
  intros H. apply filter__Ok. split.
  - eapply Forall_impl; [exact H|]. intros s Hs. simpl in Hs.
    destruct (id_is_total id s Hs) as [b Hb]. unfold id_is_not. unfold_bind. rewrite Hb. eauto.
  - induction H as [|s l Hs Hl IH]; [reflexivity|].
    rewrite !filter_cons, <- IH.
    assert (accepted (id_is_not id) s <-> id_of s <> Some id) as Hiff.
    { unfold accepted, id_is_not. unfold_bind. destruct (id_is_total id s Hs) as [[|] Hb]; rewrite Hb; simpl.
      - apply id_is_true in Hb. split; [discriminate | congruence].
      - apply id_is_false in Hb as [_ Hb]. tauto. }
    repeat case_decide; tauto || reflexivity.
Qed.

Lemma deleteStudent_confirmed (id : jsstring) (st : state) :
  Forall readable (students st) ->
  deleteStudent id true st
  = renderStudents (committed (filter (fun s => id_of s <> Some id) (students st)) st).
Proof.
  intros H. unfold deleteStudent, gets, lift. simpl. unfold_bind.
  rewrite (keep_callback id _ H). reflexivity.
Qed.

Lemma deleteStudent_students (id : jsstring) (confirmed : bool) (st : state) :
  students (snd (deleteStudent id confirmed st)) `sublist_of` students st.
Proof.
  destruct confirmed; [|reflexivity].
  unfold deleteStudent, gets, lift. simpl. unfold_bind.
  destruct (filter_ _ (students st)) as [kept|e] eqn:F; [|reflexivity].
  apply filter__Ok in F as [_ ->].
  match goal with
  | |- students (snd ?x) `sublist_of` _ =>
      change x with (renderStudents (committed (filter (accepted (id_is_not id)) (students st)) st))
  end.
  rewrite renderStudents_students. simpl. apply sublist_filter.
Qed.

Create HintDb keeps.

Lemma keeps_ret {A : Type} (a : A) : keeps_students (mret a).
Proof. intros st. reflexivity. Qed.

Lemma keeps_bind {A B : Type} (m : M A) (f : A -> M B) :
  keeps_students m -> (forall a, keeps_students (f a)) -> keeps_students (m ≫= f).
Proof.
  intros Hm Hf st. unfold_bind. specialize (Hm st).
  destruct (m st) as [[a|e] st']; simpl in *; [|exact Hm].
  rewrite Hf. exact Hm.
Qed.

Lemma keeps_lift {A : Type} (r : result A) : keeps_students (lift r).
Proof. intros st. reflexivity. Qed.

Lemma keeps_gets {A : Type} (f : state -> A) : keeps_students (gets f).
Proof. intros st. reflexivity. Qed.

Lemma keeps_modify (f : state -> state) :
  (forall st, students (f st) = students st) -> keeps_students (modify f).
Proof. intros H st. apply H. Qed.

Lemma keeps_emit (e : effect) : keeps_students (emit e).
Proof. intros st. reflexivity. Qed.

Lemma keeps_renderStudents : keeps_students renderStudents.
Proof. exact renderStudents_students. Qed.

Lemma keeps_showErrors (e : errors) : keeps_students (showErrors e).
Proof. intros st. reflexivity. Qed.

Lemma keeps_clearForm : keeps_students clearForm.
Proof. intros st. reflexivity. Qed.

#[global] Hint Resolve keeps_ret keeps_lift keeps_gets keeps_emit keeps_renderStudents
  keeps_showErrors keeps_clearForm : keeps.

Lemma keeps_setInput (k : key) (v : value) : keeps_students (setInput k v).
Proof.
  unfold setInput. apply keeps_bind; [destruct v|]; auto with keeps.
Qed.

Lemma keeps_startEdit (id : jsstring) : keeps_students (startEdit id).
Proof.
  unfold startEdit.
  apply keeps_bind; [auto with keeps|]. intros l.
  apply keeps_bind; [auto with keeps|]. intros [s|]; [|auto with keeps].
  destruct (negb (truthy s)); [auto with keeps|].
  repeat first [apply keeps_setInput | apply keeps_bind; [|intros ?]];
    auto using keeps_modify with keeps.
Qed.

Lemma then_keeps {A B : Type} (m : M A) (k : M B) (st : state) :
  keeps_students k -> students (snd ((m;; k) st)) = students (snd (m st)).
Proof.
  intros Hk. unfold_bind. destruct (m st) as [[a|e] st']; simpl; [apply Hk | reflexivity].
Qed.

(** A form without a validation error: the handler goes on to the duplicate
    test and from there to [updateStudent] or [addStudent]. *)
Lemma onSubmit_valid (form : fields) (now : Z) (rnd : jsstring) (st : state) :
  no_message (messages form) ->
  onSubmit form now rnd st =
  let st0 := add_log PreventDefault st in
  match some (is_duplicate (trim (f_sid form)) (editingId st)) (students st) with
  | Throw e => (Throw e, st0)
  | Ok true => (Ok tt, set_errs (Shown [] (lit "This Student ID already exists") [] []) st0)
  | Ok false =>
      match editingId st with
      | Some id =>
          if str_falsy id then (addStudent (data_of form) now rnd;; clearForm) st0
          else (updateStudent id (data_of form);; clearForm) st0
      | None => (addStudent (data_of form) now rnd;; clearForm) st0
      end
  end.
Proof.
  intros H. apply any_error_false in H.
  unfold onSubmit. fold (form_errors form). fold (data_of form).
  unfold mbind at 1. unfold M_bind at 1. simpl. rewrite H.
  unfold gets, lift. unfold mbind at 1 2 3. unfold M_bind at 1 2 3. simpl.
  destruct (some _ (students st)) as [[|]|e]; try reflexivity.
  destruct (editingId st) as [id|]; [destruct (str_falsy id)|]; reflexivity.
Qed.

Lemma onSubmit_students (form : fields) (now : Z) (rnd : jsstring) (st : state) :
  roster_change st (Submit form now rnd) (students (snd (onSubmit form now rnd st))).
Proof.
  destruct (any_error (form_errors form)) eqn:V.
  - apply any_error_true in V. rewrite onSubmit_invalid by exact V. exact (rc_same st _).
  - apply any_error_false in V. rewrite onSubmit_valid by exact V. simpl.
    destruct (some _ (students st)) as [[|]|e] eqn:D; try exact (rc_same st _).
    apply some_false in D.
    assert (editingId st = None \/ editingId st = Some [] ->
            roster_change st (Submit form now rnd)
              (students (snd ((addStudent (data_of form) now rnd;; clearForm)
                                (add_log PreventDefault st))))) as Hadd.
    { intros He. rewrite then_keeps by auto with keeps.
      rewrite addStudent_run, renderStudents_students. simpl.
      apply rc_added; assumption. }
    destruct (editingId st) as [id|] eqn:E.
    + destruct (str_falsy id) eqn:F.
      * apply str_falsy_nil in F. subst id. apply Hadd. right. reflexivity.
      * rewrite then_keeps by auto with keeps.
        destruct (updateStudent_students id (data_of form) (add_log PreventDefault st))
          as [->|(pre & s & post & Hh & ->)]; [exact (rc_same st _)|].
        apply (rc_updated st form now rnd id pre s post); auto.
        intros ->. discriminate.
    + apply Hadd. left. reflexivity.
Qed.

Lemma step_students (st : state) (ev : event) : roster_change st ev (students (step st ev)).
Proof.
  destruct ev as [form now rnd|id|id [|]|]; unfold step, handle.
  - apply onSubmit_students.
  - rewrite keeps_startEdit. apply rc_same.
  - apply rc_removed, deleteStudent_students.
  - exact (rc_same st _).
  - exact (rc_same st _).
Qed.

(** ** Ids: the base-36 text is complete *)

Lemma undigit36_digit36 (d : N) : d < 36 -> undigit36 (digit36 d) = d.
Proof.
  intros H. unfold undigit36, digit36.
  destruct (d <? 10) eqn:E.
  - apply N.ltb_lt in E. replace (48 + d <? 58) with true by (symmetry; apply N.ltb_lt; lia). lia.
  - apply N.ltb_ge in E. replace (87 + d <? 58) with false by (symmetry; apply N.ltb_ge; lia). lia.
Qed.

Lemma digits36_acc (fuel : nat) (n : N) (acc : jsstring) :
  digits36 fuel n acc = digits36 fuel n [] ++ acc.
Proof.
  revert n acc. induction fuel as [|fuel IH]; intros n acc; simpl; [reflexivity|].
  destruct (n / 36 =? 0); [reflexivity|].
  rewrite (IH _ (_ :: acc)), (IH _ [_]), <- app_assoc. reflexivity.
Qed.

Lemma number36_app (s t : jsstring) (acc : N) :
  number36 (s ++ t) acc = number36 t (number36 s acc).
Proof. revert acc. induction s as [|c s IH]; intros acc; simpl; [reflexivity | apply IH]. Qed.

(** With fuel for every bit of [n], no digit is lost. *)
Lemma digits36_number (fuel : nat) (n : N) :
  n < 2 ^ N.of_nat fuel -> number36 (digits36 fuel n []) 0 = n.
Proof.
  revert n. induction fuel as [|fuel IH]; intros n H.
  - simpl in *. lia.
  - cbn [digits36]. rewrite Nat2N.inj_succ, N.pow_succ_r' in H.
    pose proof (N.div_mod n 36 ltac:(lia)) as Hdm.
    pose proof (N.mod_lt n 36 ltac:(lia)) as Hm.
    destruct (n / 36 =? 0) eqn:E.
    + apply N.eqb_eq in E. simpl. rewrite undigit36_digit36 by exact Hm. lia.
    + rewrite digits36_acc, number36_app. rewrite IH.
      * simpl. rewrite undigit36_digit36 by exact Hm. lia.
      * assert (n / 36 <= n / 2) by (apply N.div_le_compat_l; lia).
        assert (n / 2 < 2 ^ N.of_nat fuel) by (apply N.Div0.div_lt_upper_bound; lia). lia.
Qed.

Lemma size_nat_bound (p : positive) : Npos p < 2 ^ N.of_nat (N.size_nat (Npos p)).
Proof.
  simpl. induction p as [p IH|p IH|]; cbn [Pos.size_nat];
    rewrite ?Nat2N.inj_succ, ?N.pow_succ_r'; simpl; lia.
Qed.

(** [toString36] writes its argument: reading the digits back gives the
    magnitude, and the sign is written exactly for negative numbers. *)
Lemma toString36_number (t : Z) :
  match t with
  | Zneg p => exists ds, toString36 t = 45 :: ds /\ number36 ds 0 = Npos p
  | _ => number36 (toString36 t) 0 = Z.to_N t
  end.
Proof.
  destruct t as [|p|p]; simpl.
  - reflexivity.
  - apply digits36_number, size_nat_bound.
  - eexists. split; [reflexivity|]. apply digits36_number, size_nat_bound.
Qed.

(** ** Unique sids *)

Lemma digits36_nonempty (fuel : nat) (n : N) (acc : jsstring) :
  acc <> [] -> digits36 fuel n acc <> [].
Proof.
  revert n acc. induction fuel as [|fuel IH]; intros n acc H; simpl; [exact H|].
  destruct (n / 36 =? 0); [discriminate|]. apply IH. discriminate.
Qed.

Lemma toString36_nonempty (t : Z) : toString36 t <> [].
Proof.
  assert (forall p, digits36 (N.size_nat (Npos p)) (Npos p) [] <> []) as H.
  { intros p. destruct (N.size_nat (Npos p)) eqn:E; [destruct p; discriminate|].
    cbn [digits36]. destruct (N.pos p / 36 =? 0); [discriminate|].
    apply digits36_nonempty. discriminate. }
  destruct t as [|p|p]; simpl; [discriminate | apply H | discriminate].
Qed.

(** [addStudent] never draws the empty string. *)
Lemma new_id_nonempty (now : Z) (rnd : jsstring) : new_id now rnd <> [].
Proof.
  unfold new_id. pose proof (toString36_nonempty now) as H.
  destruct (toString36 now); [congruence | discriminate].
Qed.

Lemma omap_sublist {A B : Type} (f : A -> option B) (l1 l2 : list A) :
  l1 `sublist_of` l2 -> omap f l1 `sublist_of` omap f l2.
Proof.
  induction 1 as [|x l1 l2 _ IH|x l1 l2 _ IH]; simpl.
  - constructor.
  - destruct (f x); [constructor|]; exact IH.
  - destruct (f x); [constructor|]; exact IH.
Qed.

Lemma student_usable (id : jsstring) (d : fields) : id <> [] -> id_usable (student id d).
Proof. intros H. split; simpl; congruence. Qed.

Lemma roster_ok_sublist (l k : list value) : k `sublist_of` l -> roster_ok l -> roster_ok k.
Proof.
  intros Hk (Hs & Hi & Hu). repeat split.
  - eapply sublist_NoDup; [exact Hs | apply omap_sublist, Hk].
  - eapply sublist_NoDup; [exact Hi | apply omap_sublist, Hk].
  - rewrite Forall_forall in *. intros x Hx. apply Hu. eapply sublist_subseteq; eassumption.
Qed.

Lemma roster_ok_added (l : list value) (id : jsstring) (d : fields) (e : option jsstring) :
  roster_ok l ->
  e = None \/ e = Some [] ->
  rejects (is_duplicate (f_sid d) e) l ->
  id ∉ omap id_of l ->
  id <> [] ->
  roster_ok (l ++ [student id d]).
Proof.
  intros (Hs & Hi & Hu) He Hd Hfresh Hid. unfold roster_ok, sid_unique, id_unique in *.
  rewrite !omap_app. simpl. repeat split.
  - apply NoDup_app. repeat split; [exact Hs | | apply NoDup_singleton].
    intros x Hx Hx'. apply list_elem_of_singleton in Hx'. subst x.
    apply list_elem_of_omap in Hx as (s & Hin & Hsid).
    unfold rejects in Hd. rewrite Forall_forall in Hd, Hu.
    exact (is_duplicate_no_target _ _ _ He (Hu _ Hin) (Hd _ Hin) Hsid).
  - apply NoDup_app. repeat split; [exact Hi | | apply NoDup_singleton].
    intros x Hx Hx'. apply list_elem_of_singleton in Hx'. subst x. exact (Hfresh Hx).
  - apply Forall_app. split; [exact Hu|]. constructor; [|constructor].
    apply student_usable, Hid.
Qed.

Lemma roster_ok_updated (pre post : list value) (s : value) (id : jsstring) (d : fields) :
  roster_ok (pre ++ s :: post) ->
  id_of s = Some id -> id <> [] ->
  rejects (is_duplicate (f_sid d) (Some id)) (pre ++ s :: post) ->
  roster_ok (pre ++ student id d :: post).
Proof.
  intros (Hs & Hi & Hu) Hsid Hid Hd. unfold roster_ok, sid_unique, id_unique in *.
  rewrite !omap_app in *. simpl in *. rewrite Hsid in Hi.
  assert (forall x, x ∈ pre ++ post -> sid_of x <> Some (f_sid d)) as Hother.
  { intros x Hx. apply is_duplicate_other with (id := id).
    - unfold rejects in Hd. rewrite Forall_forall in Hd. apply Hd.
      rewrite elem_of_app in *. rewrite elem_of_cons. tauto.
    - intros Hx'. apply NoDup_app in Hi as (_ & Hi1 & Hi2).
      apply NoDup_cons in Hi2 as [Hi2 _].
      apply elem_of_app in Hx as [Hx|Hx].
      + apply (Hi1 id); [|left]. apply list_elem_of_omap. eauto.
      + apply Hi2. apply list_elem_of_omap. eauto. }
  repeat split.
  - assert (NoDup (omap sid_of pre ++ omap sid_of post)) as Hpp.
    { eapply sublist_NoDup; [exact Hs|]. apply sublist_app; [reflexivity|].
      destruct (sid_of s); [apply sublist_cons|]; reflexivity. }
    apply NoDup_app in Hpp as (H1 & H2 & H3).
    apply NoDup_app. repeat split; [exact H1 | |].
    + intros x Hx Hx'. apply elem_of_cons in Hx' as [->|Hx']; [|exact (H2 _ Hx Hx')].
      apply list_elem_of_omap in Hx as (y & Hy & Hy').
      apply (Hother y); [apply elem_of_app; tauto | exact Hy'].
    + apply NoDup_cons. split; [|exact H3].
      intros Hx. apply list_elem_of_omap in Hx as (y & Hy & Hy').
      apply (Hother y); [apply elem_of_app; tauto | exact Hy'].
  - exact Hi.
  - apply Forall_app in Hu as [Hu1 Hu2]. apply Forall_cons in Hu2 as [_ Hu2].
    apply Forall_app. split; [exact Hu1|]. constructor; [|exact Hu2].
    apply student_usable, Hid.
Qed.

Lemma roster_change_ok (st : state) (ev : event) (l : list value) :
  roster_ok (students st) -> fresh_for st ev -> roster_change st ev l -> roster_ok l.
Proof.
  intros Hok Hfresh Hch. destruct Hch as [ev|form now rnd Hd He|form now rnd id pre s post He Hid Hd Hh|id kept Hk].
  - exact Hok.
  - eapply roster_ok_added; eauto. apply new_id_nonempty.
  - destruct Hh as (Hl & _ & Hs). rewrite Hl in Hok, Hd.
    apply id_is_true in Hs. eapply roster_ok_updated; eauto.
  - eapply roster_ok_sublist; eassumption.
Qed.

Lemma run_ok (evs : list event) (st : state) :
  roster_ok (students st) -> fresh_ids evs st -> roster_ok (students (run evs st)).
Proof.
  revert st. induction evs as [|ev evs IH]; intros st Hok Hfresh; simpl; [exact Hok|].
  destruct Hfresh as [Hev Hrest]. apply IH; [|exact Hrest].
  eapply roster_change_ok; [exact Hok | exact Hev | apply step_students].
Qed.

Lemma shared_sid_not_unique (l : list value) (sid : jsstring) :
  omap sid_of l = [sid; sid] -> ~ sid_unique l.
Proof.
  unfold sid_unique. intros -> H. apply NoDup_cons in H as [H _]. apply H. left.
Qed.

(** C1, as stated, fails. Each of these sequences starts from a roster in
    which no two records share a sid, goes through the submit handler with
    forms that pass the four validators and the duplicate test, and ends with
    two records of equal sid:
    - from the empty roster, two adds that draw the same id, then an edit;
    - one edit on a roster in which two records share an id;
    - one add on a roster whose record has the id [null];
    - one edit click and submit on a roster whose record has the empty id. *)
Lemma sid_unique_counterexample :
  breaks_sid_unique colliding_adds blank_page
  /\ breaks_sid_unique [EditClick (lit "a"); Submit ann_as_bob t0 r0] shared_id_page
  /\ breaks_sid_unique [Submit ann t0 r0] null_id_page
  /\ breaks_sid_unique [EditClick []; Submit ann t0 r0] empty_id_page.
Proof.
  unfold breaks_sid_unique. repeat split.
  - constructor.
  - apply (shared_sid_not_unique _ (lit "1002")). vm_compute. reflexivity.
  - apply (bool_decide_unpack _). vm_compute. exact I.
  - apply (shared_sid_not_unique _ (lit "1002")). vm_compute. reflexivity.
  - apply (bool_decide_unpack _). vm_compute. exact I.
  - apply (shared_sid_not_unique _ (lit "1001")). vm_compute. reflexivity.
  - apply (bool_decide_unpack _). vm_compute. exact I.
  - apply (shared_sid_not_unique _ (lit "1001")). vm_compute. reflexivity.
Qed.

(** C1, amended. Take a roster in which no two records share a sid, no two
    share an id, and no id is null or the empty string. Along any sequence of
    submits, edit and delete clicks and clears in which every id that
    [addStudent] would draw is absent from the roster of the moment, no two
    records ever share a sid. *)
Theorem sid_unique_preserved (evs : list event) (st : state) :
  sid_unique (students st) ->
  id_unique (students st) ->
  Forall id_usable (students st) ->
  fresh_ids evs st ->
  sid_unique (students (run evs st)).
Proof.
  intros Hs Hi Hu Hfresh.
  apply (run_ok evs st); [repeat split; assumption | exact Hfresh].
Qed.

Lemma sid_unique_preserved_witness :
  sid_unique (students (run distinct_adds blank_page))
  /\ omap sid_of (students (run distinct_adds blank_page)) = [lit "1003"].
Proof.
  split.
  - apply sid_unique_preserved.
    + constructor.
    + constructor.
    + constructor.
    + unfold distinct_adds. cbn [fresh_ids fresh_for].
      repeat split; apply (bool_decide_unpack _); vm_compute; exact I.
  - vm_compute. reflexivity.
Defined.

(** ** The duplicate test *)

Lemma some_total {A : Type} (p : A -> result bool) (l : list A) :
  Forall (fun x => exists b, p x = Ok b) l ->
  (exists b, some p l = Ok b)
  /\ (some p l = Ok true <-> exists x, x ∈ l /\ p x = Ok true).
Proof.
  induction 1 as [|x l [b Hb] Hl [[c Hc] IH]]; simpl.
  - split; [eauto|]. split; [discriminate|]. intros (x & Hx & _). inversion Hx.
  - unfold_bind. rewrite Hb. destruct b.
    + split; [eauto|]. split; [|reflexivity]. intros _. exists x. split; [left | exact Hb].
    + split; [eauto|]. rewrite IH. split.
      * intros (y & Hy & Hp). exists y. split; [right; exact Hy | exact Hp].
      * intros (y & Hy & Hp). apply elem_of_cons in Hy as [->|Hy]; [congruence|]. eauto.
Qed.

Lemma first_submit (st : state) (form : fields) (now : Z) (rnd : jsstring) :
  students st = [] -> editingId st = None ->
  no_message (messages form) ->
  step st (Submit form now rnd)
  = cleared (rendered (committed [student (new_id now rnd) (data_of form)]
                         (add_log PreventDefault st))).
Proof.
  intros Hl He H. unfold step, handle. rewrite onSubmit_valid by exact H.
  destruct st as [l e c er lb lg]. simpl in Hl, He. subst l e. reflexivity.
Qed.

(** C3. On an empty roster in Add mode, once a valid form with sid 1001 has
    been added, a second valid form with sid 1001 submitted in Add mode is
    rejected: the sid error reads "This Student ID already exists" and the
    roster keeps its single record. In general the test answers true exactly
    when a record other than the one the edit id names has the submitted sid;
    on records whose id is a string, the record the edit id names is the one
    with that id, and none in Add mode. *)
Theorem duplicate_sid_rejected :
  (forall st form1 form2 now1 rnd1 now2 rnd2,
     students st = [] -> editingId st = None ->
     no_message (messages form1) -> no_message (messages form2) ->
     trim (f_sid form1) = lit "1001" -> trim (f_sid form2) = lit "1001" ->
     let st1 := step st (Submit form1 now1 rnd1) in
     let st2 := step st1 (Submit form2 now2 rnd2) in
     length (students st1) = 1%nat
     /\ editingId st1 = None
     /\ onSubmit form2 now2 rnd2 st1 = (Ok tt, st2)
     /\ errs st2 = Shown [] (lit "This Student ID already exists") [] []
     /\ students st2 = students st1
     /\ length (students st2) = 1%nat
     /\ slot st2 = slot st1)
  /\
  (forall sid (e : option jsstring) l,
     Forall readable l ->
     (exists b, some (is_duplicate sid e) l = Ok b)
     /\ (some (is_duplicate sid e) l = Ok true
         <-> exists s, s ∈ l /\ sid_of s = Some sid /\ ~ edited e s))
  /\
  (forall sid (e : option jsstring) l,
     Forall (fun s => is_Some (id_of s)) l ->
     (exists b, some (is_duplicate sid e) l = Ok b)
     /\ (some (is_duplicate sid e) l = Ok true
         <-> exists s, s ∈ l /\ sid_of s = Some sid /\ id_of s <> e)).
Proof.
  assert (forall sid (e : option jsstring) l,
            Forall readable l ->
            (exists b, some (is_duplicate sid e) l = Ok b)
            /\ (some (is_duplicate sid e) l = Ok true
                <-> exists s, s ∈ l /\ sid_of s = Some sid /\ ~ edited e s)) as General.
  { intros sid e l Hl.
    assert (Forall (fun s => exists b, is_duplicate sid e s = Ok b) l) as Ht.
    { eapply Forall_impl; [exact Hl|]. intros s Hs.
      destruct (is_duplicate_readable sid e s Hs) as (b & Hb & _). eauto. }
    destruct (some_total _ _ Ht) as [Hb Hiff]. split; [exact Hb|].
    rewrite Hiff. rewrite Forall_forall in Hl. split.
    - intros (s & Hs & Hd). exists s. split; [exact Hs|].
      destruct (is_duplicate_readable sid e s (Hl _ Hs)) as (b & Hb' & Hspec).
      apply Hspec. congruence.
    - intros (s & Hs & Hd). exists s. split; [exact Hs|].
      destruct (is_duplicate_readable sid e s (Hl _ Hs)) as (b & Hb' & Hspec).
      apply Hspec in Hd. congruence. }
  split; [|split; [exact General|]].
  - intros st form1 form2 now1 rnd1 now2 rnd2 Hl He V1 V2 S1 S2 st1 st2.
    assert (st1 = cleared (rendered (committed [student (new_id now1 rnd1) (data_of form1)]
                                       (add_log PreventDefault st)))) as E1
      by (apply first_submit; assumption).
    assert (onSubmit form2 now2 rnd2 st1
            = (Ok tt, set_errs (Shown [] (lit "This Student ID already exists") [] [])
                        (add_log PreventDefault st1))) as E2.
    { rewrite onSubmit_valid by exact V2. rewrite E1. cbn [students editingId cleared rendered
        committed set_saveBtn set_editingId set_errs add_log set_slot set_students some].
      unfold is_duplicate. unfold_bind. cbn [get student own key_name default].
      change (own _ (lit "sid")) with (Some (VStr (f_sid (data_of form1)))).
      change (own _ (lit "id")) with (Some (VStr (new_id now1 rnd1))).
      cbn [default data_of f_sid strict_eq_str strict_eq_edit negb].
      rewrite S1, S2, str_eqb_refl. reflexivity. }
    assert (st2 = set_errs (Shown [] (lit "This Student ID already exists") [] [])
                    (add_log PreventDefault st1)) as E3.
    { unfold st2, step, handle. rewrite E2. reflexivity. }
    clearbody st2. subst st2.
    split; [rewrite E1; reflexivity|]. split; [rewrite E1; reflexivity|].
    split; [exact E2|]. repeat split; rewrite E1; reflexivity.
  - intros sid e l Hl.
    assert (Forall readable l) as Hr
      by (eapply Forall_impl; [exact Hl | exact id_of_readable]).
    destruct (General sid e l Hr) as [Hb Hiff]. split; [exact Hb|].
    rewrite Hiff. rewrite Forall_forall in Hl.
    split; intros (s & Hs & Hsid & Hd); exists s; (split; [exact Hs|]); (split; [exact Hsid|]);
      pose proof (edited_string_id e s (Hl _ Hs)); tauto.
Qed.

Lemma duplicate_sid_rejected_witness :
  (let st1 := step blank_page (Submit ann t0 r0) in
   let st2 := step st1 (Submit bob_as_ann (t0 + 1) r0) in
   length (students st1) = 1%nat
   /\ errs st2 = Shown [] (lit "This Student ID already exists") [] []
   /\ length (students st2) = 1%nat)
  /\ some (is_duplicate (lit "1001") None) two_records = Ok true
  /\ some (is_duplicate (lit "1002") (Some (lit "a"))) two_records = Ok true
  /\ some (is_duplicate (lit "1001") None) (tail odd_roster) = Ok true.
Proof.
  destruct duplicate_sid_rejected as (H1 & H2 & H3).
  assert (Forall (fun s => is_Some (id_of s)) two_records) as Hids
    by (repeat constructor; eexists; reflexivity).
  split; [|split; [|split]].
  - destruct (H1 blank_page ann bob_as_ann t0 r0 (t0 + 1)%Z r0)
      as (A & _ & _ & B & _ & C & _).
    + reflexivity.
    + reflexivity.
    + repeat split; reflexivity.
    + repeat split; reflexivity.
    + reflexivity.
    + reflexivity.
    + simpl. auto.
  - apply (proj2 (H3 (lit "1001") None two_records Hids)).
    exists (student (lit "a") ann). split; [left|]. split; [reflexivity | discriminate].
  - apply (proj2 (H3 (lit "1002") (Some (lit "a")) two_records Hids)).
    exists (student (lit "b") bob). split; [right; left|]. split; [reflexivity | discriminate].
  - apply (proj2 (H2 (lit "1001") None (tail odd_roster) ltac:(repeat constructor))).
    exists (VObj [(lit "sid", VStr (lit "1001"))]).
    split; [left|]. split; [reflexivity | discriminate].
Defined.

Lemma loadFromStorage_run (JSON_parse : jsstring -> result value)
    (JSON_stringify : list value -> jsstring) (st : state) :
  loadFromStorage JSON_parse JSON_stringify st =
  match getItem JSON_stringify st with
  | None => (Ok [], st)
  | Some raw =>
      if str_falsy raw then (Ok [], st)
      else match JSON_parse raw with
           | Ok (VArr elems) => (Ok elems, st)
           | Ok _ => (Ok [], st)
           | Throw _ => (Ok [], add_log ConsoleError st)
           end
  end.
Proof.
  unfold loadFromStorage, try_catch, gets, lift. unfold_bind.
  destruct (getItem JSON_stringify st) as [raw|]; [|reflexivity].
  destruct (str_falsy raw); [reflexivity|].
  destruct (JSON_parse raw) as [[]|]; reflexivity.
Qed.

(** ** A page that can render stays able to *)

Lemma renders_app (l k : list value) : renders (l ++ k) <-> renders l /\ renders k.
Proof. unfold renders. rewrite !forEach_Ok. apply Forall_app. Qed.

Lemma renders_step (st : state) (ev : event) :
  renders (students st) -> renders (students (step st ev)).
Proof.
  intros H. destruct (step_students st ev)
    as [ev|form now rnd _ _|form now rnd id pre s post _ _ _ (Hl & _ & _)|id kept Hk].
  - exact H.
  - apply renders_app. split; [exact H | reflexivity].
  - rewrite Hl in H. apply renders_app in H as [Hpre Hpost].
    apply renders_app. split; [exact Hpre|].
    change (s :: post) with ([s] ++ post) in Hpost. apply renders_app in Hpost as [_ Hpost].
    change (renders ([student id (data_of form)] ++ post)).
    apply renders_app. split; [reflexivity | exact Hpost].
  - unfold renders in *. rewrite forEach_Ok, Forall_forall in *.
    intros x Hx. apply H. eapply sublist_subseteq; eassumption.
Qed.

(** ** Pages with live buttons show their roster *)

Lemma last_pass_quiet (lg es : list effect) : quiet es -> last_pass (lg ++ es) = last_pass lg.
Proof.
  unfold last_pass, quiet. intros H. rewrite List.filter_app.
  replace (List.filter is_pass es) with (@nil effect); [rewrite app_nil_r; reflexivity|].
  induction H as [|e es He _ IH]; simpl; [reflexivity|]. rewrite He. exact IH.
Qed.

Lemma last_pass_pass (lg es : list effect) (p : effect) :
  is_pass p = true -> quiet es -> last_pass (lg ++ p :: es) = Some p.
Proof.
  intros Hp Hes. change (p :: es) with ([p] ++ es). rewrite app_assoc, last_pass_quiet by exact Hes.
  unfold last_pass. rewrite List.filter_app. simpl. rewrite Hp. apply last_snoc.
Qed.

Lemma shape_shows (st st' : state) :
  handler_shape st st' -> shows_roster st -> shows_roster st'.
Proof.
  intros [[Hl (es & Hlog & Hq)]|(es1 & p & es2 & Hlog & Hq & Hp)] H l b.
  - rewrite Hlog, last_pass_quiet, Hl by exact Hq. apply H.
  - rewrite Hlog, app_assoc. destruct Hp as [->|[[b' ->] Hr]].
    + rewrite last_pass_pass by (reflexivity || exact Hq). discriminate.
    + rewrite last_pass_pass by (reflexivity || exact Hq). intros [= <- _]. auto.
Qed.

Lemma calm_ret {A : Type} (a : A) : calm (mret a).
Proof. intros st. split; [reflexivity|]. exists []. rewrite app_nil_r. split; [reflexivity | constructor]. Qed.

Lemma calm_lift {A : Type} (r : result A) : calm (lift r).
Proof. intros st. split; [reflexivity|]. exists []. rewrite app_nil_r. split; [reflexivity | constructor]. Qed.

Lemma calm_gets {A : Type} (f : state -> A) : calm (gets f).
Proof. intros st. split; [reflexivity|]. exists []. rewrite app_nil_r. split; [reflexivity | constructor]. Qed.

Lemma calm_modify (f : state -> state) :
  (forall st, students (f st) = students st /\ log (f st) = log st) -> calm (modify f).
Proof.
  intros H st. destruct (H st) as [Hs Hl]. split; [exact Hs|].
  exists []. rewrite app_nil_r. split; [exact Hl | constructor].
Qed.

Lemma calm_emit (e : effect) : is_pass e = false -> calm (emit e).
Proof.
  intros H st. split; [reflexivity|]. exists [e]. split; [reflexivity|].
  constructor; [exact H | constructor].
Qed.

Lemma calm_bind {A B : Type} (m : M A) (f : A -> M B) :
  calm m -> (forall a, calm (f a)) -> calm (m ≫= f).
Proof.
  intros Hm Hf st. unfold_bind. destruct (Hm st) as [Hs (es & Hl & Hq)].
  destruct (m st) as [[a|e] st1]; simpl in *.
  - destruct (Hf a st1) as [Hs' (es' & Hl' & Hq')]. split; [congruence|].
    exists (es ++ es'). rewrite Hl', Hl, app_assoc. split; [reflexivity|].
    apply Forall_app. split; assumption.
  - split; [exact Hs|]. eauto.
Qed.

Lemma calm_showErrors (e : errors) : calm (showErrors e).
Proof. apply calm_modify. intros st. split; reflexivity. Qed.

Lemma calm_clearForm : calm clearForm.
Proof.
  unfold clearForm.
  repeat (apply calm_bind; [|intros ?]);
    first [ apply calm_emit; reflexivity | apply calm_showErrors
          | apply calm_modify; intros st; split; reflexivity ].
Qed.

Lemma calm_setInput (k : key) (v : value) : calm (setInput k v).
Proof.
  unfold setInput. apply calm_bind; [destruct v|intros ?];
    first [apply calm_ret | apply calm_lift | apply calm_emit; reflexivity].
Qed.

Lemma calm_startEdit (id : jsstring) : calm (startEdit id).
Proof.
  unfold startEdit.
  apply calm_bind; [apply calm_gets|]. intros l.
  apply calm_bind; [apply calm_lift|]. intros [s|]; [|apply calm_ret].
  destruct (negb (truthy s)); [apply calm_ret|].
  repeat first [ apply calm_setInput | apply calm_bind; [|intros ?] ];
    first [ apply calm_lift | apply calm_emit; reflexivity
          | apply calm_modify; intros st; split; reflexivity ].
Qed.

Lemma calm_shape {A : Type} (m : M A) (st : state) : calm m -> handler_shape st (snd (m st)).
Proof. intros H. left. exact (H st). Qed.

(** A render pass followed by calm steps, on a state whose log already
    extends that of [st]. *)
Lemma pass_shape {A : Type} (k : M A) (st st1 : state) (es1 : list effect) :
  calm k -> log st1 = log st ++ es1 ->
  handler_shape st (snd ((renderStudents;; k) st1)).
Proof.
  intros Hk Hl. right. unfold_bind. rewrite renderStudents_run.
  destruct (forEach render_row (students st1)) as [[]|e] eqn:R.
  - destruct (Hk (rendered st1)) as [Hs (es & Hlog & Hq)].
    exists es1, (Render (students st1) (5 <? length (students st1))%nat), es.
    split; [|split; [exact Hq|]].
    + rewrite Hlog. simpl. rewrite Hl, <- !app_assoc. reflexivity.
    + right. rewrite Hs. simpl. split; [eauto | exact R].
  - exists es1, RenderAborted, []. simpl. rewrite Hl, <- app_assoc.
    split; [reflexivity|]. split; [constructor | left; reflexivity].
Qed.

Lemma step_shape (st : state) (ev : event) : handler_shape st (step st ev).
Proof.
  destruct ev as [form now rnd|id|id [|]|]; unfold step, handle.
  - destruct (any_error (form_errors form)) eqn:V.
    + apply any_error_true in V. rewrite onSubmit_invalid by exact V.
      left. split; [reflexivity|]. exists [PreventDefault]. split; [reflexivity|].
      repeat constructor.
    + apply any_error_false in V. rewrite onSubmit_valid by exact V. simpl.
      assert (handler_shape st (add_log PreventDefault st)) as Hq.
      { left. split; [reflexivity|]. exists [PreventDefault]. split; [reflexivity|].
        repeat constructor. }
      assert (forall l, handler_shape st
                (snd ((renderStudents;; clearForm) (committed l (add_log PreventDefault st)))))
        as Hpass.
      { intros l. apply (pass_shape _ _ _ [PreventDefault; SetItem l]); [apply calm_clearForm|].
        simpl. rewrite <- app_assoc. reflexivity. }
      destruct (some _ (students st)) as [[|]|e] eqn:D; try exact Hq.
      assert (handler_shape st
                (snd ((addStudent (data_of form) now rnd;; clearForm)
                        (add_log PreventDefault st)))) as Hadd by apply Hpass.
      destruct (editingId st) as [id|]; [destruct (str_falsy id)|]; try exact Hadd.
      destruct (findIndex (id_is id) (students st)) as [[i|]|e] eqn:F.
      * apply findIndex_Some in F as (pre & s & post & Hh & _).
        assert (first_hit (id_is id) (students (add_log PreventDefault st)) pre s post)
          as Hh' by exact Hh.
        unfold mbind at 1. unfold M_bind at 1.
        rewrite (updateStudent_hit _ _ _ _ _ _ Hh'). apply Hpass.
      * apply findIndex_None in F.
        unfold mbind at 1. unfold M_bind at 1.
        rewrite updateStudent_miss by exact F.
        left. split; [reflexivity|]. exists [PreventDefault; FormReset].
        split; [simpl; rewrite <- app_assoc; reflexivity | repeat constructor].
      * unfold mbind at 1. unfold M_bind at 1.
        unfold updateStudent, gets, lift. unfold_bind. simpl. rewrite F. exact Hq.
  - apply calm_shape, calm_startEdit.
  - destruct (filter_ (id_is_not id) (students st)) as [kept|e] eqn:F.
    + assert (deleteStudent id true st = renderStudents (committed kept st)) as E.
      { unfold deleteStudent, gets, lift. simpl. unfold_bind. rewrite F. reflexivity. }
      rewrite E.
      pose proof (pass_shape (mret tt) st (committed kept st) [SetItem kept]
                    (calm_ret tt) eq_refl) as H.
      unfold_bind. destruct (renderStudents (committed kept st)) as [[[]|e] st1]; exact H.
    + assert (deleteStudent id true st = (Throw e, st)) as E.
      { unfold deleteStudent, gets, lift. simpl. unfold_bind. rewrite F. reflexivity. }
      rewrite E. left. split; [reflexivity|]. exists []. rewrite app_nil_r.
      split; [reflexivity | constructor].
  - left. split; [reflexivity|]. exists []. rewrite app_nil_r.
    split; [reflexivity | constructor].
  - apply calm_shape, calm_clearForm.
Qed.


Lemma render_shape (st st1 : state) (es1 : list effect) :
  log st1 = log st ++ es1 -> handler_shape st (snd (renderStudents st1)).
Proof.
  intros Hl. pose proof (pass_shape (mret tt) st st1 es1 (calm_ret tt) Hl) as H.
  unfold_bind. destruct (renderStudents st1) as [[[]|e] st2]; exact H.
Qed.

Lemma init_shape (JSON_parse : jsstring -> result value)
    (JSON_stringify : list value -> jsstring) (st : state) :
  handler_shape st (snd (init JSON_parse JSON_stringify st)).
Proof.
  unfold init. unfold mbind at 1. unfold M_bind at 1. rewrite loadFromStorage_run.
  assert (forall l es, handler_shape st
            (snd ((modify (set_students l);; renderStudents) (fold_left (fun s e => add_log e s) es st))))
    as H.
  { intros l es. apply (render_shape _ _ es). simpl.
    revert st. induction es as [|e es IH]; intros st; simpl; [rewrite app_nil_r; reflexivity|].
    rewrite IH. simpl. rewrite <- app_assoc. reflexivity. }
  destruct (getItem JSON_stringify st) as [raw|]; [|exact (H [] [])].
  destruct (str_falsy raw); [exact (H [] [])|].
  destruct (JSON_parse raw) as [v|e]; [|exact (H [] [ConsoleError])].
  destruct v; first [exact (H [] []) | exact (H elems [])].
Qed.

Lemma run_shows (evs : list event) (st : state) :
  shows_roster st -> shows_roster (run evs st).
Proof.
  revert st. induction evs as [|ev evs IH]; intros st H; simpl; [exact H|].
  apply IH. exact (shape_shows _ _ (step_shape st ev) H).
Qed.

(** On every page reached from a page load, if the rows carry live buttons
    then the roster is one a render pass completes on: the condition under
    which the properties of delete are stated. *)
Theorem live_page_renders (JSON_parse : jsstring -> result value)
    (JSON_stringify : list value -> jsstring) (st0 : state) (evs : list event) :
  booted st0 ->
  live (run evs (snd (init JSON_parse JSON_stringify st0))) ->
  renders (students (run evs (snd (init JSON_parse JSON_stringify st0)))).
Proof.
  intros (_ & _ & Hlog) (l & b & Hlive).
  assert (shows_roster st0) as H0 by (intros l' b'; rewrite Hlog; discriminate).
  pose proof (run_shows evs _ (shape_shows _ _ (init_shape JSON_parse JSON_stringify st0) H0))
    as H.
  destruct (H l b Hlive) as [-> Hr]. exact Hr.
Qed.

Lemma delete_request_renders (st : state) : delete_request st -> renders (students st).
Proof.
  intros (JSON_parse & JSON_stringify & st0 & evs & Hb & -> & Hl).
  exact (live_page_renders JSON_parse JSON_stringify st0 evs Hb Hl).
Qed.

(** ** Update and delete *)

Lemma renderStudents_slot (st : state) : slot (snd (renderStudents st)) = slot st.
Proof.
  rewrite renderStudents_run. destruct (forEach render_row (students st)); reflexivity.
Qed.

Lemma filter_all {A : Type} (P : A -> Prop) `{!forall x, Decision (P x)} (l : list A) :
  Forall P l -> filter P l = l.
Proof.
  induction 1 as [|x l Hx _ IH]; [reflexivity|].
  rewrite filter_cons_True by exact Hx. rewrite IH. reflexivity.
Qed.

Lemma renders_filter (P : value -> Prop) `{!forall x, Decision (P x)} (l : list value) :
  renders l -> renders (filter P l).
Proof.
  unfold renders. rewrite !forEach_Ok, !Forall_forall.
  intros Hr x Hx. apply list_elem_of_filter in Hx as [_ Hx]. exact (Hr x Hx).
Qed.

(** A confirmed delete on a page that shows its roster. *)
Lemma delete_confirmed_run (id : jsstring) (st : state) :
  renders (students st) ->
  deleteStudent id true st
  = (Ok tt, rendered (committed (filter (fun s => id_of s <> Some id) (students st)) st)).
Proof.
  intros H. rewrite deleteStudent_confirmed by (apply renders_readable, H).
  apply renderStudents_ok. simpl. apply renders_filter, H.
Qed.

(** The submit handler reaches [updateStudent] and [addStudent] only when the
    duplicate test has read a property of every element. *)
Lemma duplicate_test_reads_all (sid : jsstring) (e : option jsstring) (l : list value) :
  rejects (is_duplicate sid e) l -> Forall readable l.
Proof.
  unfold rejects. intros H. eapply Forall_impl; [exact H|].
  intros s Hs. destruct s; simpl; try exact I; discriminate.
Qed.

(** C5. When every roster element is a record and none has the given id,
    [updateStudent] returns normally and leaves the whole state as it was:
    the roster, the storage slot and the log of effects. The submit handler
    that called it for a vanished edit target then only clears the form: no
    error is shown and nothing is written. *)
Theorem update_unknown_id_is_noop (id : jsstring) (newData : fields) (st : state) :
  (Forall (fun s => readable s /\ id_of s <> Some id) (students st) ->
   updateStudent id newData st = (Ok tt, st))
  /\ (forall form now rnd,
        no_message (messages form) ->
        editingId st = Some id -> id <> [] ->
        some (is_duplicate (trim (f_sid form)) (Some id)) (students st) = Ok false ->
        Forall (fun s => id_of s <> Some id) (students st) ->
        onSubmit form now rnd st = (Ok tt, cleared (add_log PreventDefault st))).
Proof.
  split.
  - intros H. apply updateStudent_miss, rejects_id_is, H.
  - intros form now rnd V He Hid D Hno.
    rewrite onSubmit_valid by exact V. simpl. rewrite He, D.
    destruct id as [|c id]; [congruence|]. simpl.
    unfold mbind at 1. unfold M_bind at 1. rewrite updateStudent_miss; [reflexivity|].
    apply rejects_id_is. apply some_false, duplicate_test_reads_all in D.
    simpl. rewrite Forall_forall in *. auto.
Qed.

Lemma update_unknown_id_is_noop_witness :
  updateStudent (lit "zz") ann_new_sid shared_id_page = (Ok tt, shared_id_page)
  /\ onSubmit ann_new_sid t0 r0 (set_editingId (Some (lit "zz")) shared_id_page)
     = (Ok tt, cleared (add_log PreventDefault (set_editingId (Some (lit "zz")) shared_id_page))).
Proof.
  split.
  - apply (proj1 (update_unknown_id_is_noop (lit "zz") ann_new_sid shared_id_page)).
    repeat constructor; simpl; discriminate.
  - apply (proj2 (update_unknown_id_is_noop (lit "zz") ann_new_sid
                    (set_editingId (Some (lit "zz")) shared_id_page))).
    + repeat split; reflexivity.
    + reflexivity.
    + discriminate.
    + reflexivity.
    + repeat constructor; simpl; discriminate.
Defined.

(** C8. When the roster holds a record with the given id, [updateStudent]
    puts [{ id, ...newData }] in the place of the first such record: same
    position, same id, the four other fields as given. No other position
    changes, and the slot holds the new roster. *)
Theorem update_replaces_in_place
    (id : jsstring) (newData : fields) (st : state) (pre : list value) (s : value)
    (post : list value) :
  students st = pre ++ s :: post ->
  Forall (fun x => readable x /\ id_of x <> Some id) pre ->
  id_of s = Some id ->
  let st' := snd (updateStudent id newData st) in
  students st' = pre ++ student id newData :: post
  /\ students st' !! length pre = Some (student id newData)
  /\ id_of (student id newData) = id_of s
  /\ get (student id newData) Kname = Ok (VStr (f_name newData))
  /\ get (student id newData) Ksid = Ok (VStr (f_sid newData))
  /\ get (student id newData) Kemail = Ok (VStr (f_email newData))
  /\ get (student id newData) Kcontact = Ok (VStr (f_contact newData))
  /\ length (students st') = length (students st)
  /\ (forall j, j <> length pre -> students st' !! j = students st !! j)
  /\ slot st' = Some (Serialized (students st')).
Proof.
  intros Hl Hpre Hs st'.
  assert (first_hit (id_is id) (students st) pre s post) as Hh.
  { split; [exact Hl|]. split; [apply rejects_id_is, Hpre | apply id_is_true, Hs]. }
  assert (students st' = pre ++ student id newData :: post) as E.
  { unfold st'. rewrite (updateStudent_hit _ _ _ _ _ _ Hh), renderStudents_students.
    reflexivity. }
  assert (slot st' = Some (Serialized (pre ++ student id newData :: post))) as F.
  { unfold st'. rewrite (updateStudent_hit _ _ _ _ _ _ Hh), renderStudents_slot.
    reflexivity. }
  rewrite E, F, Hl, Hs. repeat split.
  - apply list_lookup_middle. reflexivity.
  - rewrite !length_app. reflexivity.
  - intros j Hj. destruct (decide (j < length pre)%nat) as [Hlt|Hge].
    + rewrite !lookup_app_l by exact Hlt. reflexivity.
    + rewrite !lookup_app_r by lia.
      destruct (j - length pre)%nat as [|k] eqn:K; [lia | reflexivity].
Qed.

Lemma update_replaces_in_place_witness :
  students (snd (updateStudent (lit "b") ann_new_sid
                   two_records_page))
  = [student (lit "a") ann; student (lit "b") ann_new_sid].
Proof.
  apply (update_replaces_in_place (lit "b") ann_new_sid
           two_records_page
           [student (lit "a") ann] (student (lit "b") bob) []).
  - reflexivity.
  - repeat constructor. simpl. discriminate.
  - reflexivity.
Defined.

(** C6. A delete request the user declines changes nothing: same roster, same
    slot, nothing logged. One the user confirms removes the records with that
    id, writes the remaining roster to the slot and renders it. *)
Theorem delete_asks_first (id : jsstring) (st : state) :
  deleteStudent id false st = (Ok tt, st)
  /\ (delete_request st ->
      let kept := filter (fun s => id_of s <> Some id) (students st) in
      exists st',
        deleteStudent id true st = (Ok tt, st')
        /\ students st' = kept
        /\ slot st' = Some (Serialized kept)
        /\ log st' = log st ++ [SetItem kept; Render kept (5 <? length kept)%nat]
        /\ editingId st' = editingId st).
Proof.
  split; [reflexivity|]. intros H kept. apply delete_request_renders in H.
  exists (rendered (committed kept st)). split; [apply delete_confirmed_run, H|].
  simpl. rewrite <- app_assoc. repeat split; reflexivity.
Qed.

Lemma ann_bob_request : delete_request ann_bob_page.
Proof.
  exists sample_parse, sample_stringify, blank_page,
    [Submit ann t0 r0; Submit bob (t0 + 1) r0].
  split; [repeat split|]. split; [reflexivity|].
  eexists _, _. vm_compute. reflexivity.
Defined.

Lemma twins_request : delete_request twins_page.
Proof.
  exists sample_parse, sample_stringify, blank_page,
    [Submit ann t0 r0; Submit bob t0 r0].
  split; [repeat split|]. split; [reflexivity|].
  eexists _, _. vm_compute. reflexivity.
Defined.

Lemma delete_asks_first_witness :
  deleteStudent (new_id t0 r0) false ann_bob_page = (Ok tt, ann_bob_page)
  /\ exists st',
       deleteStudent (new_id (t0 + 1) r0) true ann_bob_page = (Ok tt, st')
       /\ students st' = [student (new_id t0 r0) ann]
       /\ slot st' = Some (Serialized [student (new_id t0 r0) ann]).
Proof.
  split.
  - apply (proj1 (delete_asks_first (new_id t0 r0) ann_bob_page)).
  - destruct (proj2 (delete_asks_first (new_id (t0 + 1) r0) ann_bob_page) ann_bob_request)
      as (st' & H1 & H2 & H3 & _).
    exists st'. split; [exact H1|]. split; [rewrite H2 | rewrite H3]; vm_compute; reflexivity.
Defined.

(** C10. A confirmed delete keeps exactly the records whose id is not the
    given one, in their order: every match goes, not only the first. When no
    record has the id the roster is the same, and it is still written to the
    slot and rendered. *)
Theorem delete_removes_every_match (id : jsstring) (st : state) :
  delete_request st ->
  let st' := step st (DeleteClick id true) in
  students st' = filter (fun s => id_of s <> Some id) (students st)
  /\ (forall s, s ∈ students st' <-> s ∈ students st /\ id_of s <> Some id)
  /\ students st' `sublist_of` students st
  /\ (Forall (fun s => id_of s <> Some id) (students st) ->
      students st' = students st
      /\ slot st' = Some (Serialized (students st))
      /\ log st' = log st ++ [SetItem (students st);
                              Render (students st) (5 <? length (students st))%nat]).
Proof.
  intros H st'. apply delete_request_renders in H.
  assert (st' = rendered (committed (filter (fun s => id_of s <> Some id) (students st)) st))
    as E by (unfold st', step, handle; rewrite delete_confirmed_run by exact H; reflexivity).
  rewrite E. simpl. split; [reflexivity|]. split; [|split].
  - intros s. rewrite list_elem_of_filter. tauto.
  - apply sublist_filter.
  - intros Hall. rewrite (filter_all _ _ Hall), <- app_assoc. repeat split; reflexivity.
Qed.

Lemma delete_removes_every_match_witness :
  length (students twins_page) = 2%nat
  /\ students (step twins_page (DeleteClick (new_id t0 r0) true)) = []
  /\ students (step twins_page (DeleteClick (lit "zz") true)) = students twins_page
  /\ slot (step twins_page (DeleteClick (lit "zz") true))
     = Some (Serialized (students twins_page)).
Proof.
  split; [reflexivity|]. split; [|split].
  - rewrite (proj1 (delete_removes_every_match (new_id t0 r0) twins_page twins_request)).
    vm_compute. reflexivity.
  - apply (delete_removes_every_match (lit "zz") twins_page twins_request).
    repeat constructor; vm_compute; discriminate.
  - apply (delete_removes_every_match (lit "zz") twins_page twins_request).
    repeat constructor; vm_compute; discriminate.
Defined.

(** ** Loading *)

Section Loading.
Variable JSON_parse : jsstring -> result value.
Variable JSON_stringify : list value -> jsstring.

Local Abbreviation load := (loadFromStorage JSON_parse JSON_stringify).
Local Abbreviation stored_text := (getItem JSON_stringify).

(** C7. [loadFromStorage] always returns a list to its caller, never an
    exception; the list is empty when the slot is absent, when its text does
    not parse, and when the text parses to something that is not an array. *)
Theorem load_absorbs_failures (st : state) :
  (exists l st', load st = (Ok l, st') /\ students st' = students st /\ slot st' = slot st)
  /\ (stored_text st = None -> fst (load st) = Ok [])
  /\ (forall raw e, stored_text st = Some raw -> JSON_parse raw = Throw e ->
        fst (load st) = Ok [])
  /\ (forall raw v, stored_text st = Some raw -> JSON_parse raw = Ok v ->
        (forall elems, v <> VArr elems) -> fst (load st) = Ok []).
Proof.
  rewrite loadFromStorage_run. repeat split.
  - destruct (stored_text st) as [raw|]; [|eauto].
    destruct (str_falsy raw); [eauto|].
    destruct (JSON_parse raw) as [[]|]; eauto.
  - intros ->. reflexivity.
  - intros raw e -> ->. destruct (str_falsy raw); reflexivity.
  - intros raw v -> -> Hv. destruct (str_falsy raw); [reflexivity|].
    destruct v; try reflexivity. destruct (Hv elems eq_refl).
Qed.

(** C9. Whatever array the stored text parses to is returned as it is and
    becomes the roster; no element is inspected. For the text [odd_text] the
    roster then holds [null], an object without id, an object whose id is a
    boolean and the sid 1001 twice, and the first render aborts on it. *)
Theorem load_keeps_any_array (st : state) :
  (forall raw elems,
     stored_text st = Some raw -> raw <> [] -> JSON_parse raw = Ok (VArr elems) ->
     load st = (Ok elems, st)
     /\ students (snd (init JSON_parse JSON_stringify st)) = elems)
  /\ (JSON_parse odd_text = Ok (VArr odd_roster) -> slot st = Some (Text odd_text) ->
      let page := init JSON_parse JSON_stringify st in
      students (snd page) = odd_roster
      /\ fst page = Throw TypeError
      /\ ~ sid_unique (students (snd page))
      /\ ~ Forall readable (students (snd page))).
Proof.
  assert (forall st raw elems,
            stored_text st = Some raw -> raw <> [] -> JSON_parse raw = Ok (VArr elems) ->
            load st = (Ok elems, st)) as Hload.
  { intros st0 raw elems Hraw Hne Hp. rewrite loadFromStorage_run, Hraw, Hp.
    destruct raw; [congruence | reflexivity]. }
  split.
  - intros raw elems Hraw Hne Hp. split; [exact (Hload _ _ _ Hraw Hne Hp)|].
    unfold init. unfold mbind at 1. unfold M_bind at 1. rewrite (Hload _ _ _ Hraw Hne Hp).
    rewrite then_keeps by auto with keeps. reflexivity.
  - intros Hp Hslot page.
    assert (stored_text st = Some odd_text) as Hraw by (unfold getItem; rewrite Hslot; reflexivity).
    assert (page = (Throw TypeError, add_log RenderAborted (set_students odd_roster st))) as E.
    { unfold page, init. unfold mbind at 1. unfold M_bind at 1.
      rewrite (Hload st odd_text odd_roster Hraw ltac:(discriminate) Hp). reflexivity. }
    rewrite E. simpl. repeat split.
    + unfold sid_unique. simpl. intros H. apply NoDup_cons in H as [H _]. apply H. left.
    + intros H. apply Forall_cons in H as [[] _].
Qed.

End Loading.

Lemma load_absorbs_failures_witness :
  fst (loadFromStorage sample_parse sample_stringify blank_page) = Ok []
  /\ fst (loadFromStorage sample_parse sample_stringify (page_with (lit "[1,")))
     = Ok []
  /\ fst (loadFromStorage sample_parse sample_stringify (page_with (lit "{}")))
     = Ok [].
Proof.
  split; [|split].
  - apply (load_absorbs_failures sample_parse sample_stringify blank_page).
    reflexivity.
  - apply (proj1 (proj2 (proj2 (load_absorbs_failures sample_parse sample_stringify
                                  (page_with (lit "[1,")))))
             (lit "[1,") SyntaxError); reflexivity.
  - apply (proj2 (proj2 (proj2 (load_absorbs_failures sample_parse sample_stringify
                                  (page_with (lit "{}")))))
             (lit "{}") (VObj [])); [reflexivity | reflexivity | discriminate].
Defined.

Lemma load_keeps_any_array_witness :
  students (snd (init sample_parse sample_stringify (page_with odd_text)))
  = odd_roster
  /\ ~ sid_unique odd_roster.
Proof.
  pose proof (load_keeps_any_array sample_parse sample_stringify
                (page_with odd_text)) as [H1 H2].
  split.
  - apply (H1 odd_text odd_roster); [reflexivity | discriminate | reflexivity].
  - destruct (H2 eq_refl eq_refl) as (E & _ & H & _). rewrite E in H. exact H.
Defined.

(** ** What the validators answer *)

Lemma trimStart_suffix (s : jsstring) : exists u, s = u ++ trimStart s.
Proof.
  induction s as [|c s [u IH]]; [exists []; reflexivity|].
  simpl. destruct (is_space c); [|exists []; reflexivity].
  exists (c :: u). simpl. congruence.
Qed.

Lemma trim_within (P : code_unit -> Prop) (s : jsstring) : Forall P s -> Forall P (trim s).
Proof.
  intros H. unfold trim, trimEnd.
  assert (forall t, Forall P t -> Forall P (trimStart t)) as Hs.
  { intros t Ht. destruct (trimStart_suffix t) as [u E]. rewrite E in Ht.
    apply Forall_app in Ht as [_ Ht]. exact Ht. }
  apply Forall_rev, Hs, Forall_rev, Hs, H.
Qed.

Lemma trimStart_nil (s : jsstring) :
  trimStart s = [] <-> Forall (fun c => is_space c = true) s.
Proof.
  induction s as [|c s IH]; simpl; [split; auto|].
  destruct (is_space c) eqn:E.
  - rewrite IH. split; [intros H; constructor; assumption | intros H; inversion H; assumption].
  - split; [discriminate | intros H; inversion H; congruence].
Qed.

Lemma trim_nil (s : jsstring) : trim s = [] <-> Forall (fun c => is_space c = true) s.
Proof.
  rewrite <- trimStart_nil. unfold trim, trimEnd. split.
  - intros H. apply (f_equal (@rev _)) in H. rewrite rev_involutive in H. simpl in H.
    apply trimStart_nil, Forall_rev in H. rewrite rev_involutive in H.
    pose proof (trimStart_clean s) as Hc.
    destruct (trimStart s) as [|c t]; [reflexivity|].
    inversion H; subst. simpl in Hc. congruence.
  - intros ->. reflexivity.
Qed.

Lemma trim_clean (s : jsstring) : Forall (fun c => is_space c = false) s -> trim s = s.
Proof.
  intros H. unfold trim, trimEnd.
  assert (forall t, Forall (fun c => is_space c = false) t -> trimStart t = t) as Hs.
  { intros [|c t] Ht; [reflexivity|]. inversion Ht; subst. simpl.
    destruct (is_space c); [discriminate | reflexivity]. }
  rewrite (Hs s H), (Hs (rev s)) by (apply Forall_rev, H). apply rev_involutive.
Qed.

Lemma is_digit_not_space (c : code_unit) : is_digit c = true -> is_space c = false.
Proof.
  unfold is_digit, is_space, in_range. intros H.
  apply andb_true_iff in H as [H1 H2]. apply N.leb_le in H1, H2.
  repeat (apply orb_false_iff; split);
    first [apply N.eqb_neq; lia | apply andb_false_iff; rewrite !N.leb_gt; lia].
Qed.

Lemma is_letter_not_space (c : code_unit) : is_letter c = true -> is_space c = false.
Proof.
  unfold is_letter, is_space, in_range. intros H.
  assert (65 <= c <= 122) as Hc.
  { apply orb_true_iff in H as [H|H]; apply andb_true_iff in H as [H1 H2];
      apply N.leb_le in H1, H2; lia. }
  repeat (apply orb_false_iff; split);
    first [apply N.eqb_neq; lia | apply andb_false_iff; rewrite !N.leb_gt; lia].
Qed.

Lemma not_space_at_char (c : code_unit) :
  not_space_at c = true <-> is_space c = false /\ c <> 64.
Proof.
  unfold not_space_at. rewrite negb_true_iff, orb_false_iff, N.eqb_neq. reflexivity.
Qed.

Lemma validator_cases (r : regex) (required invalid : jsstring) (s : jsstring) :
  required <> [] -> invalid <> [] -> required <> invalid ->
  let answer := if str_falsy (trim s) then required
                else if negb (test r (trim s)) then invalid else [] in
  (answer = required <-> trim s = [])
  /\ (answer = invalid <-> trim s <> [] /\ test r (trim s) = false)
  /\ (answer = [] <-> trim s <> [] /\ test r (trim s) = true).
Proof.
  intros H1 H2 H3 answer. unfold answer.
  destruct (trim s) as [|c t]; cbn [str_falsy]; [|destruct (test r (c :: t)); cbn [negb]];
    intuition congruence.
Qed.

Lemma class_fails (p : code_unit -> bool) (t : jsstring) :
  t <> [] ->
  (test (RePlus (ReClass p)) t = false <-> Exists (fun c => p c = false) t).
Proof.
  intros Hne. rewrite <- not_true_iff_false, plus_class. unfold all_in. split.
  - intros H. assert (~ Forall (fun c => p c = true) t) as Hn by tauto.
    apply not_Forall_Exists in Hn; [|intros c; apply _].
    eapply Exists_impl; [exact Hn|]. intros c Hc. apply not_true_is_false, Hc.
  - intros He [_ Hf]. apply Exists_exists in He as (c & Hc & E).
    rewrite Forall_forall in Hf. specialize (Hf c Hc). congruence.
Qed.

(** X1. [validateName] gives exactly one of three answers: the name is
    required when the input is empty or all whitespace; no message when the
    trimmed input is made of letters and whitespace; the letters-only message
    when the trimmed input holds any other character. *)
Theorem validateName_outcomes (name : jsstring) :
  (validateName name = lit "Name is required"
     <-> Forall (fun c => is_space c = true) name)
  /\ (validateName name = []
     <-> trim name <> [] /\ Forall (fun c => is_letter c || is_space c = true) (trim name))
  /\ (validateName name = lit "Name must have letters and spaces only"
     <-> Exists (fun c => is_letter c || is_space c = false) (trim name)).
Proof.
  pose proof (validator_cases re_name (lit "Name is required")
                (lit "Name must have letters and spaces only") name
                ltac:(discriminate) ltac:(discriminate) ltac:(discriminate)) as (H1 & H2 & H3).
  fold (validateName name) in H1, H2, H3.
  split; [rewrite H1; apply trim_nil|]. split; [apply validateName_accepts|]. rewrite H2. split.
  - intros [Hne Ht]. apply class_fails; assumption.
  - intros He. assert (trim name <> []) as Hne by (intros E; rewrite E in He; inversion He).
    split; [exact Hne | apply class_fails; assumption].
Qed.

(** X2. [validateSID] gives exactly one of three answers: the id is required
    when the input is empty or all whitespace; no message when the trimmed
    input is made of decimal digits; the numeric message when the trimmed
    input holds any other character. *)
Theorem validateSID_outcomes (sid : jsstring) :
  (validateSID sid = lit "Student ID is required"
     <-> Forall (fun c => is_space c = true) sid)
  /\ (validateSID sid = []
     <-> trim sid <> [] /\ Forall (fun c => is_digit c = true) (trim sid))
  /\ (validateSID sid = lit "Student ID must be numeric"
     <-> Exists (fun c => is_digit c = false) (trim sid)).
Proof.
  pose proof (validator_cases re_digits (lit "Student ID is required")
                (lit "Student ID must be numeric") sid
                ltac:(discriminate) ltac:(discriminate) ltac:(discriminate)) as (H1 & H2 & H3).
  fold (validateSID sid) in H1, H2, H3.
  split; [rewrite H1; apply trim_nil|]. split; [apply validateSID_accepts|]. rewrite H2. split.
  - intros [Hne Ht]. apply class_fails; assumption.
  - intros He. assert (trim sid <> []) as Hne by (intros E; rewrite E in He; inversion He).
    split; [exact Hne | apply class_fails; assumption].
Qed.

Lemma count_none (s : jsstring) (x : code_unit) :
  Forall (fun c => c <> x) s -> count_occ N.eq_dec s x = 0%nat.
Proof.
  intros H. apply count_occ_not_In. rewrite Forall_forall in H.
  intros Hin. apply (H x); [apply list_elem_of_In, Hin | reflexivity].
Qed.

Lemma all_in_not_space_at (s : jsstring) :
  all_in not_space_at s ->
  Forall (fun c => is_space c = false) s /\ Forall (fun c => c <> 64) s.
Proof.
  intros [_ H]. split; (eapply Forall_impl; [exact H|]); intros c Hc;
    apply not_space_at_char in Hc; tauto.
Qed.

(** X3. [validateEmail] gives exactly one of three answers, and the one that
    lets the form through is given exactly to addresses of the shape
    local@domain.tld: such an address holds one at sign, no whitespace, and a
    dot after the at sign. *)
Theorem validateEmail_outcomes (email : jsstring) :
  (validateEmail email = lit "Email is required"
     <-> Forall (fun c => is_space c = true) email)
  /\ (validateEmail email = [] <-> email_shape (trim email))
  /\ (validateEmail email = lit "Enter a valid email"
     <-> trim email <> [] /\ ~ email_shape (trim email))
  /\ (validateEmail email = [] ->
      count_occ N.eq_dec (trim email) 64 = 1%nat
      /\ Forall (fun c => is_space c = false) (trim email)
      /\ exists a c, trim email = a ++ [46] ++ c /\ 64 ∈ a /\ c <> []).
Proof.
  pose proof (validator_cases re_email (lit "Email is required")
                (lit "Enter a valid email") email
                ltac:(discriminate) ltac:(discriminate) ltac:(discriminate)) as (H1 & H2 & H3).
  fold (validateEmail email) in H1, H2, H3.
  split; [rewrite H1; apply trim_nil|]. split; [apply validateEmail_accepts|]. split.
  - rewrite H2. split; intros [Hne Ht]; (split; [exact Hne|]).
    + intros Hs. apply validateEmail_accepts, H3 in Hs as [_ Hx]. congruence.
    + apply not_true_is_false. intros Hx. apply Ht, validateEmail_accepts, H3. tauto.
  - intros H. apply validateEmail_accepts in H as (a & b & c & E & Ha & Hb & Hc).
    destruct (all_in_not_space_at a Ha) as [Sa Na].
    destruct (all_in_not_space_at b Hb) as [Sb Nb].
    destruct (all_in_not_space_at c Hc) as [Sc Nc].
    rewrite E. split; [|split].
    + rewrite !count_occ_app, (count_none a), (count_none b), (count_none c) by assumption.
      reflexivity.
    + repeat (apply Forall_app; split); try assumption; repeat constructor.
    + exists (a ++ [64] ++ b), c. rewrite <- !app_assoc. split; [reflexivity|].
      split; [apply elem_of_app; right; left | apply Hc].
Qed.

Lemma validateEmail_outcomes_witness :
  count_occ N.eq_dec (trim (lit " ann@example.org ")) 64 = 1%nat
  /\ Forall (fun c => is_space c = false) (trim (lit " ann@example.org "))
  /\ exists a c, trim (lit " ann@example.org ") = a ++ [46] ++ c /\ 64 ∈ a /\ c <> [].
Proof.
  apply (validateEmail_outcomes (lit " ann@example.org ")). reflexivity.
Defined.

Lemma validateContact_shadowed_accepts (contact : jsstring) :
  validateContact_shadowed contact = []
  <-> Forall (fun c => is_digit c = true) (trim contact)
      /\ (10 <= length (trim contact))%nat.
Proof.
  unfold validateContact_shadowed.
  pose proof (plus_class is_digit (trim contact)) as Hp. fold re_digits in Hp.
  unfold all_in in Hp.
  destruct (trim contact) as [|c t] eqn:E; cbn [str_falsy].
  - split; [discriminate | simpl; lia].
  - destruct (test re_digits (c :: t)); cbn [negb].
    + destruct (Nat.ltb_spec (length (c :: t)) 10); split;
        [discriminate | lia | intros _; split; [apply Hp; reflexivity | lia] | reflexivity].
    + split; [discriminate|]. intros [Hf _].
      assert (false = true) by (apply Hp; split; [discriminate | exact Hf]). discriminate.
Qed.

Lemma validateContact_accepts (contact : jsstring) :
  validateContact contact = [] <-> length (trim contact) = 10%nat.
Proof.
  unfold validateContact. destruct (trim contact) as [|c t]; cbn [str_falsy].
  - split; discriminate.
  - destruct (Nat.eqb_spec (length (c :: t)) 10); cbn [negb]; split;
      try discriminate; congruence.
Qed.

(** X4. The declaration of [validateContact] that nothing calls accepts the
    texts that, once trimmed, are ten or more digits; the declaration in
    force and the unused one both accept exactly the texts that, once
    trimmed, are ten digits. *)
Theorem contact_declarations_agree_on (contact : jsstring) :
  (validateContact_shadowed contact = []
     <-> Forall (fun c => is_digit c = true) (trim contact)
         /\ (10 <= length (trim contact))%nat)
  /\ (validateContact contact = [] /\ validateContact_shadowed contact = []
     <-> Forall (fun c => is_digit c = true) (trim contact)
         /\ length (trim contact) = 10%nat).
Proof.
  pose proof (validateContact_shadowed_accepts contact) as Hs.
  pose proof (validateContact_accepts contact) as He.
  split; [exact Hs|]. rewrite Hs.
  rewrite He. split; [intros (H & Hf & _) | intros [Hf H]]; repeat split; try assumption; lia.
Qed.

(** ** The input filters *)

Lemma strip_keeps (keep : code_unit -> bool) (s : jsstring) :
  Forall (fun c => keep c = true) (strip keep s).
Proof.
  apply Forall_forall. intros c Hc. apply list_elem_of_In, filter_In in Hc. apply Hc.
Qed.

Lemma strip_id (keep : code_unit -> bool) (s : jsstring) :
  strip keep s = s <-> Forall (fun c => keep c = true) s.
Proof.
  split; [intros <-; apply strip_keeps|].
  induction 1 as [|c s Hc _ IH]; [reflexivity|]. unfold strip in *. simpl.
  rewrite Hc, IH. reflexivity.
Qed.

Lemma strip_nil (keep : code_unit -> bool) (s : jsstring) :
  strip keep s = [] <-> Forall (fun c => keep c = false) s.
Proof.
  unfold strip. induction s as [|c s IH]; simpl; [split; auto|].
  destruct (keep c) eqn:E.
  - split; [discriminate | intros H; inversion H; congruence].
  - rewrite IH. split; [intros H; constructor; assumption | intros H; inversion H; assumption].
Qed.

Lemma strip_some (keep : code_unit -> bool) (s : jsstring) :
  strip keep s <> [] <-> Exists (fun c => keep c = true) s.
Proof.
  unfold strip. induction s as [|c s IH]; simpl.
  - split; [congruence | inversion 1].
  - destruct (keep c) eqn:E.
    + split; [intros _; left; exact E | discriminate].
    + rewrite IH. split; [intros H; right; exact H | intros H; inversion H; congruence].
Qed.

Lemma digits_trim (s : jsstring) : Forall (fun c => is_digit c = true) s -> trim s = s.
Proof.
  intros H. apply trim_clean. eapply Forall_impl; [exact H|]. apply is_digit_not_space.
Qed.

(** X5. The text the sid listener writes back holds the digits of what was
    typed and nothing else; filtering it again changes nothing, and a text
    of digits passes unchanged. [validateSID] never answers it with the
    numeric message: it accepts it as soon as one digit was typed, and asks
    for an id otherwise. *)
Theorem sid_filter_feeds_validator (text : jsstring) :
  let v := sidInput_input text in
  Forall (fun c => is_digit c = true) v
  /\ sidInput_input v = v
  /\ (v = text <-> Forall (fun c => is_digit c = true) text)
  /\ (validateSID v = [] <-> Exists (fun c => is_digit c = true) text)
  /\ (validateSID v = lit "Student ID is required"
      <-> Forall (fun c => is_digit c = false) text)
  /\ validateSID v <> lit "Student ID must be numeric".
Proof.
  intros v. pose proof (strip_keeps is_digit text) as Hk. fold (sidInput_input text) in Hk.
  fold v in Hk. pose proof (digits_trim v Hk) as Ht.
  pose proof (validator_cases re_digits (lit "Student ID is required")
                (lit "Student ID must be numeric") v
                ltac:(discriminate) ltac:(discriminate) ltac:(discriminate)) as (H1 & H2 & H3).
  fold (validateSID v) in H1, H2, H3. rewrite Ht in H1, H2, H3.
  assert (v <> [] -> test re_digits v = true) as Hacc
    by (intros Hne; apply (plus_class is_digit); split; assumption).
  assert (v = [] <-> Forall (fun c => is_digit c = false) text) as Hnil by apply strip_nil.
  split; [exact Hk|]. split; [apply strip_id, Hk|]. split; [apply strip_id|].
  split; [|split].
  - rewrite H3, <- (strip_some is_digit text). fold (sidInput_input text). fold v.
    split; [intros [Hne _]; exact Hne | intros Hne; split; [exact Hne | apply Hacc, Hne]].
  - rewrite H1. exact Hnil.
  - intros E. apply H2 in E as [Hne Hf]. rewrite Hacc in Hf by exact Hne. discriminate.
Qed.

Lemma some_or_none (p : code_unit -> bool) (s : jsstring) :
  Exists (fun c => p c = true) s <-> ~ Forall (fun c => p c = false) s.
Proof. rewrite <- strip_some, <- strip_nil. reflexivity. Qed.

(** X6. The text the contact listener writes back holds the digits of what
    was typed and nothing else. [validateContact] accepts it exactly when
    ten digits were typed and asks for a number exactly when none was; what
    it accepts, the unused declaration accepts as well. *)
Theorem contact_filter_feeds_validator (text : jsstring) :
  let v := contactInput_input text in
  Forall (fun c => is_digit c = true) v
  /\ contactInput_input v = v
  /\ (validateContact v = [] <-> length v = 10%nat)
  /\ (validateContact v = lit "Contact number is required"
      <-> Forall (fun c => is_digit c = false) text)
  /\ (validateContact v = [] -> validateContact_shadowed v = []).
Proof.
  intros v. pose proof (strip_keeps is_digit text) as Hk.
  fold (contactInput_input text) in Hk. fold v in Hk. pose proof (digits_trim v Hk) as Ht.
  pose proof (validateContact_accepts v) as He. rewrite Ht in He.
  split; [exact Hk|]. split; [apply strip_id, Hk|]. split; [exact He|]. split.
  - rewrite <- (strip_nil is_digit text). fold (contactInput_input text). fold v.
    unfold validateContact. rewrite Ht. destruct v as [|c t]; cbn [str_falsy].
    + split; reflexivity.
    + destruct (negb _); split; discriminate.
  - intros H. apply validateContact_shadowed_accepts. rewrite Ht. apply He in H.
    split; [exact Hk | lia].
Qed.

Lemma contact_filter_feeds_validator_witness :
  validateContact_shadowed (contactInput_input (lit "(012) 345-6789")) = [].
Proof.
  apply (contact_filter_feeds_validator (lit "(012) 345-6789")). reflexivity.
Defined.

(** X7. The text the name listener writes back holds the letters and the
    whitespace of what was typed and nothing else. [validateName] never
    answers it with the letters-only message: it accepts it as soon as one
    letter was typed, and asks for a name otherwise. *)
Theorem name_filter_feeds_validator (text : jsstring) :
  let v := nameInput_input text in
  Forall (fun c => is_letter c || is_space c = true) v
  /\ nameInput_input v = v
  /\ (v = text <-> Forall (fun c => is_letter c || is_space c = true) text)
  /\ (validateName v = [] <-> Exists (fun c => is_letter c = true) text)
  /\ (validateName v = lit "Name is required"
      <-> Forall (fun c => is_letter c = false) text)
  /\ validateName v <> lit "Name must have letters and spaces only".
Proof.
  intros v. pose proof (strip_keeps (fun c => is_letter c || is_space c) text) as Hk.
  fold (nameInput_input text) in Hk. fold v in Hk.
  pose proof (trim_within _ v Hk) as Hw.
  pose proof (validator_cases re_name (lit "Name is required")
                (lit "Name must have letters and spaces only") v
                ltac:(discriminate) ltac:(discriminate) ltac:(discriminate)) as (H1 & H2 & H3).
  fold (validateName v) in H1, H2, H3.
  assert (trim v <> [] -> test re_name (trim v) = true) as Hacc
    by (intros Hne; apply (plus_class (fun c => is_letter c || is_space c)); split; assumption).
  assert (Forall (fun c => is_space c = true) v
          <-> Forall (fun c => is_letter c = false) text) as Hs.
  { rewrite !Forall_forall. split.
    - intros H c Hc. destruct (is_letter c) eqn:E; [|reflexivity].
      assert (c ∈ v) as Hv.
      { apply list_elem_of_In, filter_In. split; [apply list_elem_of_In, Hc|].
        rewrite E. reflexivity. }
      apply H in Hv. apply is_letter_not_space in E. congruence.
    - intros H c Hc. apply list_elem_of_In, filter_In in Hc as [Hc E].
      apply list_elem_of_In, H in Hc. rewrite Hc in E. exact E. }
  split; [exact Hk|]. split; [apply strip_id, Hk|]. split; [apply strip_id|].
  split; [|split].
  - rewrite H3, some_or_none, <- Hs, <- trim_nil.
    split; [intros [Hne _]; exact Hne | intros Hne; split; [exact Hne | apply Hacc, Hne]].
  - rewrite H1, trim_nil. exact Hs.
  - intros E. apply H2 in E as [Hne Hf]. rewrite Hacc in Hf by exact Hne. discriminate.
Qed.

(** ** Escaped text *)

Lemma replaceAll_app (c : code_unit) (r u v : jsstring) :
  replaceAll c r (u ++ v) = replaceAll c r u ++ replaceAll c r v.
Proof.
  induction u as [|x u IH]; [reflexivity|]. simpl. rewrite IH, app_assoc. reflexivity.
Qed.

Ltac split_on_specials c :=
  destruct (N.eqb_spec c 38) as [->|?]; [|
  destruct (N.eqb_spec c 60) as [->|?]; [|
  destruct (N.eqb_spec c 62) as [->|?]; [|
  destruct (N.eqb_spec c 34) as [->|?]; [|
  destruct (N.eqb_spec c 39) as [->|?]]]]].

Lemma escaped_one (c : code_unit) : escaped [c] = entity c.
Proof.
  split_on_specials c; try reflexivity.
  assert (forall k r, c <> k -> replaceAll k r [c] = [c]) as Hr.
  { intros k r Hk. apply N.eqb_neq in Hk. simpl. unfold cu_eqb. rewrite Hk. reflexivity. }
  unfold escaped, entity. rewrite !Hr by assumption.
  repeat match goal with
         | H : c <> ?k |- _ => apply N.eqb_neq in H; rewrite H; clear H
         end.
  reflexivity.
Qed.

Lemma escaped_app (u v : jsstring) : escaped (u ++ v) = escaped u ++ escaped v.
Proof. unfold escaped. rewrite !replaceAll_app. reflexivity. Qed.

Lemma escaped_cons (c : code_unit) (s : jsstring) : escaped (c :: s) = entity c ++ escaped s.
Proof. rewrite <- escaped_one. apply (escaped_app [c] s). Qed.

Lemma entity_cases (c : code_unit) :
  (is_special c = false /\ entity c = [c])
  \/ (is_special c = true /\ exists t, entity c = 38 :: t /\ t <> []
      /\ Forall (fun x => is_special x = false) t).
Proof.
  unfold is_special, entity.
  split_on_specials c;
    try (right; split; [reflexivity|]; eexists; split; [reflexivity|];
         split; [discriminate | repeat constructor]).
  left. repeat match goal with
               | H : c <> ?k |- _ => apply N.eqb_neq in H; rewrite H; clear H
               end.
  split; reflexivity.
Qed.

Lemma is_markup_special (c : code_unit) : is_special c = false -> is_markup c = false.
Proof.
  unfold is_special, is_markup. intros H. apply orb_false_iff in H as [H ->].
  apply orb_false_iff in H as [H ->]. apply orb_false_iff in H as [H ->].
  apply orb_false_iff in H as [_ ->]. reflexivity.
Qed.

Lemma escaped_no_markup (s : jsstring) : Forall (fun c => is_markup c = false) (escaped s).
Proof.
  induction s as [|c s IH]; [constructor|]. rewrite escaped_cons. apply Forall_app.
  split; [|exact IH].
  destruct (entity_cases c) as [[Hc ->]|(_ & t & -> & _ & Ht)].
  - repeat constructor. apply is_markup_special, Hc.
  - constructor; [reflexivity|]. eapply Forall_impl; [exact Ht|]. apply is_markup_special.
Qed.

Lemma escaped_length (s : jsstring) :
  (length s <= length (escaped s))%nat
  /\ (length (escaped s) = length s -> Forall (fun c => is_special c = false) s).
Proof.
  induction s as [|c s [IH1 IH2]]; [split; [reflexivity | constructor]|].
  rewrite escaped_cons, length_app.
  destruct (entity_cases c) as [[Hc ->]|(_ & t & -> & Hne & _)]; simpl.
  - split; [lia|]. intros E. constructor; [exact Hc | apply IH2; lia].
  - destruct t; [congruence|]. simpl. split; lia.
Qed.

Lemma escaped_plain (s : jsstring) : Forall (fun c => is_special c = false) s -> escaped s = s.
Proof.
  induction 1 as [|c s Hc _ IH]; [reflexivity|]. rewrite escaped_cons, IH.
  destruct (entity_cases c) as [[_ ->]|[E _]]; [reflexivity | congruence].
Qed.

Lemma entity_split (c d : code_unit) (u v : jsstring) :
  entity c ++ u = entity d ++ v -> c = d /\ u = v.
Proof.
  unfold entity.
  split_on_specials c; split_on_specials d; cbn;
    repeat match goal with
           | H : ?x <> ?k |- _ => apply N.eqb_neq in H; rewrite ?H
           end;
    cbn; intros E; inversion E; subst; try discriminate; try (split; reflexivity);
    repeat match goal with
           | H : (?k =? ?k) = false |- _ => rewrite N.eqb_refl in H; discriminate
           end.
Qed.

Lemma escaped_flat (s : jsstring) : escaped s = flat_map entity s.
Proof.
  induction s as [|c s IH]; [reflexivity|]. rewrite escaped_cons, IH. reflexivity.
Qed.

(** X8. The five chained replacements of [escapeHtml] act as one pass that
    writes an entity for each of the five characters and copies every other
    character: an ampersand a replacement has written is never escaped
    again. Two texts have the same escaped text only if they are the same
    text; a text comes out unchanged exactly when it holds none of the five
    characters, and no text comes out shorter. *)
Theorem escaped_once_and_reversibly (s t : jsstring) :
  escaped s = flat_map entity s
  /\ escaped (s ++ t) = escaped s ++ escaped t
  /\ (escaped s = escaped t <-> s = t)
  /\ (escaped s = s <-> Forall (fun c => is_special c = false) s)
  /\ (length s <= length (escaped s))%nat.
Proof.
  split; [apply escaped_flat|]. split; [apply escaped_app|]. split; [|split].
  - split; [|intros ->; reflexivity]. revert t.
    induction s as [|c s IH]; intros [|d t] E.
    + reflexivity.
    + rewrite escaped_cons in E.
      destruct (entity_cases d) as [[_ Hd]|(_ & u & Hd & _)]; rewrite Hd in E; discriminate.
    + rewrite escaped_cons in E.
      destruct (entity_cases c) as [[_ Hc]|(_ & u & Hc & _)]; rewrite Hc in E; discriminate.
    + rewrite !escaped_cons in E. apply entity_split in E as [-> E].
      rewrite (IH t E). reflexivity.
  - split; [|apply escaped_plain]. intros E. apply escaped_length. rewrite E. reflexivity.
  - apply escaped_length.
Qed.

Section TextFacts.
Variable Number_toString : spec_float -> jsstring.

Local Abbreviation text_of := (String_ Number_toString).

Lemma String_completes (v : value) :
  (exists t, text_of v = Ok t) <-> toString_ok v = true.
Proof.
  revert v. fix IH 1. intros [| |b|x|s|l|props]; simpl;
    try (split; [reflexivity | intros _; eexists; reflexivity]).
  - revert l. fix IHl 1. intros [|e l].
    + split; [reflexivity | intros _; eexists; reflexivity].
    + specialize (IH e). specialize (IHl l). cbn [forallb].
      rewrite andb_true_iff, <- IHl. unfold mbind, result_bind.
      match goal with
      | |- (exists t, match ?r with Ok _ => _ | Throw _ => _ end = Ok t) <-> _ =>
          assert ((exists a, r = Ok a)
                  <-> match e with VUndef | VNull => true | _ => toString_ok e end = true)
            as He
            by (destruct e; try exact IH;
                (split; [reflexivity | intros _; eexists; reflexivity]));
          rewrite <- He; clear He IH IHl; destruct r as [a|x]
      end.
      * destruct l as [|e' l'].
        -- split; [intros _; split; eexists; reflexivity | intros _; eexists; reflexivity].
        -- match goal with
           | |- (exists t, match ?j with Ok _ => _ | Throw _ => _ end = Ok t) <-> _ =>
               destruct j as [b|y]
           end.
           ++ split; [intros _; split; eexists; reflexivity | intros _; eexists; reflexivity].
           ++ split; [intros [? ?]; discriminate | intros [_ [? ?]]; discriminate].
      * split; [intros [? ?]; discriminate | intros [[? ?] _]; discriminate].
  - destruct (bool_decide _); simpl.
    + split; [intros [? ?]; discriminate | discriminate].
    + split; [reflexivity | intros _; eexists; reflexivity].
Qed.

(** X9. Whatever value [escapeHtml] is given, the text it returns holds no
    less-than sign, no greater-than sign and no quote of either kind. For a
    string it is the escaped string; for [undefined] the default applies and
    the text is empty; for other values it is the escaped text of
    [String(v)]. It throws exactly when [String(v)] throws. *)
Theorem escapeHtml_text_is_inert (v : value) :
  (forall t, escapeHtml_text Number_toString v = Ok t ->
             Forall (fun c => is_markup c = false) t)
  /\ (forall s, v = VStr s -> escapeHtml_text Number_toString v = Ok (escaped s))
  /\ (v = VUndef -> escapeHtml_text Number_toString v = Ok [])
  /\ (v = VNull -> escapeHtml_text Number_toString v = Ok (lit "null"))
  /\ ((exists t, escapeHtml_text Number_toString v = Ok t) <-> escapeHtml v = Ok tt).
Proof.
  split; [|split; [|split; [|split]]].
  - intros t H. assert (exists s, t = escaped s) as [s ->].
    { unfold escapeHtml_text in H. destruct v; try (destruct (text_of _) as [s|e] eqn:E);
        simpl in H; try discriminate; injection H as <-; eexists; reflexivity. }
    apply escaped_no_markup.
  - intros s ->. reflexivity.
  - intros ->. reflexivity.
  - intros ->. reflexivity.
  - assert ((exists t, escapeHtml_text Number_toString v = Ok t) <-> exists s, text_of v = Ok s)
      as ->.
    { unfold escapeHtml_text. destruct v; try (split; intros _; eexists; reflexivity);
        unfold mbind, result_bind; destruct (text_of _) as [s|e];
        split; intros [x Hx]; try discriminate; eexists; reflexivity. }
    rewrite String_completes. unfold escapeHtml, ToString.
    destruct v; try (split; reflexivity); destruct (toString_ok _);
      split; (reflexivity || discriminate).
Qed.

End TextFacts.

Lemma escapeHtml_text_is_inert_witness :
  Forall (fun c => is_markup c = false) (lit "&lt;b&gt;Tom &amp; &#039;Al&#039;&lt;/b&gt;").
Proof.
  apply (proj1 (escapeHtml_text_is_inert (fun _ => []) (VStr (lit "<b>Tom & 'Al'</b>")))).
  reflexivity.
Defined.

(** ** Ids as text *)

Lemma digit36_base36 (d : N) : d < 36 -> is_base36 (digit36 d) = true.
Proof.
  intros H. unfold is_base36, is_digit, in_range, digit36.
  destruct (N.ltb_spec d 10).
  - apply orb_true_iff. left. apply andb_true_iff. rewrite !N.leb_le. lia.
  - apply orb_true_iff. right. apply andb_true_iff. rewrite !N.leb_le. lia.
Qed.

Lemma digits36_base36 (fuel : nat) (n : N) (acc : jsstring) :
  Forall (fun c => is_base36 c = true) acc ->
  Forall (fun c => is_base36 c = true) (digits36 fuel n acc).
Proof.
  revert n acc. induction fuel as [|fuel IH]; intros n acc H; [exact H|].
  simpl. assert (Forall (fun c => is_base36 c = true) (digit36 (n mod 36) :: acc)) as H'.
  { constructor; [|exact H]. apply digit36_base36, N.mod_lt. discriminate. }
  destruct (n / 36 =? 0); [exact H' | apply IH, H'].
Qed.

Lemma toString36_base36 (t : Z) :
  match t with
  | Zneg _ => exists ds, toString36 t = 45 :: ds /\ Forall (fun c => is_base36 c = true) ds
  | _ => Forall (fun c => is_base36 c = true) (toString36 t)
  end.
Proof.
  destruct t as [|p|p]; simpl.
  - repeat constructor.
  - apply digits36_base36. constructor.
  - eexists. split; [reflexivity|]. apply digits36_base36. constructor.
Qed.

Lemma base36_plain (c : code_unit) : is_base36 c = true \/ c = 45 -> is_special c = false.
Proof.
  unfold is_base36, is_digit, in_range, is_special. intros H.
  assert (48 <= c <= 57 \/ 97 <= c <= 122 \/ c = 45) as Hc.
  { destruct H as [H|H]; [|lia]. apply orb_true_iff in H as [H|H];
      apply andb_true_iff in H as [H1 H2]; apply N.leb_le in H1, H2; lia. }
  repeat (apply orb_false_iff; split); apply N.eqb_neq; lia.
Qed.

(** X10. [toString36] writes an integer in digits [0-9a-z], with a minus
    sign in front of a negative one; read back in base 36 the digits give the
    integer, so two clock readings have the same text only if they are the
    same reading. *)
Theorem toString36_faithful (a b : Z) :
  (toString36 a = toString36 b <-> a = b)
  /\ ((0 <= a)%Z -> Forall (fun c => is_base36 c = true) (toString36 a)
                    /\ number36 (toString36 a) 0 = Z.to_N a)
  /\ ((a < 0)%Z -> exists ds, toString36 a = 45 :: ds
                              /\ Forall (fun c => is_base36 c = true) ds
                              /\ number36 ds 0 = Z.to_N (- a)).
Proof.
  split; [|split].
  - split; [|intros ->; reflexivity]. intros E.
    pose proof (toString36_number a) as Na. pose proof (toString36_number b) as Nb.
    pose proof (toString36_base36 a) as Ba. pose proof (toString36_base36 b) as Bb.
    destruct a as [|p|p], b as [|q|q]; try reflexivity.
    + rewrite <- E in Nb. rewrite Na in Nb. discriminate.
    + destruct Bb as (ds & Eb & _). rewrite <- E in Eb. discriminate.
    + rewrite E in Na. rewrite Nb in Na. discriminate.
    + rewrite E in Na. rewrite Nb in Na. simpl in Na. congruence.
    + destruct Bb as (ds & Eb & _). rewrite E, Eb in Ba. inversion Ba. discriminate.
    + destruct Ba as (ds & Ea & _). rewrite E in Ea. discriminate.
    + destruct Ba as (ds & Ea & _). rewrite <- E, Ea in Bb. inversion Bb. discriminate.
    + destruct Na as (ds & Ea & Na), Nb as (es & Eb & Nb). rewrite E, Eb in Ea.
      injection Ea as <-. rewrite Nb in Na. congruence.
  - intros H. pose proof (toString36_number a) as Na. pose proof (toString36_base36 a) as Ba.
    destruct a; [split; assumption.. | lia].
  - intros H. pose proof (toString36_number a) as Na. pose proof (toString36_base36 a) as Ba.
    destruct a as [|p|p]; try lia. destruct Na as (ds & Ea & Na), Ba as (es & Eb & Ba).
    rewrite Ea in Eb. injection Eb as <-. exists ds. repeat split; assumption.
Qed.

Lemma toString36_faithful_witness :
  Forall (fun c => is_base36 c = true) (toString36 t0)
  /\ number36 (toString36 t0) 0 = Z.to_N t0.
Proof. apply (toString36_faithful t0 t0). unfold t0. lia. Defined.

(** X11. When the random text is [0.] followed by base-36 digits, as
    [Math.random().toString(36)] writes it, the id [addStudent] builds is
    the clock's text followed by at most five of those digits. It holds none
    of the five characters [escapeHtml] replaces, so the attribute
    [data-id] the renderer writes without escaping carries the id itself. *)
Theorem new_id_is_plain (now : Z) (rnd : jsstring) :
  Forall (fun c => is_base36 c = true) (skipn 2 rnd) ->
  new_id now rnd = toString36 now ++ firstn 5 (skipn 2 rnd)
  /\ (length (new_id now rnd) <= length (toString36 now) + 5)%nat
  /\ Forall (fun c => is_base36 c = true \/ c = 45) (new_id now rnd)
  /\ Forall (fun c => is_special c = false) (new_id now rnd)
  /\ escaped (new_id now rnd) = new_id now rnd.
Proof.
  intros H.
  assert (Forall (fun c => is_base36 c = true \/ c = 45) (new_id now rnd)) as Hb.
  { unfold new_id, slice. apply Forall_app. split.
    - pose proof (toString36_base36 now) as B. destruct now as [|p|p].
      + eapply Forall_impl; [exact B | tauto].
      + eapply Forall_impl; [exact B | tauto].
      + destruct B as (ds & -> & B). constructor; [right; reflexivity|].
        eapply Forall_impl; [exact B | tauto].
    - apply Forall_take. eapply Forall_impl; [exact H | tauto]. }
  assert (Forall (fun c => is_special c = false) (new_id now rnd)) as Hp.
  { eapply Forall_impl; [exact Hb|]. apply base36_plain. }
  split; [reflexivity|]. split; [|split; [exact Hb | split; [exact Hp | apply escaped_plain, Hp]]].
  unfold new_id, slice. rewrite length_app, length_firstn. lia.
Qed.

Lemma new_id_is_plain_witness :
  new_id t0 r0 = lit "loyw3v284fzyo" /\ escaped (new_id t0 r0) = new_id t0 r0.
Proof.
  assert (Forall (fun c => is_base36 c = true) (skipn 2 r0)) as H
    by (repeat constructor).
  split; [reflexivity | apply (new_id_is_plain t0 r0 H)].
Defined.

(** ** Frames: what a handler leaves alone *)

Section Frame.
Context {B : Type}.
Variable proj : state -> B.
Hypothesis log_blind : forall e st, proj (add_log e st) = proj st.

Lemma preserves_ret {A : Type} (a : A) : preserves proj (mret a).
Proof. intros st. reflexivity. Qed.

Lemma preserves_lift {A : Type} (r : result A) : preserves proj (lift r).
Proof. intros st. reflexivity. Qed.

Lemma preserves_gets {A : Type} (f : state -> A) : preserves proj (gets f).
Proof. intros st. reflexivity. Qed.

Lemma preserves_modify (f : state -> state) :
  (forall st, proj (f st) = proj st) -> preserves proj (modify f).
Proof. intros H st. apply H. Qed.

Lemma preserves_emit (e : effect) : preserves proj (emit e).
Proof. intros st. apply log_blind. Qed.

Lemma preserves_bind {A C : Type} (m : M A) (f : A -> M C) :
  preserves proj m -> (forall a, preserves proj (f a)) -> preserves proj (m ≫= f).
Proof.
  intros Hm Hf st. unfold_bind. specialize (Hm st).
  destruct (m st) as [[a|e] st1]; simpl in *; [rewrite Hf|]; exact Hm.
Qed.

Lemma preserves_renderStudents : preserves proj renderStudents.
Proof.
  intros st. rewrite renderStudents_run.
  destruct (forEach render_row (students st)); apply log_blind.
Qed.

Lemma then_preserves {A C : Type} (m : M A) (k : M C) (st : state) :
  preserves proj k -> proj (snd ((m;; k) st)) = proj (snd (m st)).
Proof.
  intros Hk. unfold_bind. destruct (m st) as [[a|e] st1]; [apply Hk | reflexivity].
Qed.

End Frame.

Ltac frame :=
  repeat first
    [ apply preserves_ret
    | apply preserves_lift
    | apply preserves_gets
    | apply preserves_emit; intros ? ?; reflexivity
    | apply preserves_renderStudents; intros ? ?; reflexivity
    | apply preserves_modify; intros ?; reflexivity
    | apply preserves_bind; [|intros ?]
    | match goal with
      | |- preserves _ (if ?b then _ else _) => destruct b
      | |- preserves _ (match ?x with _ => _ end) => destruct x
      end ].

Lemma clearForm_keeps_slot : preserves slot clearForm.
Proof. unfold clearForm, showErrors. frame. Qed.

Lemma clearForm_keeps_students : preserves students clearForm.
Proof. unfold clearForm, showErrors. frame. Qed.

Lemma startEdit_keeps_slot (id : jsstring) : preserves slot (startEdit id).
Proof. unfold startEdit, setInput. frame. Qed.

Lemma startEdit_keeps_errs (id : jsstring) : preserves errs (startEdit id).
Proof. unfold startEdit, setInput. frame. Qed.

Lemma deleteStudent_keeps_editingId (id : jsstring) (c : bool) :
  preserves editingId (deleteStudent id c).
Proof. unfold deleteStudent, saveToStorage. frame. Qed.

Lemma deleteStudent_keeps_saveBtn (id : jsstring) (c : bool) :
  preserves saveBtn (deleteStudent id c).
Proof. unfold deleteStudent, saveToStorage. frame. Qed.

Lemma deleteStudent_keeps_errs (id : jsstring) (c : bool) :
  preserves errs (deleteStudent id c).
Proof. unfold deleteStudent, saveToStorage. frame. Qed.

(** ** The slot follows the roster *)

Lemma stored_then_cleared (l : list value) (st : state) :
  in_sync (snd ((renderStudents;; clearForm) (committed l st))).
Proof.
  unfold in_sync.
  rewrite (then_preserves slot) by apply clearForm_keeps_slot.
  rewrite (then_preserves students) by apply clearForm_keeps_students.
  rewrite renderStudents_slot, renderStudents_students. reflexivity.
Qed.

Lemma step_sync (st : state) (ev : event) :
  (students (step st ev) = students st /\ slot (step st ev) = slot st)
  \/ in_sync (step st ev).
Proof.
  destruct ev as [form now rnd|id|id [|]|]; unfold step, handle.
  - destruct (any_error (form_errors form)) eqn:V.
    + apply any_error_true in V. rewrite onSubmit_invalid by exact V. left. split; reflexivity.
    + apply any_error_false in V. rewrite onSubmit_valid by exact V. simpl.
      destruct (some _ (students st)) as [[|]|e] eqn:D; try (left; split; reflexivity).
      assert (in_sync (snd ((addStudent (data_of form) now rnd;; clearForm)
                              (add_log PreventDefault st)))) as Hadd
        by apply stored_then_cleared.
      destruct (editingId st) as [id|]; [destruct (str_falsy id)|]; try (right; exact Hadd).
      destruct (findIndex (id_is id) (students st)) as [[i|]|e] eqn:F.
      * apply findIndex_Some in F as (pre & s & post & Hh & _).
        assert (first_hit (id_is id) (students (add_log PreventDefault st)) pre s post)
          as Hh' by exact Hh.
        right. unfold mbind at 1. unfold M_bind at 1.
        rewrite (updateStudent_hit _ _ _ _ _ _ Hh'). apply stored_then_cleared.
      * apply findIndex_None in F. left.
        rewrite (then_preserves students) by apply clearForm_keeps_students.
        rewrite (then_preserves slot) by apply clearForm_keeps_slot.
        rewrite updateStudent_miss by exact F. split; reflexivity.
      * left.
        rewrite (then_preserves students) by apply clearForm_keeps_students.
        rewrite (then_preserves slot) by apply clearForm_keeps_slot.
        unfold updateStudent, gets, lift. unfold_bind. simpl. rewrite F. split; reflexivity.
  - left. split; [apply keeps_startEdit | apply startEdit_keeps_slot].
  - destruct (filter_ (id_is_not id) (students st)) as [kept|e] eqn:F.
    + right. assert (deleteStudent id true st = renderStudents (committed kept st)) as E.
      { unfold deleteStudent, gets, lift. simpl. unfold_bind. rewrite F. reflexivity. }
      rewrite E. unfold in_sync. rewrite renderStudents_slot, renderStudents_students.
      reflexivity.
    + left. assert (deleteStudent id true st = (Throw e, st)) as E.
      { unfold deleteStudent, gets, lift. simpl. unfold_bind. rewrite F. reflexivity. }
      rewrite E. split; reflexivity.
  - left. split; reflexivity.
  - left. split; [apply clearForm_keeps_students | apply clearForm_keeps_slot].
Qed.

Lemma run_sync (evs : list event) (st : state) : in_sync st -> in_sync (run evs st).
Proof.
  revert st. induction evs as [|ev evs IH]; intros st H; [exact H|].
  simpl. apply IH. destruct (step_sync st ev) as [[E1 E2]|H']; [|exact H'].
  unfold in_sync. rewrite E1, E2. exact H.
Qed.

(** X12. No handler changes the roster without writing it to the slot:
    after any event, either roster and slot are both as they were, or the
    slot holds the roster of the moment. So once the slot holds the roster,
    it holds it after every sequence of events. *)
Theorem every_change_is_stored (st : state) (ev : event) :
  ((students (step st ev) = students st /\ slot (step st ev) = slot st)
   \/ in_sync (step st ev))
  /\ (forall evs, in_sync st -> in_sync (run evs st)).
Proof. split; [apply step_sync | intros evs; apply run_sync]. Qed.

Lemma every_change_is_stored_witness :
  in_sync (run distinct_adds (step blank_page (Submit bob t0 r0))).
Proof.
  apply (every_change_is_stored (step blank_page (Submit bob t0 r0)) ClearClick).
  reflexivity.
Defined.

Lemma load_serialized (JSON_parse : jsstring -> result value)
    (JSON_stringify : list value -> jsstring) (st : state) (l : list value) :
  slot st = Some (Serialized l) ->
  JSON_stringify l <> [] ->
  JSON_parse (JSON_stringify l) = Ok (VArr l) ->
  loadFromStorage JSON_parse JSON_stringify st = (Ok l, st).
Proof.
  intros Hs Hne Hp. rewrite loadFromStorage_run. unfold getItem. rewrite Hs, Hp.
  destruct (JSON_stringify l); [congruence | reflexivity].
Qed.

(** X13. A roster an event has changed survives a reload: a page load that
    finds the slot as the event left it starts with the roster the event
    left, provided the text [JSON.stringify] writes for that roster is not
    empty and [JSON.parse] reads it back as that roster. *)
Theorem reload_restores_roster (JSON_parse : jsstring -> result value)
    (JSON_stringify : list value -> jsstring) (st : state) (ev : event) (st0 : state) :
  students (step st ev) <> students st ->
  JSON_stringify (students (step st ev)) <> [] ->
  JSON_parse (JSON_stringify (students (step st ev))) = Ok (VArr (students (step st ev))) ->
  slot st0 = slot (step st ev) ->
  loadFromStorage JSON_parse JSON_stringify st0 = (Ok (students (step st ev)), st0)
  /\ students (snd (init JSON_parse JSON_stringify st0)) = students (step st ev).
Proof.
  intros Hch Hne Hp Hs.
  assert (loadFromStorage JSON_parse JSON_stringify st0 = (Ok (students (step st ev)), st0))
    as E.
  { apply load_serialized; [|exact Hne | exact Hp]. rewrite Hs.
    destruct (step_sync st ev) as [[E _]|H]; [congruence | exact H]. }
  split; [exact E|]. unfold init. unfold mbind at 1. unfold M_bind at 1. rewrite E.
  rewrite then_keeps by auto with keeps. reflexivity.
Qed.

Lemma reload_restores_roster_witness :
  students (snd (init ann_parse plain_stringify
                   (fresh_page (slot (step blank_page (Submit ann t0 r0)))
                      (Shown [] [] [] []) (lit "Save"))))
  = ann_alone.
Proof.
  apply (reload_restores_roster ann_parse plain_stringify blank_page (Submit ann t0 r0)
           (fresh_page (slot (step blank_page (Submit ann t0 r0)))
              (Shown [] [] [] []) (lit "Save"))).
  - discriminate.
  - discriminate.
  - reflexivity.
  - reflexivity.
Defined.

(** ** Ids and order *)

(** X14. No event changes the id of a record or the order of the records.
    A submit leaves the sequence of ids as it was or appends the id it drew;
    a delete leaves a subsequence; an edit click and a clear leave it as it
    was. *)
Theorem ids_never_reorder (st : state) (ev : event) :
  let ids := omap id_of (students st) in
  let ids' := omap id_of (students (step st ev)) in
  match ev with
  | Submit _ now rnd => ids' = ids \/ ids' = ids ++ [new_id now rnd]
  | DeleteClick _ _ => ids' `sublist_of` ids
  | _ => ids' = ids
  end.
Proof.
  intros ids ids'. unfold ids, ids'. clear ids ids'.
  pose proof (step_students st ev) as H.
  remember (students (step st ev)) as l eqn:El. clear El.
  destruct H as [ev|form now rnd _ _|form now rnd id pre s post _ _ _ (Hl & _ & Hs)|id kept Hk].
  - destruct ev; [left | | |]; reflexivity.
  - right. rewrite omap_app. simpl. reflexivity.
  - left. apply id_is_true in Hs. rewrite Hl, !omap_app. simpl. rewrite Hs. reflexivity.
  - apply omap_sublist, Hk.
Qed.

(** ** Submits and edits that go through *)

Lemma renders_replaced (pre post : list value) (s : value) (id : jsstring) (d : fields) :
  renders (pre ++ s :: post) -> renders (pre ++ student id d :: post).
Proof.
  intros H. apply renders_app in H as [Hpre Hpost]. apply renders_app. split; [exact Hpre|].
  change (s :: post) with ([s] ++ post) in Hpost. apply renders_app in Hpost as [_ Hpost].
  change (renders ([student id d] ++ post)). apply renders_app. split; [reflexivity | exact Hpost].
Qed.

Lemma add_run (d : fields) (now : Z) (rnd : jsstring) (st : state) :
  renders (students st) ->
  (addStudent d now rnd;; clearForm) st
  = (Ok tt, cleared (rendered (committed (students st ++ [student (new_id now rnd) d]) st))).
Proof.
  intros H. unfold mbind, M_bind. rewrite addStudent_run, renderStudents_ok.
  - apply clearForm_run.
  - apply renders_app. split; [exact H | reflexivity].
Qed.

Lemma update_run (id : jsstring) (d : fields) (st : state) pre s post :
  renders (students st) ->
  first_hit (id_is id) (students st) pre s post ->
  (updateStudent id d;; clearForm) st
  = (Ok tt, cleared (rendered (committed (pre ++ student id d :: post) st))).
Proof.
  intros H Hh. unfold mbind, M_bind.
  rewrite (updateStudent_hit _ _ _ _ _ _ Hh), renderStudents_ok.
  - apply clearForm_run.
  - destruct Hh as (Hl & _). simpl. rewrite Hl in H. eapply renders_replaced, H.
Qed.

Lemma edited_or_not (e : option jsstring) (s : value) : edited e s \/ ~ edited e s.
Proof.
  destruct e as [i|]; unfold edited.
  - destruct (id_of s) as [j|]; [|right; discriminate].
    destruct (decide (j = i)) as [->|Hn]; [left; reflexivity | right; congruence].
  - destruct (get s Kid) as [[]|]; (left; reflexivity) || (right; discriminate).
Qed.

Lemma duplicate_free (sid : jsstring) (e : option jsstring) (l : list value) :
  Forall readable l ->
  (some (is_duplicate sid e) l = Ok false <-> sid_free sid e l).
Proof.
  intros Hr. rewrite some_false. unfold rejects, sid_free. rewrite !Forall_forall.
  rewrite Forall_forall in Hr.
  split; intros H s Hs; specialize (H s Hs);
    destruct (is_duplicate_readable sid e s (Hr s Hs)) as (b & Eb & Hb).
  - intros Hsid. destruct (edited_or_not e s) as [He|He]; [exact He|].
    assert (b = true) as -> by (apply Hb; split; assumption). congruence.
  - rewrite Eb. destruct b; [|reflexivity]. destruct (proj1 Hb eq_refl) as [Hsid He].
    destruct (He (H Hsid)).
Qed.

Lemma find_hit {A : Type} (p : A -> result bool) (l pre : list A) (x : A) (post : list A) :
  first_hit p l pre x post -> find p l = Ok (Some x).
Proof.
  intros (-> & Hpre & Hx). induction Hpre as [|y pre Hy _ IH]; simpl.
  - rewrite Hx. reflexivity.
  - rewrite Hy. exact IH.
Qed.

Lemma find_total {A : Type} (p : A -> result bool) (l : list A) :
  Forall (fun x => exists b, p x = Ok b) l ->
  find p l = Ok None \/ exists pre x post, first_hit p l pre x post.
Proof.
  induction 1 as [|y l [b Hy] _ IH]; [left; reflexivity|].
  destruct b.
  - right. exists [], y, l. split; [reflexivity|]. split; [constructor | exact Hy].
  - destruct IH as [IH|(pre & x & post & -> & Hpre & Hx)].
    + left. simpl. rewrite Hy. exact IH.
    + right. exists (y :: pre), x, post. split; [reflexivity|].
      split; [constructor; assumption | exact Hx].
Qed.

Lemma escapeHtml_ToString (v : value) (u : unit) : escapeHtml v = Ok u -> ToString v = Ok tt.
Proof. destruct u, v; intros H; try reflexivity; exact H. Qed.

Lemma field_get (s : value) (k : key) : readable s -> get s k = Ok (field s k).
Proof. unfold field. destruct s; simpl; intros H; (reflexivity || destruct H). Qed.

Lemma render_row_fields (s : value) (k : key) :
  render_row s = Ok tt -> ToString (field s k) = Ok tt.
Proof.
  intros H. pose proof (render_row_readable s H) as Hr.
  unfold render_row in H. rewrite !(field_get s) in H by exact Hr. unfold_bind.
  destruct (escapeHtml (field s Kname)) as [u1|] eqn:E1; [|discriminate].
  destruct (escapeHtml (field s Ksid)) as [u2|] eqn:E2; [|discriminate].
  destruct (escapeHtml (field s Kemail)) as [u3|] eqn:E3; [|discriminate].
  destruct (escapeHtml (field s Kcontact)) as [u4|] eqn:E4; [|discriminate].
  destruct (ToString (field s Kid)) as [[]|] eqn:E5; [|discriminate].
  destruct k; [exact E5 | eapply escapeHtml_ToString; eassumption..].
Qed.

Lemma setInput_run (k : key) (v : value) (st : state) :
  ToString v = Ok tt -> setInput k v st = (Ok tt, add_log (SetInput k v) st).
Proof.
  intros H. unfold setInput, lift, emit, modify. unfold_bind.
  destruct v; try rewrite H; reflexivity.
Qed.

Lemma startEdit_found (id : jsstring) (st : state) (s : value) :
  find (id_is id) (students st) = Ok (Some s) ->
  render_row s = Ok tt ->
  startEdit id st = (Ok tt, editing id s st).
Proof.
  intros Hf Hrow. pose proof (render_row_readable s Hrow) as Hr.
  assert (truthy s = true) as Ht.
  { apply find_Some in Hf as [Hs _]. apply id_is_true in Hs.
    destruct s; try discriminate. reflexivity. }
  unfold startEdit, gets, lift, modify, emit. unfold mbind at 1 2. unfold M_bind at 1 2.
  rewrite Hf, Ht. cbn [negb].
  unfold mbind, M_bind. cbn [modify]. rewrite !(field_get s) by exact Hr.
  rewrite setInput_run by apply render_row_fields, Hrow.
  rewrite setInput_run by apply render_row_fields, Hrow.
  rewrite setInput_run by apply render_row_fields, Hrow.
  rewrite setInput_run by apply render_row_fields, Hrow.
  reflexivity.
Qed.

Lemma startEdit_none (id : jsstring) (st : state) :
  find (id_is id) (students st) = Ok None -> startEdit id st = (Ok tt, st).
Proof.
  intros Hf. unfold startEdit, gets, lift. unfold_bind. rewrite Hf. reflexivity.
Qed.

Lemma renders_elem (l : list value) (s : value) : renders l -> s ∈ l -> render_row s = Ok tt.
Proof.
  unfold renders. rewrite forEach_Ok, Forall_forall. intros H Hs. apply H, Hs.
Qed.

Lemma readable_id_is (id : jsstring) (l : list value) :
  Forall readable l -> Forall (fun s => exists b, id_is id s = Ok b) l.
Proof. intros H. eapply Forall_impl; [exact H|]. intros s. apply id_is_total. Qed.

Lemma hit_of_parts (id : jsstring) (l pre : list value) (s : value) (post : list value) :
  Forall readable l ->
  l = pre ++ s :: post -> Forall (fun x => id_of x <> Some id) pre -> id_of s = Some id ->
  first_hit (id_is id) l pre s post.
Proof.
  intros Hr Hl Hpre Hs. split; [exact Hl|]. split; [|apply id_is_true, Hs].
  apply rejects_id_is. rewrite Hl in Hr. apply Forall_app in Hr as [Hr _].
  rewrite Forall_forall in *. intros x Hx. split; [apply Hr, Hx | apply Hpre, Hx].
Qed.

(** X15. On a roster that renders, [startEdit] with an id no record carries
    returns and changes nothing. With an id some record carries it takes the
    first such record: it writes the record's four fields into the inputs,
    makes the id the edit id and labels the button Update; roster, slot and
    error texts stay as they were. *)
Theorem startEdit_opens_session (id : jsstring) (st : state) :
  renders (students st) ->
  (Forall (fun s => id_of s <> Some id) (students st) -> startEdit id st = (Ok tt, st))
  /\ (forall pre s post,
        students st = pre ++ s :: post ->
        Forall (fun x => id_of x <> Some id) pre ->
        id_of s = Some id ->
        let st' := snd (startEdit id st) in
        startEdit id st = (Ok tt, st')
        /\ editingId st' = Some id
        /\ saveBtn st' = lit "Update"
        /\ log st' = log st ++ [SetInput Kname (field s Kname); SetInput Ksid (field s Ksid);
                                SetInput Kemail (field s Kemail);
                                SetInput Kcontact (field s Kcontact); ScrollTop]
        /\ students st' = students st
        /\ slot st' = slot st
        /\ errs st' = errs st).
Proof.
  intros H. pose proof (renders_readable _ H) as Hr. split.
  - intros Hn. apply startEdit_none, find_None, rejects_id_is.
    rewrite Forall_forall in *. intros x Hx. split; [apply Hr, Hx | apply Hn, Hx].
  - intros pre s post Hl Hpre Hs st'.
    pose proof (hit_of_parts id _ pre s post Hr Hl Hpre Hs) as Hh.
    assert (startEdit id st = (Ok tt, editing id s st)) as E.
    { apply startEdit_found; [apply (find_hit _ _ _ _ _ Hh)|].
      apply (renders_elem _ _ H). rewrite Hl. apply elem_of_app. right. left. }
    unfold st'. rewrite E. simpl. rewrite <- !app_assoc. repeat split; reflexivity.
Qed.

Lemma startEdit_opens_session_witness :
  editingId (snd (startEdit (lit "b") two_records_page)) = Some (lit "b")
  /\ startEdit (lit "zz") two_records_page = (Ok tt, two_records_page).
Proof.
  pose proof (startEdit_opens_session (lit "b") two_records_page eq_refl) as [_ H].
  pose proof (startEdit_opens_session (lit "zz") two_records_page eq_refl) as [H' _].
  split.
  - apply (H [student (lit "a") ann] (student (lit "b") bob) []); [reflexivity | | reflexivity].
    repeat constructor. discriminate.
  - apply H'. repeat constructor; discriminate.
Defined.

Lemma submit_add_run (form : fields) (now : Z) (rnd : jsstring) (st : state) :
  renders (students st) ->
  editingId st = None \/ editingId st = Some [] ->
  no_message (messages form) ->
  sid_free (trim (f_sid form)) (editingId st) (students st) ->
  onSubmit form now rnd st
  = (Ok tt, stored_as (students st ++ [student (new_id now rnd) (data_of form)]) st).
Proof.
  intros H He Hv Hfree. rewrite onSubmit_valid by exact Hv. simpl.
  apply duplicate_free in Hfree; [|apply renders_readable, H]. rewrite Hfree.
  assert (renders (students (add_log PreventDefault st))) as H' by exact H.
  destruct He as [-> | ->]; simpl; apply (add_run _ _ _ _ H').
Qed.

Lemma submit_update_run (id : jsstring) (form : fields) (now : Z) (rnd : jsstring)
    (st : state) pre s post :
  renders (students st) ->
  editingId st = Some id -> id <> [] ->
  first_hit (id_is id) (students st) pre s post ->
  no_message (messages form) ->
  sid_free (trim (f_sid form)) (Some id) (students st) ->
  onSubmit form now rnd st
  = (Ok tt, stored_as (pre ++ student id (data_of form) :: post) st).
Proof.
  intros H He Hid Hh Hv Hfree. rewrite onSubmit_valid by exact Hv. simpl.
  apply duplicate_free in Hfree; [|apply renders_readable, H]. rewrite He, Hfree.
  destruct id as [|c id]; [congruence|]. simpl.
  assert (renders (students (add_log PreventDefault st))) as H' by exact H.
  apply (update_run _ _ _ pre s post H'). exact Hh.
Qed.

(** X16. On a roster that renders and with no edit in progress, a submit
    that passes the four validators and whose sid no record carries returns
    normally and appends one record at the end: the trimmed fields under the
    id drawn from clock and random text. The new roster is written to the
    slot and rendered, the form is reset to Add mode, and every record that
    was there keeps its place. *)
Theorem valid_submit_appends (form : fields) (now : Z) (rnd : jsstring) (st : state) :
  renders (students st) ->
  editingId st = None ->
  no_message (messages form) ->
  Forall (fun s => sid_of s <> Some (trim (f_sid form))) (students st) ->
  let l' := students st ++ [student (new_id now rnd) (data_of form)] in
  let st' := step st (Submit form now rnd) in
  onSubmit form now rnd st = (Ok tt, st')
  /\ students st' = l'
  /\ (forall j, (j < length (students st))%nat -> students st' !! j = students st !! j)
  /\ length (students st') = S (length (students st))
  /\ slot st' = Some (Serialized l')
  /\ log st' = log st ++ [PreventDefault; SetItem l'; Render l' (5 <? length l')%nat; FormReset]
  /\ editingId st' = None
  /\ saveBtn st' = lit "Save"
  /\ errs st' = Shown [] [] [] [].
Proof.
  intros H He Hv Hn l' st'.
  assert (onSubmit form now rnd st = (Ok tt, stored_as l' st)) as E.
  { apply submit_add_run; [exact H | left; exact He | exact Hv|].
    unfold sid_free. eapply Forall_impl; [exact Hn|]. intros s Hs Hs'. destruct (Hs Hs'). }
  unfold st', step, handle. rewrite E. simpl. rewrite <- !app_assoc.
  split; [reflexivity|]. split; [reflexivity|]. split; [|split].
  - intros j Hj. unfold l'. apply lookup_app_l, Hj.
  - unfold l'. rewrite length_app. simpl. lia.
  - repeat split; reflexivity.
Qed.

Lemma valid_submit_appends_witness :
  students (step two_records_page (Submit ann_new_sid t0 r0))
  = two_records ++ [student (new_id t0 r0) ann_new_sid].
Proof.
  apply (valid_submit_appends ann_new_sid t0 r0 two_records_page).
  - reflexivity.
  - reflexivity.
  - repeat split.
  - repeat constructor; discriminate.
Defined.

Lemma edit_run (id : jsstring) (form : fields) (now : Z) (rnd : jsstring) (st : state)
    pre s post :
  renders (students st) ->
  students st = pre ++ s :: post ->
  Forall (fun x => id_of x <> Some id) pre ->
  id_of s = Some id ->
  id <> [] ->
  no_message (messages form) ->
  sid_free (trim (f_sid form)) (Some id) (students st) ->
  step st (EditClick id) = editing id s st
  /\ onSubmit form now rnd (editing id s st)
     = (Ok tt, stored_as (pre ++ student id (data_of form) :: post) (editing id s st)).
Proof.
  intros H Hl Hpre Hs Hid Hv Hfree. pose proof (renders_readable _ H) as Hr.
  pose proof (hit_of_parts id _ pre s post Hr Hl Hpre Hs) as Hh.
  assert (startEdit id st = (Ok tt, editing id s st)) as E.
  { apply startEdit_found; [apply (find_hit _ _ _ _ _ Hh)|].
    apply (renders_elem _ _ H). rewrite Hl. apply elem_of_app. right. left. }
  split; [unfold step, handle; rewrite E; reflexivity|].
  apply (submit_update_run id form now rnd _ pre s post); try assumption; reflexivity.
Qed.

(** X17. An edit click followed by a submit replaces the record in place.
    On a roster that renders, with the id carried by a record and not empty,
    the click makes the id the edit id; a submit that then passes the four
    validators, and whose sid no record with another id carries, puts the
    trimmed fields under the same id at the record's position, stores and
    renders the roster, and returns the form to Add mode. No record is added
    and no other record changes. *)
Theorem edit_then_submit_updates (id : jsstring) (form : fields) (now : Z) (rnd : jsstring)
    (st : state) (pre : list value) (s : value) (post : list value) :
  renders (students st) ->
  students st = pre ++ s :: post ->
  Forall (fun x => id_of x <> Some id) pre ->
  id_of s = Some id ->
  id <> [] ->
  no_message (messages form) ->
  Forall (fun x => sid_of x = Some (trim (f_sid form)) -> id_of x = Some id) (students st) ->
  let st1 := step st (EditClick id) in
  let st2 := step st1 (Submit form now rnd) in
  let l' := pre ++ student id (data_of form) :: post in
  editingId st1 = Some id
  /\ students st1 = students st
  /\ onSubmit form now rnd st1 = (Ok tt, st2)
  /\ students st2 = l'
  /\ length (students st2) = length (students st)
  /\ (forall j, j <> length pre -> students st2 !! j = students st !! j)
  /\ slot st2 = Some (Serialized l')
  /\ editingId st2 = None
  /\ saveBtn st2 = lit "Save".
Proof.
  intros H Hl Hpre Hs Hid Hv Hfree st1 st2 l'.
  destruct (edit_run id form now rnd st pre s post H Hl Hpre Hs Hid Hv Hfree) as [E1 E2].
  assert (st2 = stored_as l' st1) as E3.
  { unfold st2, step at 1, handle. unfold st1. rewrite E1, E2. reflexivity. }
  unfold st1 in *. rewrite E3, E1. simpl. rewrite Hl.
  split; [reflexivity|]. split; [reflexivity|]. split; [exact E2|]. split; [reflexivity|].
  split; [|split; [|repeat split; reflexivity]].
  - unfold l'. rewrite !length_app. reflexivity.
  - intros j Hj. unfold l'. destruct (decide (j < length pre)%nat) as [Hlt|Hge].
    + rewrite !lookup_app_l by exact Hlt. reflexivity.
    + rewrite !lookup_app_r by lia.
      destruct (j - length pre)%nat as [|k] eqn:K; [lia | reflexivity].
Qed.

Lemma edit_then_submit_updates_witness :
  students (step (step two_records_page (EditClick (lit "b"))) (Submit ann_new_sid t0 r0))
  = [student (lit "a") ann; student (lit "b") ann_new_sid].
Proof.
  apply (edit_then_submit_updates (lit "b") ann_new_sid t0 r0 two_records_page
           [student (lit "a") ann] (student (lit "b") bob) []).
  - reflexivity.
  - reflexivity.
  - repeat constructor. discriminate.
  - reflexivity.
  - discriminate.
  - repeat split.
  - repeat constructor; discriminate.
Defined.

(** X18. Opening a record for editing and submitting its fields as the
    form shows them leaves the roster as it was. The record is one the page
    wrote, its fields carry no outer whitespace and pass the validators, and
    no record with another id carries its sid. *)
Theorem edit_without_change_keeps_roster (id : jsstring) (d : fields) (now : Z)
    (rnd : jsstring) (st : state) (pre post : list value) :
  renders (students st) ->
  students st = pre ++ student id d :: post ->
  Forall (fun x => id_of x <> Some id) pre ->
  id <> [] ->
  data_of d = d ->
  no_message (messages d) ->
  Forall (fun x => sid_of x = Some (f_sid d) -> id_of x = Some id) (students st) ->
  let st1 := step st (EditClick id) in
  log st1 = log st ++ [SetInput Kname (VStr (f_name d)); SetInput Ksid (VStr (f_sid d));
                       SetInput Kemail (VStr (f_email d));
                       SetInput Kcontact (VStr (f_contact d)); ScrollTop]
  /\ students (step st1 (Submit d now rnd)) = students st
  /\ editingId (step st1 (Submit d now rnd)) = None.
Proof.
  intros H Hl Hpre Hid Hd Hv Hfree st1.
  assert (trim (f_sid d) = f_sid d) as Hsid by (rewrite <- Hd at 2; reflexivity).
  rewrite <- Hsid in Hfree.
  destruct (edit_run id d now rnd st pre (student id d) post H Hl Hpre
              (student_id id d) Hid Hv Hfree) as [E1 E2].
  unfold st1. rewrite E1. split; [simpl; rewrite <- !app_assoc; reflexivity|].
  unfold step, handle. rewrite E2, Hd. simpl. split; [symmetry; exact Hl | reflexivity].
Qed.

Lemma edit_without_change_keeps_roster_witness :
  students (step (step two_records_page (EditClick (lit "a"))) (Submit ann t0 r0))
  = students two_records_page.
Proof.
  apply (edit_without_change_keeps_roster (lit "a") ann t0 r0 two_records_page
           [] [student (lit "b") bob]).
  - reflexivity.
  - reflexivity.
  - constructor.
  - discriminate.
  - reflexivity.
  - repeat split.
  - repeat constructor; discriminate.
Defined.

(** ** Handlers that return, handlers that throw *)

Lemma handle_completes (st : state) (ev : event) :
  renders (students st) -> fst (handle ev st) = Ok tt.
Proof.
  intros H. pose proof (renders_readable _ H) as Hr.
  assert (renders (students (add_log PreventDefault st))) as H' by exact H.
  destruct ev as [form now rnd|id|id [|]|]; unfold handle.
  - destruct (any_error (form_errors form)) eqn:V.
    + apply any_error_true in V. rewrite onSubmit_invalid by exact V. reflexivity.
    + apply any_error_false in V. rewrite onSubmit_valid by exact V. simpl.
      destruct (some_total (is_duplicate (trim (f_sid form)) (editingId st)) (students st))
        as [[b Hb] _].
      { eapply Forall_impl; [exact Hr|]. intros s Hs.
        destruct (is_duplicate_readable (trim (f_sid form)) (editingId st) s Hs) as (b & E & _).
        exists b. exact E. }
      rewrite Hb. destruct b; [reflexivity|].
      destruct (editingId st) as [id|]; [destruct (str_falsy id)|];
        try (rewrite (add_run _ _ _ _ H'); reflexivity).
      destruct (find_total (id_is id) (students st) (readable_id_is id _ Hr))
        as [Hn|(pre & s & post & Hh)].
      * apply find_None in Hn. unfold mbind, M_bind.
        rewrite updateStudent_miss by exact Hn. reflexivity.
      * rewrite (update_run id _ _ pre s post H' Hh). reflexivity.
  - destruct (find_total (id_is id) (students st) (readable_id_is id _ Hr))
      as [Hn|(pre & s & post & Hh)].
    + rewrite startEdit_none by exact Hn. reflexivity.
    + rewrite (startEdit_found id st s); [reflexivity | apply (find_hit _ _ _ _ _ Hh)|].
      apply (renders_elem _ _ H). destruct Hh as (-> & _). apply elem_of_app. right. left.
  - rewrite delete_confirmed_run by exact H. reflexivity.
  - reflexivity.
  - reflexivity.
Qed.

Lemma renders_run (evs : list event) (st : state) :
  renders (students st) -> renders (students (run evs st)).
Proof.
  revert st. induction evs as [|ev evs IH]; intros st H; [exact H|].
  simpl. apply IH, renders_step, H.
Qed.

(** X19. On a roster that renders no handler throws, and the roster it
    leaves renders again; so from such a roster every handler of every
    sequence of events returns normally. *)
Theorem handlers_return_on_renderable (st : state) (evs : list event) (ev : event) :
  renders (students st) ->
  fst (handle ev st) = Ok tt
  /\ renders (students (step st ev))
  /\ fst (handle ev (run evs st)) = Ok tt.
Proof.
  intros H. split; [apply handle_completes, H|]. split; [apply renders_step, H|].
  apply handle_completes, renders_run, H.
Qed.

Lemma handlers_return_on_renderable_witness :
  fst (handle (DeleteClick (new_id t0 r0) true) (run distinct_adds blank_page)) = Ok tt.
Proof.
  apply (handlers_return_on_renderable blank_page distinct_adds
           (DeleteClick (new_id t0 r0) true)).
  reflexivity.
Defined.

Lemma duplicate_test_throws (sid : jsstring) (e : option jsstring) (l : list value) :
  Exists (fun s => ~ readable s) l ->
  Forall (fun s => sid_of s <> Some sid) l ->
  some (is_duplicate sid e) l = Throw TypeError.
Proof.
  induction 1 as [s l Hs|s l _ IH]; intros Hn; apply Forall_cons in Hn as [Hs' Hn]; simpl.
  - destruct s; simpl in Hs; try (destruct Hs; exact I); reflexivity.
  - destruct s; try reflexivity; rewrite (IH Hn);
      try reflexivity.
    unfold is_duplicate. simpl. unfold_bind.
    destruct (strict_eq_str _ sid) eqn:E; [|reflexivity].
    apply strict_eq_str_true in E. destruct Hs'. unfold sid_of. simpl. rewrite E. reflexivity.
Qed.

(** X20. While the roster holds an element that is [null] or [undefined],
    a submit that passes the four validators and whose sid no record carries
    throws a TypeError in the duplicate test: nothing is added, nothing is
    stored, no message is shown. A stored array with a [null] in it puts the
    page in that state from its load on. *)
Theorem unreadable_roster_blocks_submit (form : fields) (now : Z) (rnd : jsstring)
    (st : state) :
  Exists (fun s => s = VNull \/ s = VUndef) (students st) ->
  no_message (messages form) ->
  Forall (fun s => sid_of s <> Some (trim (f_sid form))) (students st) ->
  onSubmit form now rnd st = (Throw TypeError, add_log PreventDefault st)
  /\ students (step st (Submit form now rnd)) = students st
  /\ slot (step st (Submit form now rnd)) = slot st
  /\ errs (step st (Submit form now rnd)) = errs st.
Proof.
  intros He Hv Hn.
  assert (onSubmit form now rnd st = (Throw TypeError, add_log PreventDefault st)) as E.
  { rewrite onSubmit_valid by exact Hv. simpl. rewrite duplicate_test_throws; [reflexivity | | exact Hn].
    eapply Exists_impl; [exact He|]. intros s [-> | ->] [].  }
  unfold step, handle. rewrite E. repeat split; reflexivity.
Qed.

Lemma unreadable_roster_blocks_submit_witness :
  students (snd (init sample_parse sample_stringify (page_with odd_text))) = odd_roster
  /\ fst (onSubmit bob t0 r0 (snd (init sample_parse sample_stringify (page_with odd_text))))
     = Throw TypeError.
Proof.
  split; [reflexivity|].
  pose proof (unreadable_roster_blocks_submit bob t0 r0
                (snd (init sample_parse sample_stringify (page_with odd_text)))) as H.
  rewrite (proj1 (H ltac:(left; left; reflexivity) ltac:(repeat split)
                    ltac:(repeat constructor; discriminate))).
  reflexivity.
Defined.

(** X21. Whitespace around the values of the four inputs never matters:
    the submit handler does to every state what it does on the trimmed
    form, and the messages of a form are those of its trimmed form. *)
Theorem submit_ignores_outer_blanks (form : fields) (now : Z) (rnd : jsstring) (st : state) :
  onSubmit form now rnd st = onSubmit (data_of form) now rnd st
  /\ messages form = messages (data_of form)
  /\ data_of (data_of form) = data_of form.
Proof.
  assert (data_of (data_of form) = data_of form) as E
    by (unfold data_of; simpl; rewrite !trim_idempotent; reflexivity).
  split; [|split; [|exact E]].
  - unfold onSubmit. simpl. rewrite !trim_idempotent. reflexivity.
  - unfold messages. simpl.
    rewrite validateName_trim, validateSID_trim, validateEmail_trim, validateContact_trim.
    reflexivity.
Qed.

(** ** What the table shows *)

Section Appends.
Variable P : effect -> Prop.

Lemma appends_ret {A : Type} (a : A) : appends P (mret a).
Proof. intros st. exists []. rewrite app_nil_r. split; [reflexivity | constructor]. Qed.

Lemma appends_lift {A : Type} (r : result A) : appends P (lift r).
Proof. intros st. exists []. rewrite app_nil_r. split; [reflexivity | constructor]. Qed.

Lemma appends_gets {A : Type} (f : state -> A) : appends P (gets f).
Proof. intros st. exists []. rewrite app_nil_r. split; [reflexivity | constructor]. Qed.

Lemma appends_modify (f : state -> state) :
  (forall st, log (f st) = log st) -> appends P (modify f).
Proof.
  intros H st. exists []. rewrite app_nil_r. split; [apply H | constructor].
Qed.

Lemma appends_emit (e : effect) : P e -> appends P (emit e).
Proof. intros H st. exists [e]. split; [reflexivity | repeat constructor; exact H]. Qed.

Lemma appends_bind {A C : Type} (m : M A) (f : A -> M C) :
  appends P m -> (forall a, appends P (f a)) -> appends P (m ≫= f).
Proof.
  intros Hm Hf st. unfold_bind. destruct (Hm st) as (es & E & He).
  destruct (m st) as [[a|e] st1]; simpl in *; [|exists es; split; assumption].
  destruct (Hf a st1) as (es' & E' & He'). exists (es ++ es').
  rewrite E', E, app_assoc. split; [reflexivity | apply Forall_app; split; assumption].
Qed.

Lemma appends_try_catch {A : Type} (body : M A) (handler : exn -> M A) :
  appends P body -> (forall e, appends P (handler e)) -> appends P (try_catch body handler).
Proof.
  intros Hm Hf st. unfold try_catch. destruct (Hm st) as (es & E & He).
  destruct (body st) as [[a|e] st1]; simpl in *; [exists es; split; assumption|].
  destruct (Hf e st1) as (es' & E' & He'). exists (es ++ es').
  rewrite E', E, app_assoc. split; [reflexivity | apply Forall_app; split; assumption].
Qed.

Lemma appends_run (evs : list event) (st : state) :
  (forall ev, appends P (handle ev)) ->
  Forall P (log st) -> Forall P (log (run evs st)).
Proof.
  intros Hh. revert st. induction evs as [|ev evs IH]; intros st H; [exact H|].
  simpl. apply IH. unfold step. destruct (Hh ev st) as (es & -> & He).
  apply Forall_app. split; assumption.
Qed.

End Appends.

Ltac appending :=
  repeat first
    [ apply appends_ret
    | apply appends_lift
    | apply appends_gets
    | apply appends_emit; exact I
    | apply appends_emit; reflexivity
    | apply appends_modify; intros ?; reflexivity
    | apply appends_bind; [|intros ?]
    | apply appends_try_catch; [|intros ?]
    | match goal with
      | |- appends _ (if ?b then _ else _) => destruct b
      | |- appends _ (match ?x with _ => _ end) => destruct x
      end ].

Lemma renderStudents_flags : appends flag_ok renderStudents.
Proof. unfold renderStudents. appending. Qed.

Lemma handle_flags (ev : event) : appends flag_ok (handle ev).
Proof.
  destruct ev; unfold handle, onSubmit, addStudent, updateStudent, startEdit, deleteStudent,
    clearForm, showErrors, setInput, saveToStorage;
    repeat first [apply renderStudents_flags | progress appending].
Qed.

Lemma init_flags (JSON_parse : jsstring -> result value)
    (JSON_stringify : list value -> jsstring) :
  appends flag_ok (init JSON_parse JSON_stringify).
Proof.
  unfold init, loadFromStorage.
  repeat first [apply renderStudents_flags | progress appending].
Qed.

Lemma last_pass_logged (lg : list effect) (e : effect) : last_pass lg = Some e -> e ∈ lg.
Proof.
  unfold last_pass. intros H. apply last_Some in H as [l' E].
  assert (e ∈ List.filter is_pass lg) as Hin
    by (rewrite E; apply elem_of_app; right; left).
  apply list_elem_of_In, filter_In in Hin as [Hin _]. apply list_elem_of_In, Hin.
Qed.

(** X22. On every page reached from a page load, whatever the slot held
    and whatever events followed: if the last render pass completed, the
    rows it built are the records of the roster of the moment, in order, and
    the table scrolls exactly when there are more than five of them. *)
Theorem table_shows_the_roster (JSON_parse : jsstring -> result value)
    (JSON_stringify : list value -> jsstring) (st0 : state) (evs : list event)
    (rows : list value) (scroll : bool) :
  booted st0 ->
  let st := run evs (snd (init JSON_parse JSON_stringify st0)) in
  last_pass (log st) = Some (Render rows scroll) ->
  rows = students st
  /\ (scroll = true <-> (5 < length (students st))%nat)
  /\ renders (students st).
Proof.
  intros (_ & _ & Hlog) st Hlast.
  assert (shows_roster st0) as H0 by (intros l' b'; rewrite Hlog; discriminate).
  pose proof (run_shows evs _ (shape_shows _ _ (init_shape JSON_parse JSON_stringify st0) H0))
    as H.
  destruct (H rows scroll Hlast) as [-> Hr]. split; [reflexivity|]. split; [|exact Hr].
  assert (Forall flag_ok (log st)) as Hf.
  { apply appends_run; [apply handle_flags|].
    destruct (init_flags JSON_parse JSON_stringify st0) as (es & -> & He).
    rewrite Hlog. exact He. }
  rewrite Forall_forall in Hf. specialize (Hf _ (last_pass_logged _ _ Hlast)).
  simpl in Hf. rewrite Hf. apply Nat.ltb_lt.
Qed.

Lemma table_shows_the_roster_witness :
  [student (new_id t0 r0) ann_new_sid]
  = students (run distinct_adds (snd (init sample_parse sample_stringify blank_page))).
Proof.
  apply (table_shows_the_roster sample_parse sample_stringify blank_page distinct_adds
           [student (new_id t0 r0) ann_new_sid] false); [repeat split | reflexivity].
Defined.

(** ** Clear, and what handlers leave alone *)

(** X23. Clear cancels an edit. After an edit click on a record and a click
    on Clear the page is in Add mode with the roster as it was, and a submit
    that passes the validators with a sid no record carries appends a record
    instead of replacing the one that had been opened. *)
Theorem clear_cancels_edit (id : jsstring) (form : fields) (now : Z) (rnd : jsstring)
    (st : state) (pre : list value) (s : value) (post : list value) :
  renders (students st) ->
  students st = pre ++ s :: post ->
  Forall (fun x => id_of x <> Some id) pre ->
  id_of s = Some id ->
  no_message (messages form) ->
  Forall (fun x => sid_of x <> Some (trim (f_sid form))) (students st) ->
  let st1 := run [EditClick id; ClearClick] st in
  editingId (step st (EditClick id)) = Some id
  /\ editingId st1 = None
  /\ saveBtn st1 = lit "Save"
  /\ students st1 = students st
  /\ slot st1 = slot st
  /\ students (step st1 (Submit form now rnd))
     = students st ++ [student (new_id now rnd) (data_of form)].
Proof.
  intros H Hl Hpre Hs Hv Hn st1. pose proof (renders_readable _ H) as Hr.
  pose proof (hit_of_parts id _ pre s post Hr Hl Hpre Hs) as Hh.
  assert (step st (EditClick id) = editing id s st) as E1.
  { unfold step, handle. rewrite (startEdit_found id st s); [reflexivity | |].
    - apply (find_hit _ _ _ _ _ Hh).
    - apply (renders_elem _ _ H). rewrite Hl. apply elem_of_app. right. left. }
  assert (st1 = cleared (editing id s st)) as E2.
  { unfold st1. simpl. rewrite E1. reflexivity. }
  rewrite E1, E2. repeat (split; [reflexivity|]).
  unfold step, handle. rewrite submit_add_run; [reflexivity | exact H | left; reflexivity
                                               | exact Hv |].
  unfold sid_free. eapply Forall_impl; [exact Hn|]. intros x Hx Hx'. destruct (Hx Hx').
Qed.

Lemma clear_cancels_edit_witness :
  students (step (run [EditClick (lit "b"); ClearClick] two_records_page)
              (Submit ann_new_sid t0 r0))
  = two_records ++ [student (new_id t0 r0) ann_new_sid].
Proof.
  apply (clear_cancels_edit (lit "b") ann_new_sid t0 r0 two_records_page
           [student (lit "a") ann] (student (lit "b") bob) []).
  - reflexivity.
  - reflexivity.
  - repeat constructor. discriminate.
  - reflexivity.
  - repeat split.
  - repeat constructor; discriminate.
Defined.

(** X24. What the click handlers never touch, whatever the roster holds and
    however they end. An edit click changes neither the roster nor the slot
    nor the error texts; a delete click changes neither the edit id nor the
    label of the button nor the error texts, so deleting the record that is
    open for editing leaves the edit open; a click on Clear changes neither
    the roster nor the slot. *)
Theorem clicks_leave_alone (id : jsstring) (confirmed : bool) (st : state) :
  (students (step st (EditClick id)) = students st
   /\ slot (step st (EditClick id)) = slot st
   /\ errs (step st (EditClick id)) = errs st)
  /\ (editingId (step st (DeleteClick id confirmed)) = editingId st
      /\ saveBtn (step st (DeleteClick id confirmed)) = saveBtn st
      /\ errs (step st (DeleteClick id confirmed)) = errs st)
  /\ (students (step st ClearClick) = students st
      /\ slot (step st ClearClick) = slot st).
Proof.
  split; [|split].
  - split; [apply keeps_startEdit|]. split; [apply startEdit_keeps_slot|].
    apply startEdit_keeps_errs.
  - split; [apply deleteStudent_keeps_editingId|]. split; [apply deleteStudent_keeps_saveBtn|].
    apply deleteStudent_keeps_errs.
  - split; [apply clearForm_keeps_students | apply clearForm_keeps_slot].
Qed.

(** X25. A first visit. When the slot is absent or holds the empty text,
    [init] consults no parser, logs no error and returns normally: the roster
    is empty and the one render pass shows no record. *)
Theorem first_visit_starts_empty (JSON_parse : jsstring -> result value)
    (JSON_stringify : list value -> jsstring) (st0 : state) :
  slot st0 = None \/ slot st0 = Some (Text []) ->
  init JSON_parse JSON_stringify st0
  = (Ok tt, add_log (Render [] false) (set_students [] st0)).
Proof.
  intros H. unfold init. unfold mbind at 1. unfold M_bind at 1.
  rewrite loadFromStorage_run. unfold getItem. destruct H as [-> | ->]; reflexivity.
Qed.

Lemma first_visit_starts_empty_witness :
  init sample_parse sample_stringify blank_page
  = (Ok tt, add_log (Render [] false) (set_students [] blank_page)).
Proof.
  apply (first_visit_starts_empty sample_parse sample_stringify blank_page).
  left. reflexivity.
Defined.

